(** * MultisaveX: a shallow embedding of the bot's domain and infrastructure
      layers, and the properties verified about them.

    Modelling conventions.
    - A Python [dict] is a [gmap] with string keys; a JSON array is a [list].
    - A naive [datetime] is an integer number of microseconds ([Z]); a
      [timedelta] is the difference of two of them.  [datetime.now()] is an
      argument of the function that reads the clock.
    - A timestamp written to a JSON file with [isoformat()] is kept as
      [JTime t], the instant the ISO-8601 string denotes.
    - A coroutine is modelled by the function it computes; a function that
      can raise returns a [result]. *)

From stdpp Require Import gmap strings list fin_maps pretty.
From Stdlib Require Import ZArith Ascii String Lia.

Set Warnings "-register-all".
#[local] Open Scope string_scope.
#[local] Open Scope Z_scope.

(* ===================================================================== *)
(** ** Values, exceptions, results                                        *)
(* ===================================================================== *)

(** What the repositories hand to [json.dumps].  The only floats in the
    modelled code are durations in seconds; [JFloat] keeps one as the
    timedelta, in microseconds, it was computed from. *)
Inductive json :=
| JNull
| JBool (b : bool)
| JInt (z : Z)
| JFloat (micro : Z)
| JStr (s : string)
| JTime (t : Z)
| JArr (l : list json)
| JObj (m : gmap string json).

(** The exception classes the modelled code raises or catches.  All of them
    derive from [Exception]. *)
Inductive exception :=
| ValueError (msg : string)
| TypeError (msg : string)
| AttributeError (msg : string)
| KeyError (msg : string)
| DownloadError (msg : string)
| UnsupportedUrlError (msg : string)
| RateLimitError (msg : string)
| RepositoryError (msg : string)
| OtherError (cls msg : string).

(** [str(e)] *)
Definition str_of_exception (e : exception) : string :=
  match e with
  | ValueError m | TypeError m | AttributeError m | KeyError m
  | DownloadError m | UnsupportedUrlError m | RateLimitError m
  | RepositoryError m | OtherError _ m => m
  end.

Inductive result (A : Type) :=
| Ok (a : A)
| Raise (e : exception).
Arguments Ok {A} a.
Arguments Raise {A} e.

(** Sequencing: the first exception raised ends the computation. *)
#[global] Instance result_bind : MBind result := fun A B k m =>
  match m with
  | Ok a => k a
  | Raise e => Raise e
  end.

(** [try: m  except Exception: return d] *)
Definition try_except {A} (m : result A) (d : A) : A :=
  match m with
  | Ok a => a
  | Raise _ => d
  end.

(** A [datetime] is counted in microseconds since [datetime.min],
    0001-01-01T00:00:00; the last one is [datetime.max],
    9999-12-31T23:59:59.999999. *)
Definition datetime_max : Z := 315537897599999999.

Definition is_datetime (t : Z) : bool := (0 <=? t) && (t <=? datetime_max).

(** The range of [timedelta]: from [timedelta.min], -999999999 days, to
    [timedelta.max], 999999999 days 23:59:59.999999. *)
Definition is_timedelta (d : Z) : bool :=
  (-86399999913600000000 <=? d) && (d <=? 86399999999999999999).

(** [t + timedelta(...)] for a datetime [t] and a duration of [d]
    microseconds: [OverflowError] when the duration is no [timedelta] or
    the sum is no [datetime]. *)
Definition datetime_add (t d : Z) : result Z :=
  if is_timedelta d && is_datetime (t + d) then Ok (t + d)
  else Raise (OtherError "OverflowError" "date value out of range").

(** The text of a JSON file, as [json.loads] sees it: it parses to a value,
    or it raises [JSONDecodeError]. *)
Inductive disk (A : Type) :=
| Parsed (data : A)
| Corrupt.
Arguments Parsed {A} data.
Arguments Corrupt {A}.

(** A JSON file on disk: its text, and how many times [_write_data] has
    replaced it.  Failures of the file system itself are not modelled. *)
Record file (A : Type) := mkFile {
  text : disk A;
  writes : nat
}.
Arguments mkFile {A} text writes.
Arguments text {A} f.
Arguments writes {A} f.

(** [await self._write_data(data)] *)
Definition write_data {A} (data : A) (f : file A) : file A :=
  {| text := Parsed data; writes := S (writes f) |}.

(** [await self._read_data()], the same in the three JSON stores: a file
    that does not parse is replaced by the empty value ([[]] or [{}]), which
    is returned. *)
Definition read_data {A} (empty : A) (f : file A) : A * file A :=
  match text f with
  | Parsed data => (data, f)
  | Corrupt => (empty, write_data empty f)
  end.

(** [None] for an absent optional, otherwise the value. *)
Definition json_option {A} (inj : A -> json) (o : option A) : json :=
  match o with
  | Some a => inj a
  | None => JNull
  end.

(** [v == s] for a JSON value [v] and a [str] [s]. *)
Definition json_eq_str (v : json) (s : string) : bool :=
  match v with
  | JStr s' => String.eqb s' s
  | _ => false
  end.

(** [d["id"] == i] for a stored object that has the key. *)
Definition has_id (i : string) (d : gmap string json) : bool :=
  match d !! "id" with
  | Some v => json_eq_str v i
  | None => false
  end.

(** Every object of a well-formed store has the key ["id"]. *)
Definition has_id_key (d : gmap string json) : Prop := is_Some (d !! "id").

(** shared/config/settings.py, the settings the modelled code reads. *)
Record Settings := {
  RATE_LIMIT_REQUESTS : Z;
  RATE_LIMIT_PERIOD : Z;
  DOWNLOAD_RATE_LIMIT : Z;
  DOWNLOAD_RATE_PERIOD : Z;
  DEFAULT_LANGUAGE : string;
  SUPPORTED_LANGUAGES : list string
}.

(** The values when no environment variable overrides them. *)
Definition default_settings : Settings := {|
  RATE_LIMIT_REQUESTS := 10;
  RATE_LIMIT_PERIOD := 60;
  DOWNLOAD_RATE_LIMIT := 5;
  DOWNLOAD_RATE_PERIOD := 300;
  DEFAULT_LANGUAGE := "en";
  SUPPORTED_LANGUAGES := ["en"; "ru"; "uz"]
|}.

(** Python's [sub in s] on strings. *)
Fixpoint starts_with (p s : string) : bool :=
  match p, s with
  | EmptyString, _ => true
  | String a p', String b s' => Ascii.eqb a b && starts_with p' s'
  | String _ _, EmptyString => false
  end.

Fixpoint str_in (sub s : string) : bool :=
  starts_with sub s ||
  match s with
  | EmptyString => false
  | String _ s' => str_in sub s'
  end.

(* ===================================================================== *)
(** ** domain/entities/download_request.py                                *)
(* ===================================================================== *)

Module Request.

Inductive DownloadStatus := PENDING | PROCESSING | COMPLETED | FAILED | CANCELLED.

Inductive Platform := INSTAGRAM | TIKTOK.

#[global] Instance DownloadStatus_eq_dec : EqDecision DownloadStatus.
Proof. solve_decision. Defined.

#[global] Instance Platform_eq_dec : EqDecision Platform.
Proof. solve_decision. Defined.

(** The [platform] attribute is annotated [Optional[Platform]]; the dataclass
    does not check it, and the download use case stores the platform hint it
    was given, a [str]. *)
Inductive platform_attr :=
| PlatformEnum (p : Platform)
| PlatformStr (s : string).

(** The dataclass.  [processing_time] is [total_seconds()] of a timedelta;
    the model keeps the timedelta itself, in microseconds. *)
Record DownloadRequest := mkDownloadRequest {
  id : string;
  user_id : Z;
  url : string;
  platform : option platform_attr;
  status : DownloadStatus;
  created_at : option Z;
  started_at : option Z;
  completed_at : option Z;
  error_message : option string;
  retry_count : Z;
  max_retries : Z;
  media_files : list string;
  metadata : gmap string json;
  total_size : option Z;
  processing_time : option Z
}.

(** [(completed_at - started_at).total_seconds()] *)
Definition total_seconds (completed started : Z) : Z := completed - started.

(** [__post_init__], run by the generated [__init__] on the fields it was
    given; [now] is [datetime.now()]. *)
Definition post_init (now : Z) (r : DownloadRequest) : DownloadRequest :=
  let created := match created_at r with
                 | None => Some now
                 | Some c => Some c
                 end in
  let plat :=
    match platform r with
    | None =>
        if negb (String.eqb (url r) "") then
          if str_in "instagram.com" (url r) || str_in "instagr.am" (url r)
          then Some (PlatformEnum INSTAGRAM)
          else if str_in "tiktok.com" (url r) || str_in "vm.tiktok.com" (url r)
          then Some (PlatformEnum TIKTOK)
          else None
        else None
    | Some p => Some p
    end in
  {| id := id r; user_id := user_id r; url := url r;
     platform := plat;
     status := status r;
     created_at := created;
     started_at := started_at r; completed_at := completed_at r;
     error_message := error_message r;
     retry_count := retry_count r; max_retries := max_retries r;
     media_files := media_files r; metadata := metadata r;
     total_size := total_size r; processing_time := processing_time r |}.

(** [DownloadRequest(id=.., user_id=.., url=.., platform=..)]: the call the
    code makes, every other field at its default. *)
Definition new_request (now : Z) (rid : string) (uid : Z) (u : string)
    (p : option platform_attr) : DownloadRequest :=
  post_init now
    {| id := rid; user_id := uid; url := u; platform := p;
       status := PENDING;
       created_at := None; started_at := None; completed_at := None;
       error_message := None;
       retry_count := 0; max_retries := 3;
       media_files := []; metadata := ∅;
       total_size := None; processing_time := None |}.

(** The platform [__post_init__] infers for a URL when none is supplied. *)
Definition inferred_platform (u : string) : option platform_attr :=
  platform (new_request 0 "" 0 u None).

Definition start_processing (now : Z) (r : DownloadRequest) : DownloadRequest :=
  {| id := id r; user_id := user_id r; url := url r; platform := platform r;
     status := PROCESSING;
     created_at := created_at r;
     started_at := Some now;
     completed_at := completed_at r;
     error_message := error_message r;
     retry_count := retry_count r; max_retries := max_retries r;
     media_files := media_files r; metadata := metadata r;
     total_size := total_size r; processing_time := processing_time r |}.

(** The tail shared by the three terminal operations:
    [if self.started_at: self.processing_time = (...).total_seconds()] *)
Definition elapsed (now : Z) (r : DownloadRequest) : option Z :=
  match started_at r with
  | Some s => Some (total_seconds now s)
  | None => processing_time r
  end.

Definition complete_successfully (now : Z) (files : list string)
    (size : option Z) (r : DownloadRequest) : DownloadRequest :=
  {| id := id r; user_id := user_id r; url := url r; platform := platform r;
     status := COMPLETED;
     created_at := created_at r;
     started_at := started_at r;
     completed_at := Some now;
     error_message := error_message r;
     retry_count := retry_count r; max_retries := max_retries r;
     media_files := files; metadata := metadata r;
     total_size := size; processing_time := elapsed now r |}.

Definition fail (now : Z) (msg : string) (r : DownloadRequest) : DownloadRequest :=
  {| id := id r; user_id := user_id r; url := url r; platform := platform r;
     status := FAILED;
     created_at := created_at r;
     started_at := started_at r;
     completed_at := Some now;
     error_message := Some msg;
     retry_count := retry_count r; max_retries := max_retries r;
     media_files := media_files r; metadata := metadata r;
     total_size := total_size r; processing_time := elapsed now r |}.

Definition cancel (now : Z) (r : DownloadRequest) : DownloadRequest :=
  {| id := id r; user_id := user_id r; url := url r; platform := platform r;
     status := CANCELLED;
     created_at := created_at r;
     started_at := started_at r;
     completed_at := Some now;
     error_message := error_message r;
     retry_count := retry_count r; max_retries := max_retries r;
     media_files := media_files r; metadata := metadata r;
     total_size := total_size r; processing_time := elapsed now r |}.

Definition can_retry (r : DownloadRequest) : bool :=
  (retry_count r <? max_retries r) && bool_decide (status r = FAILED).

Definition increment_retry (r : DownloadRequest) : DownloadRequest :=
  if can_retry r then
    {| id := id r; user_id := user_id r; url := url r; platform := platform r;
       status := PENDING;
       created_at := created_at r;
       started_at := None;
       completed_at := None;
       error_message := None;
       retry_count := retry_count r + 1; max_retries := max_retries r;
       media_files := media_files r; metadata := metadata r;
       total_size := total_size r; processing_time := processing_time r |}
  else r.

(** The entity's state-changing operations, as data, and their execution in
    sequence. *)
Inductive request_op :=
| OpStart (now : Z)
| OpComplete (now : Z) (files : list string) (size : option Z)
| OpFail (now : Z) (msg : string)
| OpCancel (now : Z)
| OpRetry.

Definition apply_op (r : DownloadRequest) (o : request_op) : DownloadRequest :=
  match o with
  | OpStart now => start_processing now r
  | OpComplete now files size => complete_successfully now files size r
  | OpFail now msg => fail now msg r
  | OpCancel now => cancel now r
  | OpRetry => increment_retry r
  end.

Definition run_ops (r : DownloadRequest) (ops : list request_op) : DownloadRequest :=
  fold_left apply_op ops r.

Definition is_terminal (s : DownloadStatus) : bool :=
  match s with
  | COMPLETED | FAILED | CANCELLED => true
  | PENDING | PROCESSING => false
  end.

(** A set [processing_time] agrees with the two timestamps, when those are
    set too. *)
Definition duration_consistent (r : DownloadRequest) : Prop :=
  forall pt s c,
    processing_time r = Some pt ->
    started_at r = Some s ->
    completed_at r = Some c ->
    pt = total_seconds c s.

(** In a terminal status with [started_at] set, [processing_time] is set and
    is the time from [started_at] to [completed_at]. *)
Definition settled (r : DownloadRequest) : Prop :=
  is_terminal (status r) = true ->
  forall s, started_at r = Some s ->
  exists c, completed_at r = Some c /\ processing_time r = Some (total_seconds c s).

(** What each status says about the other fields. *)
Definition status_consistent (r : DownloadRequest) : Prop :=
  match status r with
  | PENDING =>
      started_at r = None /\ completed_at r = None /\ error_message r = None
  | PROCESSING => is_Some (started_at r)
  | COMPLETED | CANCELLED => is_Some (completed_at r)
  | FAILED => is_Some (completed_at r) /\ is_Some (error_message r)
  end.

(** How many of the operations are retries. *)
Definition retries (ops : list request_op) : Z :=
  Z.of_nat (List.length (List.filter (fun o => match o with
                                               | OpRetry => true
                                               | _ => false
                                               end) ops)).

(** Attribute lookup on a request, as [request.<name>(...)] performs it.
    These are the methods the class defines; any other name that is not a
    field raises [AttributeError]. *)
Inductive method :=
| Mstart_processing
| Mcomplete_successfully
| Mfail
| Mcancel
| Mcan_retry
| Mincrement_retry
| Madd_metadata
| Mget_platform_name
| Mis_instagram
| Mis_tiktok.

Definition method_table : list (string * method) := [
  ("start_processing", Mstart_processing);
  ("complete_successfully", Mcomplete_successfully);
  ("fail", Mfail);
  ("cancel", Mcancel);
  ("can_retry", Mcan_retry);
  ("increment_retry", Mincrement_retry);
  ("add_metadata", Madd_metadata);
  ("get_platform_name", Mget_platform_name);
  ("is_instagram", Mis_instagram);
  ("is_tiktok", Mis_tiktok)
].

Definition field_names : list string := [
  "id"; "user_id"; "url"; "platform"; "status"; "created_at"; "started_at";
  "completed_at"; "error_message"; "retry_count"; "max_retries";
  "media_files"; "metadata"; "total_size"; "processing_time"
].

Fixpoint assoc {A} (name : string) (table : list (string * A)) : option A :=
  match table with
  | [] => None
  | (n, a) :: rest => if String.eqb n name then Some a else assoc name rest
  end.

(** [getattr(request, name)] followed by the call: the method to run. *)
Definition get_method (name : string) : result method :=
  match assoc name method_table with
  | Some m => Ok m
  | None =>
      if existsb (String.eqb name) field_names
      then Raise (TypeError ("'" +:+ name +:+ "' attribute is not callable"))
      else Raise (AttributeError
                    ("'DownloadRequest' object has no attribute '" +:+ name +:+ "'"))
  end.

(** Positional arguments of a method call. *)
Inductive argument :=
| ArgStr (s : string)
| ArgList (l : list string)
| ArgInt (o : option Z)
| ArgJson (v : json).

Definition bad_arguments : exception :=
  TypeError "wrong number or type of arguments".

(** Does the method read the clock? *)
Definition reads_clock (m : method) : bool :=
  match m with
  | Mstart_processing | Mcomplete_successfully | Mfail | Mcancel => true
  | _ => false
  end.

(** Bind the arguments of a call to a method: the body that then runs, as
    a function of the clock and of the request, giving the request
    afterwards (the value a query method returns is not kept). *)
Definition bind_method (m : method) (args : list argument)
    : result (Z -> DownloadRequest -> DownloadRequest) :=
  match m, args with
  | Mstart_processing, [] => Ok start_processing
  | Mcomplete_successfully, [ArgList files] =>
      Ok (fun now => complete_successfully now files None)
  | Mcomplete_successfully, [ArgList files; ArgInt size] =>
      Ok (fun now => complete_successfully now files size)
  | Mfail, [ArgStr msg] => Ok (fun now => fail now msg)
  | Mcancel, [] => Ok cancel
  | Mincrement_retry, [] => Ok (fun _ => increment_retry)
  | Madd_metadata, [ArgStr key; ArgJson value] =>
      Ok (fun _ r =>
            {| id := id r; user_id := user_id r; url := url r;
               platform := platform r; status := status r;
               created_at := created_at r; started_at := started_at r;
               completed_at := completed_at r;
               error_message := error_message r;
               retry_count := retry_count r; max_retries := max_retries r;
               media_files := media_files r;
               metadata := <[key := value]> (metadata r);
               total_size := total_size r;
               processing_time := processing_time r |})
  | (Mcan_retry | Mget_platform_name | Mis_instagram | Mis_tiktok), [] =>
      Ok (fun _ r => r)
  | _, _ => Raise bad_arguments
  end.

End Request.

(* ===================================================================== *)
(** ** Regular expressions, as [re.match] runs them                       *)
(* ===================================================================== *)

Module Re.

(** The fragment of [re] syntax the adapters' patterns use: literals,
    character classes, sequence, alternation, [?] and [+] over a character
    class. *)
Inductive regex :=
| Eps
| Chr (c : ascii)
| Cls (p : ascii -> bool)
| Seq (r1 r2 : regex)
| Alt (r1 r2 : regex)
| Opt (r : regex)
| Plus (p : ascii -> bool).

(** [p+] followed by the continuation [k]: greedy, then backtracking. *)
Fixpoint plus_cls (p : ascii -> bool) (k : string -> bool) (s : string) : bool :=
  match s with
  | EmptyString => false
  | String c s' => p c && (plus_cls p k s' || k s')
  end.

(** Backtracking matcher: does [r] match a prefix of [s] after which the
    continuation [k] accepts the rest? *)
Fixpoint matches (r : regex) (s : string) (k : string -> bool) : bool :=
  match r with
  | Eps => k s
  | Chr c =>
      match s with
      | String a s' => Ascii.eqb a c && k s'
      | EmptyString => false
      end
  | Cls p =>
      match s with
      | String a s' => p a && k s'
      | EmptyString => false
      end
  | Seq r1 r2 => matches r1 s (fun s' => matches r2 s' k)
  | Alt r1 r2 => matches r1 s k || matches r2 s k
  | Opt r' => matches r' s k || k s
  | Plus p => plus_cls p k s
  end.

(** [re.match(pattern, s)] as a truth value: the pattern matches at the
    start of [s]; what follows the match is not looked at. *)
Definition re_match (r : regex) (s : string) : bool :=
  matches r s (fun _ => true).

(** A run of literal characters. *)
Fixpoint lit (w : string) : regex :=
  match w with
  | EmptyString => Eps
  | String c w' => Seq (Chr c) (lit w')
  end.

Fixpoint seq (rs : list regex) : regex :=
  match rs with
  | [] => Eps
  | r :: rs' => Seq r (seq rs')
  end.

Definition in_range (lo hi : N) (c : ascii) : bool :=
  (lo <=? N_of_ascii c)%N && (N_of_ascii c <=? hi)%N.

(** A character of the model is a code point below 256.  [\d] matches the
    decimal digits, which there are 0-9 alone. *)
Definition digit (c : ascii) : bool := in_range 48 57 c.

(** The letters and numbers above the ASCII range. *)
Definition latin1_alnum (c : ascii) : bool :=
  (N_of_ascii c =? 170)%N || (N_of_ascii c =? 178)%N || (N_of_ascii c =? 179)%N
  || (N_of_ascii c =? 181)%N || (N_of_ascii c =? 185)%N
  || (N_of_ascii c =? 186)%N
  || in_range 188 190 c || in_range 192 214 c || in_range 216 246 c
  || in_range 248 255 c.

(** [\w] matches the characters [str.isalnum] accepts and the underscore. *)
Definition word (c : ascii) : bool :=
  in_range 97 122 c || in_range 65 90 c || digit c || Ascii.eqb c "_"
  || latin1_alnum c.

(** [[\w-]] *)
Definition word_hyphen (c : ascii) : bool := word c || Ascii.eqb c "-".

(** [[\w.-]] *)
Definition word_dot_hyphen (c : ascii) : bool :=
  word c || Ascii.eqb c "." || Ascii.eqb c "-".

(** [https?://] *)
Definition scheme : list regex := [lit "http"; Opt (Chr "s"); lit "://"].

(** [(?:www\.)?] *)
Definition www : regex := Opt (lit "www.").

End Re.

(* ===================================================================== *)
(** ** application/interfaces/downloader_service.py and its adapters      *)
(* ===================================================================== *)

Module Downloader.

Import Re.

(** The [DownloaderService] port.  [can_handle] is a test on the text of the
    URL in both adapters; the other operations reach the network and can
    raise. *)
Record DownloaderService := {
  class_name : string;
  can_handle : string -> bool;
  extract_media_info : string -> result (gmap string json);
  download_media : Request.DownloadRequest -> result (list string);
  get_media_metadata : string -> result (option (gmap string json));
  validate_url : string -> result bool;
  get_supported_platforms : list string
}.

(** The part of an adapter that talks to the platform. *)
Record network := {
  net_extract_media_info : string -> result (gmap string json);
  net_download_media : Request.DownloadRequest -> result (list string);
  net_get_media_metadata : string -> result (option (gmap string json));
  net_validate_url : string -> result bool
}.

(** A network on which every operation fails. *)
Definition unreachable : network := {|
  net_extract_media_info := fun _ => Raise (DownloadError "unreachable");
  net_download_media := fun _ => Raise (DownloadError "unreachable");
  net_get_media_metadata := fun _ => Ok None;
  net_validate_url := fun _ => Ok false
|}.

(** instagram_downloader_service.py, [instagram_patterns]:
<<
  https?://(?:www\.)?instagram\.com/p/[\w-]+
  https?://(?:www\.)?instagram\.com/reel/[\w-]+
  https?://(?:www\.)?instagram\.com/tv/[\w-]+
  https?://(?:www\.)?instagram\.com/stories/[\w.-]+/\d+
  https?://(?:www\.)?instagr\.am/p/[\w-]+
>> *)
Definition instagram_patterns : list regex := [
  seq (scheme ++ [www; lit "instagram.com"; lit "/p/"; Plus word_hyphen]);
  seq (scheme ++ [www; lit "instagram.com"; lit "/reel/"; Plus word_hyphen]);
  seq (scheme ++ [www; lit "instagram.com"; lit "/tv/"; Plus word_hyphen]);
  seq (scheme ++ [www; lit "instagram.com"; lit "/stories/";
                  Plus word_dot_hyphen; Chr "/"; Plus digit]);
  seq (scheme ++ [www; lit "instagr.am"; lit "/p/"; Plus word_hyphen])
].

(** tiktok_downloader_service.py, [tiktok_patterns]:
<<
  https?://(?:www\.)?tiktok\.com/@[\w.-]+/video/\d+
  https?://(?:vm\.|vt\.)?tiktok\.com/[\w.-]+
  https?://(?:www\.)?tiktok\.com/t/[\w.-]+
  https?://m\.tiktok\.com/v/\d+
>> *)
Definition tiktok_patterns : list regex := [
  seq (scheme ++ [www; lit "tiktok.com"; lit "/@"; Plus word_dot_hyphen;
                  lit "/video/"; Plus digit]);
  seq (scheme ++ [Opt (Alt (lit "vm.") (lit "vt.")); lit "tiktok.com";
                  Chr "/"; Plus word_dot_hyphen]);
  seq (scheme ++ [www; lit "tiktok.com"; lit "/t/"; Plus word_dot_hyphen]);
  seq (scheme ++ [lit "m."; lit "tiktok.com"; lit "/v/"; Plus digit])
].

(** How a URL that one of [instagram_patterns] matches can begin. *)
Definition instagram_prefixes : list string := [
  "http://instagram.com/"; "https://instagram.com/";
  "http://www.instagram.com/"; "https://www.instagram.com/";
  "http://instagr.am/"; "https://instagr.am/";
  "http://www.instagr.am/"; "https://www.instagr.am/"
].

(** How a URL that one of [tiktok_patterns] matches can begin. *)
Definition tiktok_prefixes : list string := [
  "http://tiktok.com/"; "https://tiktok.com/";
  "http://www.tiktok.com/"; "https://www.tiktok.com/";
  "http://vm.tiktok.com/"; "https://vm.tiktok.com/";
  "http://vt.tiktok.com/"; "https://vt.tiktok.com/";
  "http://m.tiktok.com/"; "https://m.tiktok.com/"
].

Definition starts_with_any (prefixes : list string) (u : string) : bool :=
  existsb (fun p => starts_with p u) prefixes.

(** [any(re.match(pattern, url) for pattern in patterns)] *)
Definition any_match (patterns : list regex) (u : string) : bool :=
  existsb (fun p => re_match p u) patterns.

Definition InstagramDownloaderService (net : network) : DownloaderService := {|
  class_name := "InstagramDownloaderService";
  can_handle := any_match instagram_patterns;
  extract_media_info := net_extract_media_info net;
  download_media := net_download_media net;
  get_media_metadata := net_get_media_metadata net;
  validate_url := net_validate_url net;
  get_supported_platforms := ["instagram"]
|}.

Definition TikTokDownloaderService (net : network) : DownloaderService := {|
  class_name := "TikTokDownloaderService";
  can_handle := any_match tiktok_patterns;
  extract_media_info := net_extract_media_info net;
  download_media := net_download_media net;
  get_media_metadata := net_get_media_metadata net;
  validate_url := net_validate_url net;
  get_supported_platforms := ["tiktok"]
|}.

End Downloader.

(* ===================================================================== *)
(** ** infrastructure/external_services/composite_downloader_service.py   *)
(* ===================================================================== *)

Module CompositeDownloaderService.

Import Downloader.

(** [self.downloaders] is the only attribute; the service is its list. *)
Fixpoint can_handle (downloaders : list DownloaderService) (u : string) : bool :=
  match downloaders with
  | [] => false
  | downloader :: rest =>
      if Downloader.can_handle downloader u then true else can_handle rest u
  end.

Fixpoint _get_handler (downloaders : list DownloaderService) (u : string)
    : option DownloaderService :=
  match downloaders with
  | [] => None
  | downloader :: rest =>
      if Downloader.can_handle downloader u then Some downloader
      else _get_handler rest u
  end.

Definition no_handler (u : string) : exception :=
  UnsupportedUrlError ("No handler found for URL: " +:+ u).

Definition extract_media_info (downloaders : list DownloaderService) (u : string)
    : result (gmap string json) :=
  match _get_handler downloaders u with
  | None => Raise (no_handler u)
  | Some handler => Downloader.extract_media_info handler u
  end.

Definition download_media (downloaders : list DownloaderService)
    (request : Request.DownloadRequest) : result (list string) :=
  match _get_handler downloaders (Request.url request) with
  | None => Raise (no_handler (Request.url request))
  | Some handler => Downloader.download_media handler request
  end.

Definition get_media_metadata (downloaders : list DownloaderService) (u : string)
    : result (option (gmap string json)) :=
  match _get_handler downloaders u with
  | None => Ok None
  | Some handler => Downloader.get_media_metadata handler u
  end.

Definition validate_url (downloaders : list DownloaderService) (u : string)
    : result bool :=
  match _get_handler downloaders u with
  | None => Ok false
  | Some handler => Downloader.validate_url handler u
  end.

(** [handler.__class__.__name__] of the adapter [_get_handler] resolves. *)
Definition resolved_class (downloaders : list DownloaderService) (u : string)
    : option string :=
  class_name <$> _get_handler downloaders u.

(** infrastructure/container.py registers the two adapters in this order. *)
Definition registered (net : network) : list DownloaderService :=
  [InstagramDownloaderService net; TikTokDownloaderService net].

(** [self.downloaders.append(downloader)] *)
Definition add_downloader (downloaders : list DownloaderService)
    (downloader : DownloaderService) : list DownloaderService :=
  (downloaders ++ [downloader])%list.

Definition get_downloader_count (downloaders : list DownloaderService) : nat :=
  List.length downloaders.

(** [platforms[0] if platforms else None] of the resolved handler. *)
Definition get_platform_for_url (downloaders : list DownloaderService)
    (u : string) : option string :=
  match _get_handler downloaders u with
  | None => None
  | Some handler => head (get_supported_platforms handler)
  end.

End CompositeDownloaderService.

(* ===================================================================== *)
(** ** infrastructure/repositories/json_download_request_repository.py    *)
(* ===================================================================== *)

Module JsonDownloadRequestRepository.

(** The file holds a JSON array of objects. *)
Abbreviation store := (file (list (gmap string json))).

(** [DownloadStatus.COMPLETED.value] and the others. *)
Definition status_value (s : Request.DownloadStatus) : string :=
  match s with
  | Request.PENDING => "pending"
  | Request.PROCESSING => "processing"
  | Request.COMPLETED => "completed"
  | Request.FAILED => "failed"
  | Request.CANCELLED => "cancelled"
  end.

(** [if error_message:] on an [Optional[str]] *)
Definition nonempty (o : option string) : option string :=
  match o with
  | Some s => if String.eqb s "" then None else Some s
  | None => None
  end.

Definition sets_completed_at (status : string) : bool :=
  String.eqb status (status_value Request.COMPLETED)
  || String.eqb status (status_value Request.FAILED)
  || String.eqb status (status_value Request.CANCELLED).

Definition sets_started_at (status : string) : bool :=
  negb (sets_completed_at status)
  && String.eqb status (status_value Request.PROCESSING).

(** The body of the [if request_dict["id"] == request_id:] branch of
    [update_status], up to the write. *)
Definition set_status (now : Z) (status : string) (error_message : option string)
    (request_dict : gmap string json) : gmap string json :=
  let d1 := <["status" := JStr status]> request_dict in
  let d2 := match nonempty error_message with
            | Some msg => <["error_message" := JStr msg]> d1
            | None => d1
            end in
  if sets_completed_at status then <["completed_at" := JTime now]> d2
  else if String.eqb status (status_value Request.PROCESSING)
       then <["started_at" := JTime now]> d2
       else d2.

(** The [for request_dict in data] loop of [update_status]: the array with
    the first matching object updated, or [None] when the loop falls
    through.  [request_dict["id"]] raises [KeyError] on an object without
    that key. *)
Fixpoint update_first (now : Z) (request_id status : string)
    (error_message : option string) (data : list (gmap string json))
    : result (option (list (gmap string json))) :=
  match data with
  | [] => Ok None
  | request_dict :: rest =>
      match request_dict !! "id" with
      | None => Raise (KeyError "'id'")
      | Some v =>
          if json_eq_str v request_id
          then Ok (Some (set_status now status error_message request_dict :: rest))
          else
            match update_first now request_id status error_message rest with
            | Ok (Some rest') => Ok (Some (request_dict :: rest'))
            | Ok None => Ok None
            | Raise e => Raise e
            end
      end
  end.

Definition _read_data (f : store) : list (gmap string json) * store :=
  read_data [] f.

Definition update_status (now : Z) (request_id status : string)
    (error_message : option string) (f : store) : result bool * store :=
  let data := fst (_read_data f) in
  let f := snd (_read_data f) in
  match update_first now request_id status error_message data with
  | Ok (Some data) => (Ok true, write_data data f)
  | Ok None => (Ok false, f)
  | Raise e =>
      (Raise (RepositoryError
                ("Failed to update request status: " +:+ str_of_exception e)), f)
  end.

(** The keys [update_status] may write for a given status and message. *)
Definition written_keys (status : string) (error_message : option string)
    : list string :=
  ["status"]
  ++ (if nonempty error_message is Some _ then ["error_message"] else [])
  ++ (if sets_completed_at status then ["completed_at"] else [])
  ++ (if sets_started_at status then ["started_at"] else []).

(** Python's truth value of a JSON value. *)
Definition truthy (v : json) : bool :=
  match v with
  | JNull => false
  | JBool b => b
  | JInt z => negb (z =? 0)
  | JFloat z => negb (z =? 0)
  | JStr s => negb (String.eqb s "")
  | JTime _ => true
  | JArr l => match l with [] => false | _ :: _ => true end
  | JObj m => negb (bool_decide (m = ∅))
  end.

(** [datetime.fromisoformat(v)] *)
Definition fromisoformat (v : json) : result Z :=
  match v with
  | JTime t => Ok t
  | JStr _ => Raise (ValueError "Invalid isoformat string")
  | _ => Raise (TypeError "fromisoformat: argument must be str")
  end.

(** [Platform(v)]: the member with that value. *)
Definition platform_of_value (v : json) : result Request.Platform :=
  if json_eq_str v "instagram" then Ok Request.INSTAGRAM
  else if json_eq_str v "tiktok" then Ok Request.TIKTOK
  else Raise (ValueError "not a valid Platform").

(** [DownloadStatus(v)] *)
Definition status_of_value (v : json) : result Request.DownloadStatus :=
  if json_eq_str v "pending" then Ok Request.PENDING
  else if json_eq_str v "processing" then Ok Request.PROCESSING
  else if json_eq_str v "completed" then Ok Request.COMPLETED
  else if json_eq_str v "failed" then Ok Request.FAILED
  else if json_eq_str v "cancelled" then Ok Request.CANCELLED
  else Raise (ValueError "not a valid DownloadStatus").

(** [request.platform.value if request.platform else None]: a non-empty
    [str] in the attribute has no [value]. *)
Definition platform_value (p : option Request.platform_attr) : result json :=
  match p with
  | None => Ok JNull
  | Some (Request.PlatformEnum Request.INSTAGRAM) => Ok (JStr "instagram")
  | Some (Request.PlatformEnum Request.TIKTOK) => Ok (JStr "tiktok")
  | Some (Request.PlatformStr s) =>
      if String.eqb s "" then Ok JNull
      else Raise (AttributeError "'str' object has no attribute 'value'")
  end.

Definition _request_to_dict (request : Request.DownloadRequest)
    : result (gmap string json) :=
  match platform_value (Request.platform request) with
  | Raise e => Raise e
  | Ok plat =>
      Ok (<["id" := JStr (Request.id request)]>
         (<["user_id" := JInt (Request.user_id request)]>
         (<["url" := JStr (Request.url request)]>
         (<["platform" := plat]>
         (<["status" := JStr (status_value (Request.status request))]>
         (<["created_at" := json_option JTime (Request.created_at request)]>
         (<["started_at" := json_option JTime (Request.started_at request)]>
         (<["completed_at" := json_option JTime (Request.completed_at request)]>
         (<["error_message" := json_option JStr (Request.error_message request)]>
         (<["retry_count" := JInt (Request.retry_count request)]>
         (<["max_retries" := JInt (Request.max_retries request)]>
         (<["media_files" := JArr (JStr <$> Request.media_files request)]>
         (<["metadata" := JObj (Request.metadata request)]>
         (<["total_size" := json_option JInt (Request.total_size request)]>
         (<["processing_time" :=
              json_option JFloat (Request.processing_time request)]> ∅)))))))))))))))
  end.

(** Reading a JSON value into a field of the typed record.  Python keeps
    whatever value it finds, unchecked; the record cannot hold a value
    outside the field's annotation, and the model stops there with
    [ill_typed].  No object written by [_request_to_dict] gets there. *)
Definition ill_typed : exception :=
  TypeError "value outside the annotation of the field".

Definition as_str (v : json) : result string :=
  match v with JStr s => Ok s | _ => Raise ill_typed end.

Definition as_int (v : json) : result Z :=
  match v with JInt z => Ok z | _ => Raise ill_typed end.

Definition as_optional {A} (conv : json -> result A) (v : option json)
    : result (option A) :=
  match v with
  | None | Some JNull => Ok None
  | Some v' => match conv v' with Ok a => Ok (Some a) | Raise e => Raise e end
  end.

Definition as_float (v : json) : result Z :=
  match v with JFloat z => Ok z | _ => Raise ill_typed end.

Fixpoint as_str_list (l : list json) : result (list string) :=
  match l with
  | [] => Ok []
  | v :: rest =>
      match as_str v, as_str_list rest with
      | Ok s, Ok ss => Ok (s :: ss)
      | Raise e, _ => Raise e
      | _, Raise e => Raise e
      end
  end.

Definition as_files (v : json) : result (list string) :=
  match v with JArr l => as_str_list l | _ => Raise ill_typed end.

Definition as_dict (v : json) : result (gmap string json) :=
  match v with JObj m => Ok m | _ => Raise ill_typed end.

(** [data[key]] *)
Definition getitem (data : gmap string json) (key : string) : result json :=
  match data !! key with
  | Some v => Ok v
  | None => Raise (KeyError ("'" +:+ key +:+ "'"))
  end.

(** [f(data[key]) if data.get(key) else None] *)
Definition if_truthy {A} (conv : json -> result A) (data : gmap string json)
    (key : string) : result (option A) :=
  match data !! key with
  | Some v =>
      if truthy v
      then match conv v with Ok a => Ok (Some a) | Raise e => Raise e end
      else Ok None
  | None => Ok None
  end.

(** [data.get(key, d)] read into a field. *)
Definition get_or {A} (conv : json -> result A) (d : A)
    (data : gmap string json) (key : string) : result A :=
  match data !! key with
  | Some v => conv v
  | None => Ok d
  end.

(** [_dict_to_request]: the arguments are evaluated in the order written,
    then the dataclass runs [__post_init__]; [now] is its clock. *)
Definition _dict_to_request (now : Z) (data : gmap string json)
    : result Request.DownloadRequest :=
  i ← getitem data "id" ≫= as_str;
  uid ← getitem data "user_id" ≫= as_int;
  u ← getitem data "url" ≫= as_str;
  plat ← if_truthy platform_of_value data "platform";
  st ← getitem data "status" ≫= status_of_value;
  created ← if_truthy fromisoformat data "created_at";
  started ← if_truthy fromisoformat data "started_at";
  completed ← if_truthy fromisoformat data "completed_at";
  err ← as_optional as_str (data !! "error_message");
  retries ← get_or as_int 0 data "retry_count";
  max_r ← get_or as_int 3 data "max_retries";
  files ← get_or as_files [] data "media_files";
  meta ← get_or as_dict ∅ data "metadata";
  size ← as_optional as_int (data !! "total_size");
  pt ← as_optional as_float (data !! "processing_time");
  Ok (Request.post_init now
        {| Request.id := i; Request.user_id := uid; Request.url := u;
           Request.platform := Request.PlatformEnum <$> plat;
           Request.status := st;
           Request.created_at := created; Request.started_at := started;
           Request.completed_at := completed;
           Request.error_message := err;
           Request.retry_count := retries; Request.max_retries := max_r;
           Request.media_files := files; Request.metadata := meta;
           Request.total_size := size; Request.processing_time := pt |}).

(** The [for i, existing in enumerate(data) ... else: data.append(...)] of
    [save]: the first object with the id is replaced, or the new object is
    appended. *)
Fixpoint upsert (request_id : string) (request_dict : gmap string json)
    (data : list (gmap string json)) : result (list (gmap string json)) :=
  match data with
  | [] => Ok [request_dict]
  | existing :: rest =>
      match existing !! "id" with
      | None => Raise (KeyError "'id'")
      | Some v =>
          if json_eq_str v request_id then Ok (request_dict :: rest)
          else match upsert request_id request_dict rest with
               | Ok rest' => Ok (existing :: rest')
               | Raise e => Raise e
               end
      end
  end.

Definition save (request : Request.DownloadRequest) (f : store)
    : result Request.DownloadRequest * store :=
  let data := fst (_read_data f) in
  let f := snd (_read_data f) in
  match request_dict ← _request_to_dict request;
        upsert (Request.id request) request_dict data with
  | Ok data => (Ok request, write_data data f)
  | Raise e =>
      (Raise (RepositoryError
                ("Failed to save download request: " +:+ str_of_exception e)), f)
  end.

(** The loop of [get_by_id]: the first object with the id, converted. *)
Fixpoint find_request (now : Z) (request_id : string)
    (data : list (gmap string json)) : result (option Request.DownloadRequest) :=
  match data with
  | [] => Ok None
  | request_dict :: rest =>
      match request_dict !! "id" with
      | None => Raise (KeyError "'id'")
      | Some v =>
          if json_eq_str v request_id
          then match _dict_to_request now request_dict with
               | Ok r => Ok (Some r)
               | Raise e => Raise e
               end
          else find_request now request_id rest
      end
  end.

Definition get_by_id (now : Z) (request_id : string) (f : store)
    : result (option Request.DownloadRequest) * store :=
  let data := fst (_read_data f) in
  let f := snd (_read_data f) in
  match find_request now request_id data with
  | Ok r => (Ok r, f)
  | Raise e =>
      (Raise (RepositoryError
                ("Failed to get download request: " +:+ str_of_exception e)), f)
  end.

(** [timedelta(days=n)] *)
Definition days_delta (n : Z) : Z := n * 86400000000.

(** [status in [PENDING.value, PROCESSING.value]] for [request_dict.get("status")] *)
Definition in_progress (request_dict : gmap string json) : bool :=
  match request_dict !! "status" with
  | Some v => json_eq_str v (status_value Request.PENDING)
              || json_eq_str v (status_value Request.PROCESSING)
  | None => false
  end.

(** The filtering loop of [delete_old_requests].  [clock i] is what
    [datetime.now()] reads while the object at index [i] is looked at (it
    is read only for an object without a creation time). *)
Fixpoint keep_recent (cutoff : Z) (clock : nat -> Z) (i : nat)
    (data : list (gmap string json)) : result (list (gmap string json)) :=
  match data with
  | [] => Ok []
  | request_dict :: rest =>
      match if_truthy fromisoformat request_dict "created_at" with
      | Raise e => Raise e
      | Ok created =>
          let created_at := default (clock i) created in
          match keep_recent cutoff clock (S i) rest with
          | Raise e => Raise e
          | Ok rest' =>
              if (cutoff <=? created_at) || in_progress request_dict
              then Ok (request_dict :: rest')
              else Ok rest'
          end
      end
  end.

Definition delete_old_requests (now : Z) (clock : nat -> Z) (days : Z)
    (f : store) : result nat * store :=
  let cutoff_date := now - days_delta days in
  let data := fst (_read_data f) in
  let f := snd (_read_data f) in
  match keep_recent cutoff_date clock 0 data with
  | Ok filtered_data =>
      let deleted_count := (List.length data - List.length filtered_data)%nat in
      if (0 <? deleted_count)%nat
      then (Ok deleted_count, write_data filtered_data f)
      else (Ok deleted_count, f)
  | Raise e =>
      (Raise (RepositoryError
                ("Failed to delete old requests: " +:+ str_of_exception e)), f)
  end.

(** The array the repository reads from the file. *)
Definition stored (f : store) : list (gmap string json) := fst (_read_data f).

(** A stored request that is being processed. *)
Definition sample_request : gmap string json :=
  <["id" := JStr "r1"]>
  (<["status" := JStr "processing"]>
  (<["started_at" := JTime 5]>
  (<["completed_at" := JNull]>
  (<["processing_time" := JNull]> ∅)))).

End JsonDownloadRequestRepository.

(* ===================================================================== *)
(** ** domain/entities/analytics.py and
       infrastructure/repositories/json_analytics_repository.py           *)
(* ===================================================================== *)

Module Analytics.

Inductive AnalyticsEventType :=
| DOWNLOAD_START | DOWNLOAD_SUCCESS | DOWNLOAD_FAILED
| USER_JOINED | USER_BANNED | COMMAND_USED | ERROR_OCCURRED.

Definition event_value (e : AnalyticsEventType) : string :=
  match e with
  | DOWNLOAD_START => "download_start"
  | DOWNLOAD_SUCCESS => "download_success"
  | DOWNLOAD_FAILED => "download_failed"
  | USER_JOINED => "user_joined"
  | USER_BANNED => "user_banned"
  | COMMAND_USED => "command_used"
  | ERROR_OCCURRED => "error_occurred"
  end.

Record Analytics := mkAnalytics {
  id : string;
  user_id : Z;
  event_type : AnalyticsEventType;
  platform : option string;
  media_type : option string;
  url : option string;
  file_size : option Z;
  processing_time : option Z;
  success : bool;
  error_message : option string;
  metadata : option (gmap string json);
  created_at : option Z
}.

(** A keyword argument of a call [Analytics(...)]: one of the dataclass
    fields, or a name the dataclass does not have. *)
Inductive kwarg :=
| Kid (v : string)
| Kuser_id (v : Z)
| Kevent_type (v : AnalyticsEventType)
| Kplatform (v : option string)
| Kmedia_type (v : option string)
| Kurl (v : option string)
| Kfile_size (v : option Z)
| Kprocessing_time (v : option Z)
| Ksuccess (v : bool)
| Kerror_message (v : option string)
| Kmetadata (v : option (gmap string json))
| Kcreated_at (v : option Z)
| Kother (name : string) (v : json).

(** The fields while the generated [__init__] binds its arguments: the
    three fields without default are still unbound at the start. *)
Record partial := {
  p_id : option string;
  p_user_id : option Z;
  p_event_type : option AnalyticsEventType;
  p_rest : Analytics
}.

Definition unbound : partial := {|
  p_id := None; p_user_id := None; p_event_type := None;
  p_rest := {| id := ""; user_id := 0; event_type := DOWNLOAD_START;
               platform := None; media_type := None; url := None;
               file_size := None; processing_time := None; success := true;
               error_message := None; metadata := None; created_at := None |}
|}.

Definition set_rest (f : Analytics -> Analytics) (p : partial) : partial :=
  {| p_id := p_id p; p_user_id := p_user_id p;
     p_event_type := p_event_type p; p_rest := f (p_rest p) |}.

Definition bind_kwarg (p : partial) (k : kwarg) : result partial :=
  let a := p_rest p in
  match k with
  | Kid v => Ok {| p_id := Some v; p_user_id := p_user_id p;
                   p_event_type := p_event_type p; p_rest := a |}
  | Kuser_id v => Ok {| p_id := p_id p; p_user_id := Some v;
                        p_event_type := p_event_type p; p_rest := a |}
  | Kevent_type v => Ok {| p_id := p_id p; p_user_id := p_user_id p;
                           p_event_type := Some v; p_rest := a |}
  | Kplatform v => Ok (set_rest (fun a =>
      mkAnalytics (id a) (user_id a) (event_type a) v (media_type a) (url a)
        (file_size a) (processing_time a) (success a) (error_message a)
        (metadata a) (created_at a)) p)
  | Kmedia_type v => Ok (set_rest (fun a =>
      mkAnalytics (id a) (user_id a) (event_type a) (platform a) v (url a)
        (file_size a) (processing_time a) (success a) (error_message a)
        (metadata a) (created_at a)) p)
  | Kurl v => Ok (set_rest (fun a =>
      mkAnalytics (id a) (user_id a) (event_type a) (platform a) (media_type a) v
        (file_size a) (processing_time a) (success a) (error_message a)
        (metadata a) (created_at a)) p)
  | Kfile_size v => Ok (set_rest (fun a =>
      mkAnalytics (id a) (user_id a) (event_type a) (platform a) (media_type a)
        (url a) v (processing_time a) (success a) (error_message a)
        (metadata a) (created_at a)) p)
  | Kprocessing_time v => Ok (set_rest (fun a =>
      mkAnalytics (id a) (user_id a) (event_type a) (platform a) (media_type a)
        (url a) (file_size a) v (success a) (error_message a)
        (metadata a) (created_at a)) p)
  | Ksuccess v => Ok (set_rest (fun a =>
      mkAnalytics (id a) (user_id a) (event_type a) (platform a) (media_type a)
        (url a) (file_size a) (processing_time a) v (error_message a)
        (metadata a) (created_at a)) p)
  | Kerror_message v => Ok (set_rest (fun a =>
      mkAnalytics (id a) (user_id a) (event_type a) (platform a) (media_type a)
        (url a) (file_size a) (processing_time a) (success a) v
        (metadata a) (created_at a)) p)
  | Kmetadata v => Ok (set_rest (fun a =>
      mkAnalytics (id a) (user_id a) (event_type a) (platform a) (media_type a)
        (url a) (file_size a) (processing_time a) (success a) (error_message a)
        v (created_at a)) p)
  | Kcreated_at v => Ok (set_rest (fun a =>
      mkAnalytics (id a) (user_id a) (event_type a) (platform a) (media_type a)
        (url a) (file_size a) (processing_time a) (success a) (error_message a)
        (metadata a) v) p)
  | Kother name _ =>
      Raise (TypeError ("Analytics.__init__() got an unexpected keyword argument '"
                        +:+ name +:+ "'"))
  end.

Fixpoint bind_kwargs (p : partial) (ks : list kwarg) : result partial :=
  match ks with
  | [] => Ok p
  | k :: ks' =>
      match bind_kwarg p k with
      | Ok p' => bind_kwargs p' ks'
      | Raise e => Raise e
      end
  end.

(** [__post_init__] *)
Definition post_init (now : Z) (a : Analytics) : Analytics :=
  mkAnalytics (id a) (user_id a) (event_type a) (platform a) (media_type a)
    (url a) (file_size a) (processing_time a) (success a) (error_message a)
    (Some (default ∅ (metadata a)))
    (Some (default now (created_at a))).

(** The generated [__init__] of [Analytics(...)] called with keyword
    arguments, before [__post_init__] runs: a name the class does not have,
    or a required field left out, is a [TypeError]. *)
Definition init_fields (ks : list kwarg) : result Analytics :=
  match bind_kwargs unbound ks with
  | Raise e => Raise e
  | Ok p =>
      match p_id p, p_user_id p, p_event_type p with
      | Some i, Some u, Some e =>
          let a := p_rest p in
          Ok (mkAnalytics i u e (platform a) (media_type a) (url a)
                (file_size a) (processing_time a) (success a)
                (error_message a) (metadata a) (created_at a))
      | _, _, _ =>
          Raise (TypeError "Analytics.__init__() missing required positional arguments")
      end
  end.

End Analytics.

Module JsonAnalyticsRepository.

Import Analytics.

Abbreviation store := (file (list (gmap string json))).

Definition _analytics_to_dict (a : Analytics) : gmap string json :=
  <["id" := JStr (id a)]>
  (<["user_id" := JInt (user_id a)]>
  (<["event_type" := JStr (event_value (event_type a))]>
  (<["platform" := json_option JStr (platform a)]>
  (<["media_type" := json_option JStr (media_type a)]>
  (<["url" := json_option JStr (url a)]>
  (<["file_size" := json_option JInt (file_size a)]>
  (<["processing_time" := json_option JFloat (processing_time a)]>
  (<["success" := JBool (success a)]>
  (<["error_message" := json_option JStr (error_message a)]>
  (<["metadata" := json_option JObj (metadata a)]>
  (<["created_at" := json_option JTime (created_at a)]> ∅))))))))))).

Definition _read_data (f : store) : list (gmap string json) * store :=
  read_data [] f.

(** The array the repository reads from the file. *)
Definition stored (f : store) : list (gmap string json) := fst (_read_data f).

(** [save]: read, append, write back, return the entity. *)
Definition save (a : Analytics) (f : store) : result Analytics * store :=
  let data := fst (_read_data f) in
  let f := snd (_read_data f) in
  let analytics_dict := _analytics_to_dict a in
  let data := (data ++ [analytics_dict])%list in
  (Ok a, write_data data f).

(** [record.get("event_type") in ["download_success", "download_failed"]] *)
Definition is_download (record : gmap string json) : bool :=
  match record !! "event_type" with
  | Some v => json_eq_str v "download_success" || json_eq_str v "download_failed"
  | None => false
  end.

Definition get_total_downloads (f : store) : result nat * store :=
  let data := fst (_read_data f) in
  let f := snd (_read_data f) in
  (Ok (List.length (List.filter is_download data)), f).

End JsonAnalyticsRepository.

(* ===================================================================== *)
(** ** infrastructure/external_services/json_rate_limiter_service.py      *)
(* ===================================================================== *)

Module JsonRateLimiterService.

(** The JSON object the service keeps, typed by what the service itself
    writes: one entry per user key, holding the per-action counters under
    the keys ["action_<name>"], and the optional keys ["custom_limits"] and
    ["blocked_until"]. *)
Record limit_config := {
  requests : Z;
  period_seconds : Z
}.

Record action_data := {
  used : Z;
  reset_time : Z
}.

(** ["permanent"], or the ISO text of the instant a block ends. *)
Inductive block := Permanent | Until (t : Z).

Record user_data := {
  actions : gmap string action_data;
  custom_limits : option (gmap string limit_config);
  blocked_until : option block
}.

Abbreviation store := (file (gmap string user_data)).

(** The empty object [{}]. *)
Definition no_data : user_data :=
  {| actions := ∅; custom_limits := None; blocked_until := None |}.

(** [timedelta(seconds=n)] *)
Definition seconds (n : Z) : Z := n * 1000000.

Definition _read_data (f : store) : gmap string user_data * store :=
  read_data ∅ f.

(** The object the service reads from the file. *)
Definition stored (f : store) : gmap string user_data := fst (_read_data f).

Definition _get_user_key (user_id : Z) : string := "user_" +:+ pretty user_id.

Definition _get_action_key (action : string) : string := "action_" +:+ action.

Section Service.

Variable settings : Settings.

(** [self.default_limits] *)
Definition default_limits : gmap string limit_config :=
  <["download" := {| requests := DOWNLOAD_RATE_LIMIT settings;
                     period_seconds := DOWNLOAD_RATE_PERIOD settings |}]>
  (<["message" := {| requests := RATE_LIMIT_REQUESTS settings;
                     period_seconds := RATE_LIMIT_PERIOD settings |}]> ∅).

(** The "Get limit configuration" block repeated in three methods. *)
Definition get_limit_config (ud : user_data) (action : string) : limit_config :=
  let custom := default ∅ (custom_limits ud) in
  match custom !! action with
  | Some limit => limit
  | None =>
      default {| requests := 10; period_seconds := 60 |}
              (default_limits !! action)
  end.

(** The three queries below only read: each is given the object
    [_read_data] returned, see [stored]. *)
Definition is_user_blocked (now : Z) (user_id : Z)
    (data : gmap string user_data) : bool :=
  let ud := default no_data (data !! _get_user_key user_id) in
  match blocked_until ud with
  | None => false
  | Some Permanent => true
  | Some (Until block_time) => now <? block_time
  end.

(** [now_block] is the clock read inside [is_user_blocked], [now] the one
    read afterwards. *)
Definition is_rate_limited (now_block now : Z) (user_id : Z) (action : string)
    (data : gmap string user_data) : bool :=
  if is_user_blocked now_block user_id data then true
  else
    let ud := default no_data (data !! _get_user_key user_id) in
    match actions ud !! _get_action_key action with
    | None => false
    | Some ad =>
        let limit := get_limit_config ud action in
        if reset_time ad <=? now then false
        else requests limit <=? used ad
    end.

(** The dict [get_rate_limit_info] returns. *)
Record rate_limit_info := {
  remaining : Z;
  info_reset_time : Z;
  total_limit : Z;
  info_used : Z;
  info_period_seconds : Z
}.

(** [get_rate_limit_info], the [try] block.  The end of a new window,
    [current_time + timedelta(seconds=...)], is computed exactly.  Where
    that sum is no [datetime] ([datetime_add] raises) Python raises
    [OverflowError] and the method returns the dict of its [except] branch
    instead; that branch is left out here, so the definition is exact
    wherever the window is open or its new end is a [datetime]. *)
Definition get_rate_limit_info (now : Z) (user_id : Z) (action : string)
    (data : gmap string user_data) : rate_limit_info :=
  let ud := default no_data (data !! _get_user_key user_id) in
  let ad := actions ud !! _get_action_key action in
  let limit := get_limit_config ud action in
  let reset := default now (reset_time <$> ad) in
  let used_requests := default 0 (used <$> ad) in
  let total := requests limit in
  let expired := reset <=? now in
  let used_requests := if expired then 0 else used_requests in
  let reset := if expired then now + seconds (period_seconds limit) else reset in
  {| remaining := Z.max 0 (total - used_requests);
     info_reset_time := reset;
     total_limit := total;
     info_used := used_requests;
     info_period_seconds := period_seconds limit |}.

(** [increment_usage], the [try] block.  As in [get_rate_limit_info] the
    end of a new window is computed exactly; where it is no [datetime] the
    method returns False from its [except] branch without writing, which is
    left out here. *)
Definition increment_usage (now : Z) (user_id : Z) (action : string)
    (f : store) : bool * store :=
  let data := fst (_read_data f) in
  let f := snd (_read_data f) in
  let user_key := _get_user_key user_id in
  let action_key := _get_action_key action in
  let ud := default no_data (data !! user_key) in
  let limit := get_limit_config ud action in
  let ad :=
    match actions ud !! action_key with
    | Some ad => ad
    | None => {| used := 0;
                 reset_time := now + seconds (period_seconds limit) |}
    end in
  let ad :=
    if reset_time ad <=? now
    then {| used := 0; reset_time := now + seconds (period_seconds limit) |}
    else ad in
  let ad := {| used := used ad + 1; reset_time := reset_time ad |} in
  let ud := {| actions := <[action_key := ad]> (actions ud);
               custom_limits := custom_limits ud;
               blocked_until := blocked_until ud |} in
  (true, write_data (<[user_key := ud]> data) f).

Definition reset_user_limits (user_id : Z) (f : store) : bool * store :=
  let data := fst (_read_data f) in
  let f := snd (_read_data f) in
  let user_key := _get_user_key user_id in
  match data !! user_key with
  | Some ud =>
      let fresh := {| actions := ∅;
                      custom_limits := Some (default ∅ (custom_limits ud));
                      blocked_until := blocked_until ud |} in
      (true, write_data (<[user_key := fresh]> data) f)
  | None => (true, f)
  end.

Definition unblock_user (user_id : Z) (f : store) : bool * store :=
  let data := fst (_read_data f) in
  let f := snd (_read_data f) in
  let user_key := _get_user_key user_id in
  match data !! user_key with
  | Some ud =>
      match blocked_until ud with
      | Some _ =>
          let ud := {| actions := actions ud;
                       custom_limits := custom_limits ud;
                       blocked_until := None |} in
          (true, write_data (<[user_key := ud]> data) f)
      | None => (true, f)
      end
  | None => (true, f)
  end.

(** [increment_usage] once at each of the given clock readings, in order. *)
Definition increment_at (user_id : Z) (action : string) (times : list Z)
    (f : store) : store :=
  fold_left (fun f now => snd (increment_usage now user_id action f)) times f.

(** [data.get(user_key, {})]: the entry the queries look at. *)
Definition entry (user_id : Z) (data : gmap string user_data) : user_data :=
  default no_data (data !! _get_user_key user_id).

(** A counter as the queries use it at time [now]: it counts only while
    its window is open ([current_time >= reset_time] discards it). *)
Definition open_window (now : Z) (ad : action_data) : option action_data :=
  if reset_time ad <=? now then None else Some ad.

(** [timedelta(hours=n)] *)
Definition hours (n : Z) : Z := n * 3600000000.

Definition set_custom_limit (user_id : Z) (action : string) (limit period : Z)
    (f : store) : bool * store :=
  let data := fst (_read_data f) in
  let f := snd (_read_data f) in
  let user_key := _get_user_key user_id in
  let ud := default no_data (data !! user_key) in
  let custom := default ∅ (custom_limits ud) in
  let ud := {| actions := actions ud;
               custom_limits :=
                 Some (<[action := {| requests := limit;
                                      period_seconds := period |}]> custom);
               blocked_until := blocked_until ud |} in
  (true, write_data (<[user_key := ud]> data) f).

(** [now_info] is the clock read inside [get_rate_limit_info], [now] the
    one read afterwards.  The result is a timedelta. *)
Definition get_time_until_reset (now_info now : Z) (user_id : Z)
    (action : string) (data : gmap string user_data) : option Z :=
  let rate_info := get_rate_limit_info now_info user_id action data in
  let reset := info_reset_time rate_info in
  if now <? reset then Some (reset - now) else Some 0.

(** What [block_user] stores under ["blocked_until"]: ["permanent"] when
    [duration_hours] is [None], else
    [datetime.now() + timedelta(hours=duration_hours)]. *)
Definition block_end (now : Z) (duration_hours : option Z) : result block :=
  match duration_hours with
  | None => Ok Permanent
  | Some h =>
      match datetime_add now (hours h) with
      | Ok block_until => Ok (Until block_until)
      | Raise e => Raise e
      end
  end.

(** [block_user]: when the end of the block cannot be computed the
    [except] branch returns False, after the read and before any write. *)
Definition block_user (now : Z) (user_id : Z) (duration_hours : option Z)
    (f : store) : bool * store :=
  let data := fst (_read_data f) in
  let f := snd (_read_data f) in
  let user_key := _get_user_key user_id in
  let ud := default no_data (data !! user_key) in
  match block_end now duration_hours with
  | Ok until =>
      let ud := {| actions := actions ud;
                   custom_limits := custom_limits ud;
                   blocked_until := Some until |} in
      (true, write_data (<[user_key := ud]> data) f)
  | Raise _ => (false, f)
  end.

(** [cleanup_expired_limits], one user entry at a time.  An action entry
    goes when its key starts with ["action_"] and its window has closed. *)
Definition action_expired (now : Z) (entry : string * action_data) : bool :=
  starts_with "action_" (fst entry) && (reset_time (snd entry) <=? now).

Definition live_actions (now : Z) (acts : gmap string action_data)
    : gmap string action_data :=
  filter (fun entry => action_expired now entry = false) acts.

(** A temporary block goes when it has ended; a permanent one stays. *)
Definition live_block (now : Z) (b : option block) : option block :=
  match b with
  | Some (Until block_time) => if block_time <=? now then None else b
  | _ => b
  end.

(** [not user_data or (len(user_data) == 1 and "custom_limits" in user_data
    and not user_data["custom_limits"])] *)
Definition entry_is_empty (ud : user_data) : bool :=
  bool_decide (actions ud = ∅)
  && match blocked_until ud with
     | Some _ => false
     | None =>
         match custom_limits ud with
         | None => true
         | Some custom => bool_decide (custom = ∅)
         end
     end.

(** The entry after the clean-up ([None] when the entry itself is deleted),
    and how many deletions were counted. *)
Definition clean_user (now : Z) (ud : user_data) : option user_data * nat :=
  let acts := live_actions now (actions ud) in
  let removed_actions := (size (actions ud) - size acts)%nat in
  let blk := live_block now (blocked_until ud) in
  let removed_block :=
    match blocked_until ud, blk with
    | Some _, None => 1%nat
    | _, _ => 0%nat
    end in
  let ud' := {| actions := acts;
                custom_limits := custom_limits ud;
                blocked_until := blk |} in
  if entry_is_empty ud'
  then (None, S (removed_actions + removed_block))
  else (Some ud', (removed_actions + removed_block)%nat).

Definition cleanup_expired_limits (now : Z) (f : store) : nat * store :=
  let data := fst (_read_data f) in
  let f := snd (_read_data f) in
  let cleaned_count :=
    map_fold (fun _ ud n => (n + snd (clean_user now ud))%nat) 0%nat data in
  let data' := omap (fun ud => fst (clean_user now ud)) data in
  if (0 <? cleaned_count)%nat
  then (cleaned_count, write_data data' f)
  else (cleaned_count, f).

End Service.

End JsonRateLimiterService.

(* ===================================================================== *)
(** ** infrastructure/external_services/json_translation_service.py       *)
(* ===================================================================== *)

(** Python's [template.format(...)] called with keyword arguments only,
    each of them a [str], for templates whose replacement fields are plain
    names: [{name}], with [{{] and [}}] for the braces themselves. *)
Module Format.

Definition IndexError (msg : string) : exception := OtherError "IndexError" msg.

Fixpoint keyword (kwargs : list (string * string)) (name : string)
    : option string :=
  match kwargs with
  | [] => None
  | (k, v) :: rest => if String.eqb k name then Some v else keyword rest name
  end.

(** The number a field name of decimal digits stands for; [None] for a name
    that is not all digits, [Raise] for more digits than an index holds. *)
Fixpoint get_integer (name : string) (accumulator : Z) : option (result Z) :=
  match name with
  | EmptyString => Some (Ok accumulator)
  | String c name' =>
      if Re.digit c then
        let digitval := Z.of_N (N_of_ascii c) - 48 in
        if (9223372036854775807 - digitval) / 10 <? accumulator
        then Some (Raise (ValueError "Too many decimal digits in format string"))
        else get_integer name' (accumulator * 10 + digitval)
      else None
  end.

(** The value of the field [{name}].  An empty name or a number asks for a
    positional argument, and there is none. *)
Definition get_field (kwargs : list (string * string)) (name : string)
    : result string :=
  match get_integer name 0 with
  | Some (Ok index) =>
      Raise (IndexError ("Replacement index " +:+ pretty index
                         +:+ " out of range for positional args tuple"))
  | Some (Raise e) => Raise e
  | None =>
      match keyword kwargs name with
      | Some v => Ok v
      | None => Raise (KeyError ("'" +:+ name +:+ "'"))
      end
  end.

(** The characters that start a conversion, a format specification, an
    attribute or an index. *)
Definition starts_more (c : ascii) : bool :=
  Ascii.eqb c "!" || Ascii.eqb c ":" || Ascii.eqb c "." || Ascii.eqb c "[".

Definition emit (c : ascii) (rest : option (result string))
    : option (result string) :=
  match rest with
  | Some (Ok text) => Some (Ok (String c text))
  | other => other
  end.

(** The template is read from left to right, so the first error met is the
    one raised.  [field] is [None] in literal text and the name read so far
    inside a replacement field.  The outcome is [None] for a template with a
    field that is more than a name, which this model does not interpret. *)
Fixpoint fields (kwargs : list (string * string)) (template : string)
    (field : option string) : option (result string) :=
  match field, template with
  | None, EmptyString => Some (Ok "")
  | None, String c rest =>
      if Ascii.eqb c "{" then
        match rest with
        | EmptyString =>
            Some (Raise (ValueError "Single '{' encountered in format string"))
        | String c' rest' =>
            if Ascii.eqb c' "{" then emit "{" (fields kwargs rest' None)
            else fields kwargs rest (Some "")
        end
      else if Ascii.eqb c "}" then
        match rest with
        | String c' rest' =>
            if Ascii.eqb c' "}" then emit "}" (fields kwargs rest' None)
            else Some (Raise (ValueError
                                "Single '}' encountered in format string"))
        | EmptyString =>
            Some (Raise (ValueError "Single '}' encountered in format string"))
        end
      else emit c (fields kwargs rest None)
  | Some name, EmptyString =>
      Some (Raise (ValueError "expected '}' before end of string"))
  | Some name, String c rest =>
      if Ascii.eqb c "}" then
        match get_field kwargs name with
        | Ok v =>
            match fields kwargs rest None with
            | Some (Ok text) => Some (Ok (v +:+ text))
            | other => other
            end
        | Raise e => Some (Raise e)
        end
      else if Ascii.eqb c "{" then
        Some (Raise (ValueError "unexpected '{' in field name"))
      else if starts_more c then None
      else fields kwargs rest (Some (name +:+ String c ""))
  end.

Definition str_format (template : string) (kwargs : list (string * string))
    : option (result string) :=
  fields kwargs template None.

(** [str_format] as a total function, for templates of plain names: the
    templates it does not interpret are given an outcome of their own. *)
Definition format_names (template : string) (kwargs : list (string * string))
    : result string :=
  default (Raise (OtherError "NotInterpreted" template))
          (str_format template kwargs).

End Format.

Module JsonTranslationService.

(** The service: the cache [self._translations], and the locale files under
    [self.locales_dir] that exist and parse ([<language>.json] by
    language). *)
Record service := {
  _translations : gmap string (gmap string string);
  locale_files : gmap string (gmap string string)
}.

Section Service.

Variable settings : Settings.

(** [str.format] with keyword arguments; it raises on a bad template. *)
Variable format : string -> list (string * string) -> result string.

Definition supported (language : string) : bool :=
  bool_decide (language ∈ SUPPORTED_LANGUAGES settings).

Definition _load_language (language : string) (st : service) : bool * service :=
  match locale_files st !! language with
  | None => (false, st)
  | Some translations =>
      (true, {| _translations := <[language := translations]> (_translations st);
                locale_files := locale_files st |})
  end.

(** [if language not in self._translations: await self._load_language(language)] *)
Definition ensure_loaded (language : string) (st : service) : service :=
  match _translations st !! language with
  | Some _ => st
  | None => snd (_load_language language st)
  end.

(** [self._translations.get(language, {}).get(key)] *)
Definition cached (language key : string) (st : service) : option string :=
  default ∅ (_translations st !! language) !! key.

Definition get_text (key language : string) (kwargs : list (string * string))
    (st : service) : string * service :=
  let language :=
    if supported language then language else DEFAULT_LANGUAGE settings in
  let st := ensure_loaded language st in
  let text := cached language key st in
  let '(text, st) :=
    match text with
    | None =>
        if negb (String.eqb language "en") then
          let st := ensure_loaded "en" st in
          (cached "en" key st, st)
        else (None, st)
    | Some t => (Some t, st)
    end in
  let text := default key text in
  let text :=
    match kwargs with
    | [] => text
    | _ :: _ => try_except (format text kwargs) text
    end in
  (text, st).

(** One round of the [for language in Settings.SUPPORTED_LANGUAGES] loop of
    [get_missing_translations]. *)
Definition missing_step (reference_language : string) (reference_keys : gset string)
    (acc : gmap string (list string) * service) (language : string)
    : gmap string (list string) * service :=
  let '(missing, st) := acc in
  if String.eqb language reference_language then (missing, st)
  else
    let st := ensure_loaded language st in
    let language_keys := dom (default ∅ (_translations st !! language)) in
    let missing_keys := reference_keys ∖ language_keys in
    if bool_decide (missing_keys = ∅) then (missing, st)
    else (<[language := elements missing_keys]> missing, st).

Definition get_missing_translations (reference_language : string) (st : service)
    : gmap string (list string) * service :=
  let st := ensure_loaded reference_language st in
  let reference_keys := dom (default ∅ (_translations st !! reference_language)) in
  fold_left (missing_step reference_language reference_keys)
            (SUPPORTED_LANGUAGES settings) (∅, st).

Definition is_language_supported (language : string) : bool :=
  supported language.

(** [get_all_translations]: a copy of the cached dictionary. *)
Definition get_all_translations (language : string) (st : service)
    : gmap string string * service :=
  let st := ensure_loaded language st in
  (default ∅ (_translations st !! language), st).

(** [add_translation]: the cache entry is updated, and the whole cached
    dictionary of the language is written to its file. *)
Definition add_translation (key language text' : string) (st : service)
    : bool * service :=
  if negb (supported language) then (false, st)
  else
    let st := ensure_loaded language st in
    let dict := <[key := text']> (default ∅ (_translations st !! language)) in
    (true, {| _translations := <[language := dict]> (_translations st);
              locale_files := <[language := dict]> (locale_files st) |}).

(** [reload_translations]: the cache is cleared, then every supported
    language is loaded from its file. *)
Definition reload_translations (st : service) : bool * service :=
  let cleared := {| _translations := ∅; locale_files := locale_files st |} in
  (true,
   fold_left (fun st language => snd (_load_language language st))
             (SUPPORTED_LANGUAGES settings) cleared).

End Service.

(** The dictionary the service holds for a language: the cached one, or
    else the one its locale file would load, or else none. *)
Definition dictionary (language : string) (st : service) : gmap string string :=
  match _translations st !! language with
  | Some d => d
  | None => default ∅ (locale_files st !! language)
  end.

End JsonTranslationService.

(* ===================================================================== *)
(** ** domain/entities/user.py                                            *)
(* ===================================================================== *)

Module User.

Record User := {
  id : Z;
  username : option string;
  first_name : option string;
  last_name : option string;
  language : string;
  is_premium : bool;
  created_at : option Z;
  last_active : option Z;
  download_count : Z;
  is_banned : bool
}.

(** [increment_downloads], which ends with [update_activity]. *)
Definition increment_downloads (now : Z) (u : User) : User :=
  {| id := id u; username := username u; first_name := first_name u;
     last_name := last_name u; language := language u;
     is_premium := is_premium u; created_at := created_at u;
     last_active := Some now;
     download_count := download_count u + 1;
     is_banned := is_banned u |}.

End User.

(* ===================================================================== *)
(** ** application/use_cases/download_media_use_case.py                   *)
(* ===================================================================== *)

Module DownloadMediaUseCase.

(** What [execute] asks of the world outside it: the clock, [uuid.uuid4],
    and the methods it calls on the seven collaborators it was constructed
    with, under the names and with the arguments it uses. *)
Inductive call :=
| Clock
| Uuid4
| UserRepository_get_by_id (user_id : Z)
| RateLimiter_is_rate_limited (user_id : Z) (action : string)
| RateLimiter_get_reset_time (user_id : Z) (action : string)
| Translation_get_translation (language key : string)
    (kwargs : list (string * json))
| Notification_send_error_message (user_id : Z) (message : string)
| Downloader_validate_url (url platform : string)
| RequestRepository_create (request : Request.DownloadRequest)
| RequestRepository_update (request : Request.DownloadRequest)
| Notification_send_progress_message (user_id : Z) (message : string)
| Downloader_download_media (url platform : string)
| Notification_send_success_message (user_id : Z) (count : nat)
| UserRepository_update (user : User.User)
| RateLimiter_increment_usage (user_id : Z) (action : string)
| AnalyticsRepository_create (analytics : Analytics.Analytics).

(** What each call gives back when it does not raise. *)
Definition answer (c : call) : Type :=
  match c with
  | Clock => Z
  | Uuid4 => string
  | UserRepository_get_by_id _ => option User.User
  | RateLimiter_is_rate_limited _ _ => bool
  | RateLimiter_get_reset_time _ _ => json
  | Translation_get_translation _ _ _ => string
  | Downloader_validate_url _ _ => bool
  | RequestRepository_create _ => Request.DownloadRequest
  | Downloader_download_media _ _ => list string
  | AnalyticsRepository_create _ => Analytics.Analytics
  | Notification_send_error_message _ _
  | RequestRepository_update _
  | Notification_send_progress_message _ _
  | Notification_send_success_message _ _
  | UserRepository_update _
  | RateLimiter_increment_usage _ _ => unit
  end.

(** The world: what a call returns or raises, given every call made before
    it.  A collaborator that lacks the method raises [AttributeError]. *)
Definition world := forall (history : list call) (c : call), result (answer c).

(** The state [execute] runs in: the calls made so far, and the objects the
    local names [request] and [user] are bound to (methods mutate them in
    place, and the [except] block sees the mutations). *)
Record state := {
  trace : list call;
  request : option Request.DownloadRequest;
  user : option User.User
}.

Definition initial : state := {| trace := []; request := None; user := None |}.

Definition M (A : Type) : Type := state -> result A * state.

Definition pure {A} (a : A) : M A := fun st => (Ok a, st).

Definition and_then {A B} (m : M A) (k : A -> M B) : M B := fun st =>
  match m st with
  | (Ok a, st') => k a st'
  | (Raise e, st') => (Raise e, st')
  end.

#[local] Notation "'let*' x ':=' m 'in' k" := (and_then m (fun x => k))
  (at level 10, x name, m at level 100, k at level 200).

#[local] Notation "'do' m 'in' k" := (and_then m (fun _ => k))
  (at level 10, m at level 100, k at level 200).

Definition raise {A} (e : exception) : M A := fun st => (Raise e, st).

(** [try: body  except Exception as e: handler(e)] *)
Definition try_catch {A} (body : M A) (handler : exception -> M A) : M A :=
  fun st =>
    match body st with
    | (Ok a, st') => (Ok a, st')
    | (Raise e, st') => handler e st'
    end.

Definition lift {A} (r : result A) : M A := fun st => (r, st).

Definition the_request : M Request.DownloadRequest := fun st =>
  match request st with
  | Some r => (Ok r, st)
  | None => (Raise (OtherError "UnboundLocalError" "request"), st)
  end.

Definition set_request (r : Request.DownloadRequest) : M unit := fun st =>
  (Ok (), {| trace := trace st; request := Some r; user := user st |}).

Definition the_user : M User.User := fun st =>
  match user st with
  | Some u => (Ok u, st)
  | None => (Raise (OtherError "UnboundLocalError" "user"), st)
  end.

Definition set_user (u : User.User) : M unit := fun st =>
  (Ok (), {| trace := trace st; request := request st; user := Some u |}).

Section Execute.

Variable w : world.

(** Make a call: it is recorded, and the world answers. *)
Definition perform (c : call) : M (answer c) := fun st =>
  (w (trace st) c,
   {| trace := (trace st ++ [c])%list; request := request st; user := user st |}).

(** [request.<name>(args)] *)
Definition call_request (name : string) (args : list Request.argument) : M unit :=
  let* r := the_request in
  let* m := lift (Request.get_method name) in
  let* body := lift (Request.bind_method m args) in
  let* now := (if Request.reads_clock m then perform Clock else pure 0) in
  set_request (body now r).

(** [Analytics(id=str(uuid.uuid4()), user_id=.., action="download", ..)]
    and its [__post_init__]. *)
Definition new_analytics (user_id : Z) (platform : string) (success : bool)
    (error_message : option string) (processing_time : Z)
    : M Analytics.Analytics :=
  let* uuid := perform Uuid4 in
  let* a := lift (Analytics.init_fields
              ([Analytics.Kid uuid;
                Analytics.Kuser_id user_id;
                Analytics.Kother "action" (JStr "download");
                Analytics.Kplatform (Some platform);
                Analytics.Ksuccess success]
               ++ match error_message with
                  | Some msg => [Analytics.Kerror_message (Some msg)]
                  | None => []
                  end
               ++ [Analytics.Kprocessing_time (Some processing_time)])%list) in
  let* now := perform Clock in
  pure (Analytics.post_init now a).

(** The [try] block. *)
Definition attempt (start_time : Z) (user_id : Z) (url platform : string)
    : M unit :=
  do call_request "mark_as_processing" [] in
  let* r := the_request in
  do perform (RequestRepository_update r) in
  let* u := the_user in
  let* progress_message := perform
    (Translation_get_translation (User.language u) "download_starting" []) in
  do perform (Notification_send_progress_message user_id progress_message) in
  let* media_items := perform (Downloader_download_media url platform) in
  match media_items with
  | [] => raise (ValueError "No media found")
  | _ :: _ =>
      do call_request "mark_as_completed" [Request.ArgList media_items] in
      let* r := the_request in
      do perform (RequestRepository_update r) in
      do perform (Notification_send_success_message user_id (List.length media_items)) in
      let* now := perform Clock in
      do set_user (User.increment_downloads now u) in
      let* u := the_user in
      do perform (UserRepository_update u) in
      do perform (RateLimiter_increment_usage user_id "download") in
      let* end_time := perform Clock in
      let* analytics := new_analytics user_id platform true None
                          (Request.total_seconds end_time start_time) in
      do perform (AnalyticsRepository_create analytics) in
      pure ()
  end.

(** The [except Exception as e] block, which ends in a bare [raise]. *)
Definition on_failure (start_time : Z) (user_id : Z) (platform : string)
    (e : exception) : M unit :=
  do call_request "mark_as_failed" [Request.ArgStr (str_of_exception e)] in
  let* r := the_request in
  do perform (RequestRepository_update r) in
  let* u := the_user in
  let* error_message := perform
    (Translation_get_translation (User.language u) "download_failed"
       [("error", JStr (str_of_exception e))]) in
  do perform (Notification_send_error_message user_id error_message) in
  let* end_time := perform Clock in
  let* analytics := new_analytics user_id platform false
                      (Some (str_of_exception e))
                      (Request.total_seconds end_time start_time) in
  do perform (AnalyticsRepository_create analytics) in
  raise e.

Definition execute (user_id : Z) (url platform : string)
    : M Request.DownloadRequest :=
  let* start_time := perform Clock in
  let* found := perform (UserRepository_get_by_id user_id) in
  match found with
  | None => raise (ValueError "User not found")
  | Some u =>
      do set_user u in
      let* limited := perform (RateLimiter_is_rate_limited user_id "download") in
      if limited then
        let* reset_time := perform (RateLimiter_get_reset_time user_id "download") in
        let* message := perform
          (Translation_get_translation (User.language u) "rate_limit_exceeded"
             [("reset_time", reset_time)]) in
        do perform (Notification_send_error_message user_id message) in
        raise (ValueError "Rate limit exceeded")
      else
        let* valid := perform (Downloader_validate_url url platform) in
        if negb valid then
          let* message := perform
            (Translation_get_translation (User.language u) "invalid_url" []) in
          do perform (Notification_send_error_message user_id message) in
          raise (ValueError "Invalid URL")
        else
          let* uuid := perform Uuid4 in
          let* now := perform Clock in
          let* created := perform
            (RequestRepository_create
               (Request.new_request now uuid user_id url
                  (Some (Request.PlatformStr platform)))) in
          do set_request created in
          do try_catch (attempt start_time user_id url platform)
                       (on_failure start_time user_id platform) in
          the_request
  end.

End Execute.

(** Bookkeeping read off the trace of a run. *)
Definition is_request_create (c : call) : bool :=
  match c with
  | RequestRepository_create _ => true
  | _ => false
  end.

Definition is_analytics_create (c : call) : bool :=
  match c with
  | AnalyticsRepository_create _ => true
  | _ => false
  end.

Definition requests_created (st : state) : nat :=
  List.length (filter is_request_create (trace st)).

Definition analytics_created (st : state) : nat :=
  List.length (filter is_analytics_create (trace st)).

(** The three guards of [execute] let the invocation through: the world
    finds the user, does not report a rate limit, and validates the URL. *)
Definition guards_pass (w : world) (user_id : Z) (url platform : string) : Prop :=
  exists start_time u,
    w [] Clock = Ok start_time
    /\ w [Clock] (UserRepository_get_by_id user_id) = Ok (Some u)
    /\ w [Clock; UserRepository_get_by_id user_id]
         (RateLimiter_is_rate_limited user_id "download") = Ok false
    /\ w [Clock; UserRepository_get_by_id user_id;
          RateLimiter_is_rate_limited user_id "download"]
         (Downloader_validate_url url platform) = Ok true.

(** A world in which no user is known and everything else succeeds. *)
Definition nobody : world := fun _ c =>
  match c return result (answer c) with
  | Clock => Ok 0
  | Uuid4 => Ok "00000000-0000-4000-8000-000000000000"
  | UserRepository_get_by_id _ => Ok None
  | RateLimiter_is_rate_limited _ _ => Ok false
  | RateLimiter_get_reset_time _ _ => Ok JNull
  | Translation_get_translation _ key _ => Ok key
  | Downloader_validate_url _ _ => Ok true
  | RequestRepository_create r => Ok r
  | Downloader_download_media _ _ => Ok ["/tmp/media.mp4"]
  | AnalyticsRepository_create a => Ok a
  | Notification_send_error_message _ _
  | RequestRepository_update _
  | Notification_send_progress_message _ _
  | Notification_send_success_message _ _
  | UserRepository_update _
  | RateLimiter_increment_usage _ _ => Ok ()
  end.

Definition somebody (uid : Z) : User.User := {|
  User.id := uid; User.username := None; User.first_name := None;
  User.last_name := None; User.language := "en"; User.is_premium := false;
  User.created_at := Some 0; User.last_active := Some 0;
  User.download_count := 0; User.is_banned := false
|}.

(** A world in which every user is known, nobody is rate limited, every
    URL validates and every collaborator succeeds. *)
Definition cooperative : world := fun h c =>
  match c return result (answer c) with
  | UserRepository_get_by_id uid => Ok (Some (somebody uid))
  | c' => nobody h c'
  end.

End DownloadMediaUseCase.

(* ===================================================================== *)
(** * Properties                                                          *)
(* ===================================================================== *)

(** ** The download request entity *)

Module RequestProps.

Import Request.

Lemma can_retry_true (r : DownloadRequest) :
  can_retry r = true <-> status r = FAILED /\ retry_count r < max_retries r.
Proof.
  unfold can_retry. rewrite andb_true_iff, Z.ltb_lt, bool_decide_eq_true.
  tauto.
Qed.

(** C4. [increment_retry] acts exactly when the request is failed and has
    retries left: it then resets the status to pending, clears the error
    message and both timestamps, and adds one to [retry_count], touching no
    other field; in every other case it returns the request as it was. *)
Theorem increment_retry_spec (r : DownloadRequest) :
  (status r = FAILED /\ retry_count r < max_retries r ->
     let r' := increment_retry r in
     status r' = PENDING /\ error_message r' = None /\
     started_at r' = None /\ completed_at r' = None /\
     retry_count r' = retry_count r + 1 /\
     id r' = id r /\ user_id r' = user_id r /\ url r' = url r /\
     platform r' = platform r /\ created_at r' = created_at r /\
     max_retries r' = max_retries r /\ media_files r' = media_files r /\
     metadata r' = metadata r /\ total_size r' = total_size r /\
     processing_time r' = processing_time r)
  /\ (~ (status r = FAILED /\ retry_count r < max_retries r) ->
      increment_retry r = r)
  /\ (max_retries r <= retry_count r ->
      increment_retry r = r /\ status (increment_retry r) = status r).
Proof.
  unfold increment_retry. split; [|split].
  - intros H. apply can_retry_true in H. rewrite H. cbn. repeat split.
  - intros H. destruct (can_retry r) eqn:E; [|reflexivity].
    apply can_retry_true in E. contradiction.
  - intros H. destruct (can_retry r) eqn:E; [|split; reflexivity].
    apply can_retry_true in E. lia.
Qed.

Lemma elapsed_started now r s :
  started_at r = Some s -> elapsed now r = Some (total_seconds now s).
Proof. unfold elapsed. intros ->. reflexivity. Qed.

Lemma apply_op_settled (r : DownloadRequest) (o : request_op) :
  settled r -> settled (apply_op r o).
Proof.
  intros Hr. destruct o as [now|now files size|now msg|now|]; cbn [apply_op].
  - intros Hs. discriminate Hs.
  - intros _ s Hs. cbn in *. exists now. split; [reflexivity|].
    apply elapsed_started, Hs.
  - intros _ s Hs. cbn in *. exists now. split; [reflexivity|].
    apply elapsed_started, Hs.
  - intros _ s Hs. cbn in *. exists now. split; [reflexivity|].
    apply elapsed_started, Hs.
  - unfold increment_retry. destruct (can_retry r); [|exact Hr].
    intros Hs. discriminate Hs.
Qed.

Lemma run_ops_settled (ops : list request_op) (r : DownloadRequest) :
  settled r -> settled (run_ops r ops).
Proof.
  revert r. induction ops as [|o ops IH]; intros r Hr; [exact Hr|].
  cbn. apply IH, apply_op_settled, Hr.
Qed.

Lemma new_request_settled now rid uid u p : settled (new_request now rid uid u p).
Proof. intros Hs. discriminate Hs. Qed.

(** C6, as amended.  On every request reachable from a newly constructed one
    by the entity's operations: in a terminal status (completed, failed,
    cancelled) with [started_at] set, [processing_time] is set and equals
    [completed_at - started_at]. *)
Theorem processing_time_of_settled_request
    (now : Z) (rid : string) (uid : Z) (u : string) (p : option platform_attr)
    (ops : list request_op) (s : Z) :
  let r := run_ops (new_request now rid uid u p) ops in
  is_terminal (status r) = true ->
  started_at r = Some s ->
  exists c, completed_at r = Some c /\ processing_time r = Some (total_seconds c s).
Proof.
  intros r Ht Hs.
  exact (run_ops_settled ops _ (new_request_settled now rid uid u p) Ht s Hs).
Qed.

(** The theorem at a request that failed, was retried and then completed. *)
Lemma processing_time_of_settled_request_witness :
  let r := run_ops (new_request 0 "r1" 7 "https://vm.tiktok.com/ZM1/" None)
                   [OpStart 10; OpFail 25 "timeout"; OpRetry; OpStart 40;
                    OpComplete 70 ["a.mp4"] None] in
  is_terminal (status r) = true /\ started_at r = Some 40 /\
  exists c, completed_at r = Some c /\ processing_time r = Some (total_seconds c 40).
Proof.
  split; [reflexivity|]. split; [reflexivity|].
  apply (processing_time_of_settled_request 0 "r1" 7
           "https://vm.tiktok.com/ZM1/" None
           [OpStart 10; OpFail 25 "timeout"; OpRetry; OpStart 40;
            OpComplete 70 ["a.mp4"] None] 40); reflexivity.
Defined.

(** C6, the claim as stated, fails: starting a completed request again
    moves [started_at] and leaves the old [processing_time] in place. *)
Lemma processing_time_stale_after_restart :
  let r := run_ops (new_request 0 "r1" 7 "https://vm.tiktok.com/ZM1/" None)
                   [OpStart 0; OpComplete 10 ["a.mp4"] None; OpStart 50] in
  processing_time r = Some 10 /\ started_at r = Some 50 /\
  completed_at r = Some 10 /\ ~ duration_consistent r.
Proof.
  cbn zeta. repeat split.
  intros H. specialize (H 10 50 10 eq_refl eq_refl eq_refl).
  discriminate H.
Qed.

(** After a retry the timestamps are gone and the duration is still there. *)
Lemma processing_time_survives_retry :
  let r := run_ops (new_request 0 "r1" 7 "https://vm.tiktok.com/ZM1/" None)
                   [OpStart 0; OpFail 10 "timeout"; OpRetry] in
  processing_time r = Some 10 /\ started_at r = None /\ completed_at r = None.
Proof. repeat split. Qed.

End RequestProps.

(** ** Pattern matching *)

Module ReProps.

Import Re.

Lemma append_cons (a : ascii) (w t : string) :
  String a w +:+ t = String a (w +:+ t).
Proof. reflexivity. Qed.

Lemma append_assoc (w1 w2 t : string) :
  w1 +:+ (w2 +:+ t) = (w1 +:+ w2) +:+ t.
Proof.
  induction w1 as [|a w1 IH]; [reflexivity|].
  rewrite !append_cons, IH. reflexivity.
Qed.

Lemma starts_with_app (w t : string) : starts_with w (w +:+ t) = true.
Proof.
  induction w as [|a w IH]; [reflexivity|].
  rewrite append_cons. cbn. rewrite Ascii.eqb_refl. exact IH.
Qed.

Lemma str_in_prefix (w t : string) : str_in w (w +:+ t) = true.
Proof.
  destruct (w +:+ t) eqn:E; cbn; rewrite <- E, starts_with_app; reflexivity.
Qed.

Lemma str_in_app (w pre s : string) :
  str_in w s = true -> str_in w (pre +:+ s) = true.
Proof.
  intros H. induction pre as [|a pre IH]; [exact H|].
  rewrite append_cons. cbn. rewrite IH. apply orb_true_r.
Qed.

Lemma str_in_nonempty (w s : string) :
  str_in w s = true -> w <> "" -> s <> "".
Proof.
  intros H Hw ->. destruct w; [contradiction|]. discriminate H.
Qed.

(** A successful match consumes a prefix and hands the rest to the
    continuation. *)
Lemma plus_cls_suffix p k s :
  plus_cls p k s = true -> exists w s', s = w +:+ s' /\ k s' = true.
Proof.
  induction s as [|c s IH]; cbn; [discriminate|].
  intros [_ [H|H]%orb_true_iff]%andb_true_iff.
  - destruct (IH H) as (w & s' & -> & Hk). exists (String c w), s'. auto.
  - exists (String c ""), s. auto.
Qed.

Lemma matches_suffix r : forall s k,
  matches r s k = true -> exists w s', s = w +:+ s' /\ k s' = true.
Proof.
  induction r as [|c|p|r1 IH1 r2 IH2|r1 IH1 r2 IH2|r IH|p]; intros s k; cbn.
  - intros H. exists "", s. auto.
  - destruct s as [|a s]; [discriminate|].
    intros [_ H]%andb_true_iff. exists (String a ""), s. auto.
  - destruct s as [|a s]; [discriminate|].
    intros [_ H]%andb_true_iff. exists (String a ""), s. auto.
  - intros H. destruct (IH1 _ _ H) as (w1 & s1 & -> & H1).
    destruct (IH2 _ _ H1) as (w2 & s2 & -> & H2).
    exists (w1 +:+ w2), s2. split; [apply append_assoc|exact H2].
  - intros [H|H]%orb_true_iff; eauto.
  - intros [H|H]%orb_true_iff; [eauto|]. exists "", s. auto.
  - apply plus_cls_suffix.
Qed.

Lemma matches_lit w : forall s k,
  matches (lit w) s k = true -> exists s', s = w +:+ s' /\ k s' = true.
Proof.
  induction w as [|c w IH]; intros s k; cbn.
  - intros H. exists s. auto.
  - destruct s as [|a s]; [discriminate|].
    intros [Ha H]%andb_true_iff. apply Ascii.eqb_eq in Ha as ->.
    destruct (IH _ _ H) as (s' & -> & Hk). exists s'. auto.
Qed.

(** A pattern that is a sequence with the literal [w] in it only matches
    text that contains [w]. *)
Lemma matches_seq_contains (pre : list regex) (w : string) (post : list regex) :
  forall s k,
  matches (seq (pre ++ lit w :: post)) s k = true -> str_in w s = true.
Proof.
  induction pre as [|r pre IH]; intros s k; cbn [app seq matches].
  - intros H. apply matches_lit in H as (s' & -> & _). apply str_in_prefix.
  - intros H. apply matches_suffix in H as (w0 & s' & -> & H).
    apply str_in_app. exact (IH _ _ H).
Qed.

(** [+] is greedy and gives characters back when what follows needs them. *)
Example plus_backtracks :
  re_match (seq [lit "/@"; Plus word_dot_hyphen; lit ".x"]) "/@a.b.x" = true
  /\ re_match (seq [lit "/@"; Plus word_dot_hyphen; lit ".x"]) "/@a.b" = false.
Proof. split; reflexivity. Qed.

End ReProps.

(** ** Platform adapters and the composite dispatcher *)

Module DispatchProps.

Import Re Downloader ReProps.

Lemma instagram_can_handle_contains (u : string) :
  any_match instagram_patterns u = true ->
  str_in "instagram.com" u || str_in "instagr.am" u = true.
Proof.
  unfold any_match, instagram_patterns. cbn [existsb].
  rewrite !orb_true_iff. unfold re_match.
  intros [H|[H|[H|[H|[H|H]]]]]; [| | | | |discriminate H].
  1-4: left; revert H; apply (matches_seq_contains (scheme ++ [www])).
  right; revert H; apply (matches_seq_contains (scheme ++ [www])).
Qed.

Lemma tiktok_can_handle_contains (u : string) :
  any_match tiktok_patterns u = true -> str_in "tiktok.com" u = true.
Proof.
  unfold any_match, tiktok_patterns. cbn [existsb].
  rewrite !orb_true_iff. unfold re_match.
  intros [H|[H|[H|[H|H]]]]; [| | | |discriminate H]; revert H.
  - apply (matches_seq_contains (scheme ++ [www])).
  - apply (matches_seq_contains (scheme ++ [Opt (Alt (lit "vm.") (lit "vt."))])).
  - apply (matches_seq_contains (scheme ++ [www])).
  - apply (matches_seq_contains (scheme ++ [lit "m."])).
Qed.

Example adapters_recognise :
  can_handle (InstagramDownloaderService unreachable)
    "https://www.instagram.com/reel/Cx1-_a/?igshid=1" = true
  /\ can_handle (InstagramDownloaderService unreachable)
       "https://instagram.com/stories/some.user/31415" = true
  /\ can_handle (InstagramDownloaderService unreachable)
       "https://www.instagram.com/some.user/" = false
  /\ can_handle (TikTokDownloaderService unreachable)
       "https://vm.tiktok.com/ZMabc12/" = true
  /\ can_handle (TikTokDownloaderService unreachable)
       "https://www.tiktok.com/@some.user/video/7123" = true
  /\ can_handle (TikTokDownloaderService unreachable)
       "see https://vm.tiktok.com/ZMabc12/" = false.
Proof. vm_compute. repeat split. Qed.

Lemma inferred_platform_eq (u : string) :
  Request.inferred_platform u =
  if negb (String.eqb u "") then
    if str_in "instagram.com" u || str_in "instagr.am" u
    then Some (Request.PlatformEnum Request.INSTAGRAM)
    else if str_in "tiktok.com" u || str_in "vm.tiktok.com" u
         then Some (Request.PlatformEnum Request.TIKTOK)
         else None
  else None.
Proof. reflexivity. Qed.

Lemma resolved_class_registered (net : network) (u : string) :
  CompositeDownloaderService.resolved_class
    (CompositeDownloaderService.registered net) u =
  if any_match instagram_patterns u then Some "InstagramDownloaderService"
  else if any_match tiktok_patterns u then Some "TikTokDownloaderService"
  else None.
Proof.
  unfold CompositeDownloaderService.resolved_class,
    CompositeDownloaderService.registered.
  cbn [CompositeDownloaderService._get_handler].
  change (can_handle (InstagramDownloaderService net) u)
    with (any_match instagram_patterns u).
  change (can_handle (TikTokDownloaderService net) u)
    with (any_match tiktok_patterns u).
  destruct (any_match instagram_patterns u); [reflexivity|].
  destruct (any_match tiktok_patterns u); reflexivity.
Qed.

(** C3, as amended.  Whatever the dispatcher resolves, the inference follows
    it in one direction only: a URL resolved to the Instagram adapter is
    inferred as instagram, and a URL resolved to the TikTok adapter is
    inferred as tiktok unless it also contains [instagram.com] or
    [instagr.am], in which case it is inferred as instagram. *)
Theorem inference_follows_dispatch (net : network) (u : string) :
  let resolved := CompositeDownloaderService.resolved_class
                    (CompositeDownloaderService.registered net) u in
  (resolved = Some "InstagramDownloaderService" ->
     Request.inferred_platform u = Some (Request.PlatformEnum Request.INSTAGRAM))
  /\ (resolved = Some "TikTokDownloaderService" ->
     Request.inferred_platform u =
     Some (Request.PlatformEnum
             (if str_in "instagram.com" u || str_in "instagr.am" u
              then Request.INSTAGRAM else Request.TIKTOK))).
Proof.
  cbn zeta. rewrite resolved_class_registered, inferred_platform_eq.
  destruct (any_match instagram_patterns u) eqn:Hi.
  - split; [intros _|intros [=]].
    apply instagram_can_handle_contains in Hi. rewrite Hi.
    assert (u <> "") as Hu.
    { apply orb_true_iff in Hi as [H|H];
        (eapply str_in_nonempty; [exact H|discriminate]). }
    apply String.eqb_neq in Hu. rewrite Hu. reflexivity.
  - destruct (any_match tiktok_patterns u) eqn:Ht; [|split; intros [=]].
    split; [intros [=]|intros _].
    apply tiktok_can_handle_contains in Ht.
    assert (u <> "") as Hu
      by (eapply str_in_nonempty; [exact Ht|discriminate]).
    apply String.eqb_neq in Hu. rewrite Hu, Ht. cbn.
    destruct (str_in "instagram.com" u || str_in "instagr.am" u); reflexivity.
Qed.

(** C3, the claim as stated, fails in both directions: the inference names a
    platform for a URL no adapter recognises, and names instagram for a URL
    the dispatcher gives to the TikTok adapter. *)
Lemma inference_disagrees_with_dispatch :
  let resolved := CompositeDownloaderService.resolved_class
                    (CompositeDownloaderService.registered unreachable) in
  (Request.inferred_platform "https://www.instagram.com/"
     = Some (Request.PlatformEnum Request.INSTAGRAM)
   /\ resolved "https://www.instagram.com/" = None)
  /\ (Request.inferred_platform "https://www.tiktok.com/@instagram.com/video/1"
     = Some (Request.PlatformEnum Request.INSTAGRAM)
   /\ resolved "https://www.tiktok.com/@instagram.com/video/1"
     = Some "TikTokDownloaderService").
Proof. vm_compute. repeat split. Qed.

Lemma no_handler_found (downloaders : list DownloaderService) (u : string) :
  Forall (fun d => can_handle d u = false) downloaders ->
  CompositeDownloaderService._get_handler downloaders u = None.
Proof.
  induction 1 as [|d ds Hd _ IH]; cbn; [reflexivity|]. rewrite Hd. exact IH.
Qed.

(** C5, as amended.  For a URL no registered adapter recognises,
    [can_handle] is false, [extract_media_info] and [download_media] raise
    [UnsupportedUrlError], [get_media_metadata] returns [None] and
    [validate_url] returns [False]. *)
Theorem unrecognised_url (downloaders : list DownloaderService) (u : string) :
  Forall (fun d => can_handle d u = false) downloaders ->
  CompositeDownloaderService.can_handle downloaders u = false
  /\ CompositeDownloaderService.extract_media_info downloaders u
     = Raise (UnsupportedUrlError ("No handler found for URL: " +:+ u))
  /\ (forall request, Request.url request = u ->
       CompositeDownloaderService.download_media downloaders request
       = Raise (UnsupportedUrlError ("No handler found for URL: " +:+ u)))
  /\ CompositeDownloaderService.get_media_metadata downloaders u = Ok None
  /\ CompositeDownloaderService.validate_url downloaders u = Ok false.
Proof.
  intros H. pose proof (no_handler_found _ _ H) as Hn.
  unfold CompositeDownloaderService.extract_media_info,
    CompositeDownloaderService.download_media,
    CompositeDownloaderService.get_media_metadata,
    CompositeDownloaderService.validate_url.
  rewrite Hn. repeat split.
  - clear Hn. induction H as [|d ds Hd _ IH]; cbn; [reflexivity|].
    rewrite Hd. exact IH.
  - intros request ->. rewrite Hn. reflexivity.
Qed.

(** The theorem at the two registered adapters and a URL of neither. *)
Lemma unrecognised_url_witness :
  let downloaders := CompositeDownloaderService.registered unreachable in
  let u := "https://example.com/watch?v=1" in
  Forall (fun d => can_handle d u = false) downloaders
  /\ CompositeDownloaderService.can_handle downloaders u = false
  /\ CompositeDownloaderService.extract_media_info downloaders u
     = Raise (UnsupportedUrlError ("No handler found for URL: " +:+ u)).
Proof.
  assert (Forall (fun d => can_handle d "https://example.com/watch?v=1" = false)
            (CompositeDownloaderService.registered unreachable)) as H.
  { repeat constructor. }
  split; [exact H|].
  destruct (unrecognised_url _ _ H) as (H1 & H2 & _).
  split; [exact H1|exact H2].
Defined.

(** C5, the claim as stated, fails: on an unrecognised URL [validate_url]
    and [get_media_metadata] return normally. *)
Lemma unrecognised_url_not_always_an_error :
  let downloaders := CompositeDownloaderService.registered unreachable in
  let u := "https://example.com/watch?v=1" in
  Forall (fun d => can_handle d u = false) downloaders
  /\ CompositeDownloaderService.validate_url downloaders u = Ok false
  /\ CompositeDownloaderService.get_media_metadata downloaders u = Ok None.
Proof. repeat split; repeat constructor. Qed.

End DispatchProps.

(** ** The JSON repositories *)

Module RepositoryProps.

Import JsonDownloadRequestRepository.

Lemma set_status_status now status err (d : gmap string json) :
  set_status now status err d !! "status" = Some (JStr status).
Proof.
  unfold set_status.
  destruct (nonempty err), (sets_completed_at status),
    (String.eqb status (status_value Request.PROCESSING));
    now simplify_map_eq.
Qed.

Lemma set_status_error_message now status err (d : gmap string json) :
  set_status now status err d !! "error_message" =
  match nonempty err with
  | Some msg => Some (JStr msg)
  | None => d !! "error_message"
  end.
Proof.
  unfold set_status.
  destruct (nonempty err), (sets_completed_at status),
    (String.eqb status (status_value Request.PROCESSING));
    now simplify_map_eq.
Qed.

Lemma set_status_completed_at now status err (d : gmap string json) :
  set_status now status err d !! "completed_at" =
  if sets_completed_at status then Some (JTime now) else d !! "completed_at".
Proof.
  unfold set_status.
  destruct (nonempty err), (sets_completed_at status),
    (String.eqb status (status_value Request.PROCESSING));
    now simplify_map_eq.
Qed.

Lemma set_status_started_at now status err (d : gmap string json) :
  set_status now status err d !! "started_at" =
  if sets_started_at status then Some (JTime now) else d !! "started_at".
Proof.
  unfold set_status, sets_started_at.
  destruct (nonempty err), (sets_completed_at status),
    (String.eqb status (status_value Request.PROCESSING));
    now simplify_map_eq.
Qed.

(** The frame of [set_status]: a key it does not write keeps its value. *)
Lemma set_status_other now status err (d : gmap string json) (k : string) :
  k ∉ written_keys status err ->
  set_status now status err d !! k = d !! k.
Proof.
  unfold set_status, written_keys, sets_started_at.
  destruct (nonempty err), (sets_completed_at status),
    (String.eqb status (status_value Request.PROCESSING));
    cbn; intros Hk;
    repeat (rewrite lookup_insert_ne; [|intros <-; apply Hk; set_solver]);
    reflexivity.
Qed.

Lemma update_first_spec now rid status err (data : list (gmap string json)) :
  Forall has_id_key data ->
  (update_first now rid status err data = Ok None
   /\ Forall (fun d => has_id rid d = false) data)
  \/ (exists (i : nat) d,
        data !! i = Some d /\ has_id rid d = true
        /\ (forall (j : nat) d', (j < i)%nat -> data !! j = Some d' ->
                                 has_id rid d' = false)
        /\ update_first now rid status err data
           = Ok (Some (<[i := set_status now status err d]> data))).
Proof.
  induction 1 as [|d data [v Hv] _ IH]; [left; split; [reflexivity|constructor]|].
  cbn [update_first]. rewrite Hv.
  destruct (json_eq_str v rid) eqn:Ev.
  - right. exists 0%nat, d. repeat split.
    + unfold has_id. rewrite Hv. exact Ev.
    + intros j d' Hj. lia.
  - assert (has_id rid d = false) as Hd by (unfold has_id; rewrite Hv; exact Ev).
    destruct IH as [[-> Hall]|(i & d0 & Hi & Hid & Hbefore & ->)].
    + left. split; [reflexivity|]. constructor; assumption.
    + right. exists (S i), d0. repeat split; [exact Hi|exact Hid|].
      intros [|j] d' Hj Hl; cbn in Hl.
      * congruence.
      * apply (Hbefore j d'); [lia|exact Hl].
Qed.

(** C8, as amended.  On a file that parses and whose objects all carry an
    id, [update_status] returns true exactly when an object with the given
    id is stored, and otherwise returns false without writing.  When it
    returns true it writes once; in the first object with that id it sets
    [status], sets [error_message] only for a non-empty message, and sets at
    most one timestamp ([completed_at] for completed, failed and cancelled,
    [started_at] for processing, none for any other status); every other key
    of that object, and every other object, is as before. *)
Theorem update_status_frame (now : Z) (rid status : string)
    (err : option string) (f : store) (data : list (gmap string json)) :
  text f = Parsed data ->
  Forall has_id_key data ->
  let res := fst (update_status now rid status err f) in
  let f' := snd (update_status now rid status err f) in
  (res = Ok true <-> Exists (fun d => has_id rid d = true) data)
  /\ (res = Ok true \/ res = Ok false)
  /\ (res = Ok false -> f' = f)
  /\ (res = Ok true ->
      exists (i : nat) d d' data',
        text f' = Parsed data'
        /\ data !! i = Some d /\ has_id rid d = true
        /\ (forall (j : nat) d0, (j < i)%nat -> data !! j = Some d0 ->
                                 has_id rid d0 = false)
        /\ writes f' = S (writes f)
        /\ List.length data' = List.length data
        /\ (forall j : nat, j <> i -> data' !! j = data !! j)
        /\ data' !! i = Some d'
        /\ d' !! "status" = Some (JStr status)
        /\ d' !! "error_message" =
           match nonempty err with
           | Some msg => Some (JStr msg)
           | None => d !! "error_message"
           end
        /\ d' !! "completed_at" =
           (if sets_completed_at status then Some (JTime now)
            else d !! "completed_at")
        /\ d' !! "started_at" =
           (if sets_started_at status then Some (JTime now)
            else d !! "started_at")
        /\ (forall k, k ∉ written_keys status err -> d' !! k = d !! k)).
Proof.
  intros Htext Hwf. cbn zeta.
  unfold update_status, _read_data, read_data. rewrite Htext. cbn [fst snd].
  destruct (update_first_spec now rid status err _ Hwf)
    as [[-> Hall]|(i & d & Hi & Hid & Hbefore & ->)]; cbn [fst snd].
  - split; [|split; [right; reflexivity|split; [reflexivity|intros [=]]]].
    split; [intros [=]|].
    intros Hex. apply Exists_exists in Hex as (d & Hd & Hid).
    rewrite Forall_forall in Hall. rewrite (Hall d Hd) in Hid. discriminate.
  - split; [|split; [left; reflexivity|split; [intros [=]|intros _]]].
    + split; [intros _|reflexivity].
      apply Exists_exists. exists d. split; [|exact Hid].
      apply list_elem_of_lookup. eauto.
    + apply lookup_lt_Some in Hi as Hlt.
      exists i, d, (set_status now status err d),
        (<[i := set_status now status err d]> data).
      split; [reflexivity|].
      split; [exact Hi|]. split; [exact Hid|]. split; [exact Hbefore|].
      split; [reflexivity|].
      split; [apply length_insert|].
      split; [intros j Hj; apply list_lookup_insert_ne; congruence|].
      split; [apply list_lookup_insert_eq; exact Hlt|].
      split; [apply set_status_status|].
      split; [apply set_status_error_message|].
      split; [apply set_status_completed_at|].
      split; [apply set_status_started_at|].
      intros k. apply set_status_other.
Qed.

(** The theorem at a store of one request, marked failed. *)
Lemma update_status_frame_witness :
  let f := mkFile (Parsed [sample_request]) 0 in
  text f = Parsed [sample_request]
  /\ Forall has_id_key [sample_request]
  /\ fst (update_status 100 "r1" "failed" (Some "timeout") f) = Ok true
  /\ writes (snd (update_status 100 "r1" "failed" (Some "timeout") f)) = 1%nat.
Proof.
  assert (Forall has_id_key [sample_request]) as H.
  { repeat constructor. exists (JStr "r1"). reflexivity. }
  split; [reflexivity|]. split; [exact H|].
  destruct (update_status_frame 100 "r1" "failed" (Some "timeout")
              (mkFile (Parsed [sample_request]) 0) _ eq_refl H)
    as (Hiff & _ & _ & Htrue).
  assert (fst (update_status 100 "r1" "failed" (Some "timeout")
                 (mkFile (Parsed [sample_request]) 0)) = Ok true) as Hres.
  { apply Hiff. constructor. reflexivity. }
  split; [exact Hres|].
  destruct (Htrue Hres) as (i & d & d' & data' & _ & _ & _ & _ & Hw & _).
  exact Hw.
Defined.

(** C8, the claim as stated, fails: for the status [pending] the matching
    object gets the new status and neither timestamp is written. *)
Lemma update_status_pending_writes_no_timestamp :
  let f := mkFile (Parsed [sample_request]) 0 in
  let f' := snd (update_status 100 "r1" "pending" None f) in
  fst (update_status 100 "r1" "pending" None f) = Ok true
  /\ text f' = Parsed [<["status" := JStr "pending"]> sample_request]
  /\ sample_request !! "started_at" = Some (JTime 5)
  /\ sample_request !! "completed_at" = Some JNull
  /\ (<["status" := JStr "pending"]> sample_request) !! "started_at"
     = Some (JTime 5)
  /\ (<["status" := JStr "pending"]> sample_request) !! "completed_at"
     = Some JNull.
Proof. cbn zeta. repeat split. Qed.

(** On a file that does not parse, [_read_data] replaces it by the empty
    array before the search starts: [update_status] returns false and the
    file has been written. *)
Lemma update_status_resets_corrupt_file (now : Z) (rid status : string)
    (err : option string) (n : nat) :
  update_status now rid status err (mkFile Corrupt n)
  = (Ok false, mkFile (Parsed []) (S n)).
Proof. reflexivity. Qed.

Import Analytics JsonAnalyticsRepository.

Lemma analytics_stored_write_data (data : list (gmap string json))
    (f : JsonAnalyticsRepository.store) :
  stored (write_data data f) = data.
Proof. reflexivity. Qed.

(** C9.  [save] appends the record's object at the end of the array it
    reads, whether or not an object with the same id is already there: the
    array grows by one, every object stored before stays where it was, and
    the number of stored objects carrying the record's id grows by one. *)
Theorem save_appends (a : Analytics) (f : JsonAnalyticsRepository.store) :
  let f' := snd (save a f) in
  fst (save a f) = Ok a
  /\ text f' = Parsed (stored f ++ [_analytics_to_dict a])%list
  /\ stored f' = (stored f ++ [_analytics_to_dict a])%list
  /\ List.length (stored f') = S (List.length (stored f))
  /\ (forall (i : nat) d, stored f !! i = Some d -> stored f' !! i = Some d)
  /\ stored f' !! List.length (stored f) = Some (_analytics_to_dict a)
  /\ _analytics_to_dict a !! "id" = Some (JStr (Analytics.id a))
  /\ List.length (List.filter (has_id (Analytics.id a)) (stored f'))
     = S (List.length (List.filter (has_id (Analytics.id a)) (stored f)))
  /\ (writes f < writes f')%nat.
Proof.
  cbn zeta. unfold save. cbn [fst snd]. rewrite analytics_stored_write_data.
  fold (stored f). repeat split.
  - rewrite length_app. cbn. lia.
  - intros i d Hi. apply lookup_app_l_Some. exact Hi.
  - rewrite lookup_app_r by lia. now rewrite Nat.sub_diag.
  - rewrite List.filter_app, length_app. cbn.
    assert (has_id (Analytics.id a) (_analytics_to_dict a) = true) as ->.
    { unfold has_id, _analytics_to_dict. rewrite lookup_insert_eq.
      apply String.eqb_refl. }
    cbn. lia.
  - unfold JsonAnalyticsRepository._read_data, read_data.
    destruct (text f); cbn; lia.
Qed.

End RepositoryProps.

(** ** The rate limiter *)

Module RateLimiterProps.

Import JsonRateLimiterService.

Lemma limiter_stored_write_data (data : gmap string user_data) (f : store) :
  stored (write_data data f) = data.
Proof. reflexivity. Qed.

Lemma default_download_limit (ud : user_data) :
  custom_limits ud = None ->
  get_limit_config default_settings ud "download"
  = {| requests := 5; period_seconds := 300 |}.
Proof. unfold get_limit_config. intros ->. reflexivity. Qed.

(** One more use inside the window adds one to the counter and keeps the
    window. *)
Lemma increment_usage_in_window (s : Settings) (now uid : Z) (action : string)
    (f : store) (ud : user_data) (ad : action_data) :
  stored f !! _get_user_key uid = Some ud ->
  actions ud !! _get_action_key action = Some ad ->
  now < reset_time ad ->
  stored (snd (increment_usage s now uid action f)) !! _get_user_key uid
  = Some {| actions := <[_get_action_key action :=
                           {| used := used ad + 1; reset_time := reset_time ad |}]>
                         (actions ud);
            custom_limits := custom_limits ud;
            blocked_until := blocked_until ud |}.
Proof.
  intros Hud Had Hnow. unfold increment_usage. cbn [snd].
  rewrite limiter_stored_write_data. fold (stored f).
  rewrite lookup_insert_eq, Hud. cbn [default from_option id]. rewrite Had.
  assert ((reset_time ad <=? now) = false) as -> by lia.
  reflexivity.
Qed.

Lemma increment_at_in_window (s : Settings) (uid : Z) (action : string)
    (times : list Z) :
  forall (f : store) (ud : user_data) (ad : action_data),
  stored f !! _get_user_key uid = Some ud ->
  actions ud !! _get_action_key action = Some ad ->
  Forall (fun t => t < reset_time ad) times ->
  exists ud',
    stored (increment_at s uid action times f) !! _get_user_key uid = Some ud'
    /\ actions ud' !! _get_action_key action
       = Some {| used := used ad + Z.of_nat (List.length times);
                 reset_time := reset_time ad |}
    /\ custom_limits ud' = custom_limits ud
    /\ blocked_until ud' = blocked_until ud.
Proof.
  induction times as [|t times IH]; intros f ud ad Hud Had Hall.
  - exists ud. cbn. rewrite Z.add_0_r. destruct ad. auto.
  - apply Forall_cons in Hall as [Ht Hall]. cbn [increment_at fold_left].
    pose proof (increment_usage_in_window s t uid action f ud ad Hud Had Ht) as H1.
    edestruct (IH (snd (increment_usage s t uid action f))) as (ud' & H & Ha & Hc & Hb);
      [exact H1|apply lookup_insert_eq|exact Hall|].
    exists ud'. split; [exact H|]. cbn in Ha, Hc, Hb.
    split; [|split; assumption].
    rewrite Ha. f_equal. f_equal. cbn [List.length]. lia.
Qed.

(** The first use by a user without an entry opens a window of the default
    length. *)
Lemma first_increment (now uid : Z) (f : store) :
  stored f !! _get_user_key uid = None ->
  stored (snd (increment_usage default_settings now uid "download" f))
    !! _get_user_key uid
  = Some {| actions := {[ _get_action_key "download" :=
                            {| used := 1; reset_time := now + seconds 300 |} ]};
            custom_limits := None;
            blocked_until := None |}.
Proof.
  intros Hud. unfold increment_usage. cbn [snd].
  rewrite limiter_stored_write_data. fold (stored f).
  rewrite lookup_insert_eq, Hud. cbn [default from_option id no_data actions].
  rewrite lookup_empty, default_download_limit by reflexivity.
  cbn [period_seconds reset_time used custom_limits blocked_until].
  assert ((now + seconds 300 <=? now) = false) as ->
    by (unfold seconds; lia).
  reflexivity.
Qed.

(** The state of a new user's download counter after [1 + length times]
    uses, the first at [t0] and the others before the window closes. *)
Lemma counter_after_uses (uid t0 : Z) (times : list Z) (f : store) :
  stored f !! _get_user_key uid = None ->
  Forall (fun t => t < t0 + seconds 300) times ->
  exists ud,
    stored (increment_at default_settings uid "download" (t0 :: times) f)
      !! _get_user_key uid = Some ud
    /\ actions ud !! _get_action_key "download"
       = Some {| used := 1 + Z.of_nat (List.length times);
                 reset_time := t0 + seconds 300 |}
    /\ custom_limits ud = None
    /\ blocked_until ud = None.
Proof.
  intros Hud Hall. cbn [increment_at fold_left].
  pose proof (first_increment t0 uid f Hud) as H1.
  edestruct (increment_at_in_window default_settings uid "download" times
               (snd (increment_usage default_settings t0 uid "download" f)))
    as (ud' & H & Ha & Hc & Hb);
    [exact H1|apply lookup_singleton_eq|exact Hall|].
  exists ud'. cbn in Ha, Hc, Hb. auto.
Qed.

(** C2, as amended.  For a user without rate-limit state and the default
    download limit (5 per 300 seconds): after [n] uses inside one window,
    [is_rate_limited] is true exactly when [n >= 5], so it stays false
    through the fourth use and is true from the fifth on; once the window
    has elapsed it is false again, and [get_rate_limit_info] reports 0 used
    and 5 remaining. *)
Theorem download_window (uid t0 : Z) (times : list Z) (f : store)
    (now_block now : Z) :
  stored f !! _get_user_key uid = None ->
  Forall (fun t => t < t0 + seconds 300) times ->
  let data := stored (increment_at default_settings uid "download"
                         (t0 :: times) f) in
  (now < t0 + seconds 300 ->
     is_rate_limited default_settings now_block now uid "download" data
     = bool_decide (5 <= 1 + Z.of_nat (List.length times)))
  /\ (t0 + seconds 300 <= now ->
      is_rate_limited default_settings now_block now uid "download" data = false
      /\ info_used (get_rate_limit_info default_settings now uid "download" data) = 0
      /\ remaining (get_rate_limit_info default_settings now uid "download" data) = 5).
Proof.
  intros Hud Hall data.
  destruct (counter_after_uses uid t0 times f Hud Hall) as (ud & H & Ha & Hc & Hb).
  fold data in H.
  assert (is_user_blocked now_block uid data = false) as Hnb.
  { unfold is_user_blocked. rewrite H. cbn [default from_option id]. rewrite Hb. reflexivity. }
  unfold is_rate_limited, get_rate_limit_info. rewrite Hnb, H. cbn [default from_option id].
  rewrite Ha, default_download_limit by exact Hc. cbn.
  split.
  - intros Hnow.
    assert ((t0 + seconds 300 <=? now) = false) as -> by lia.
    apply eq_true_iff_eq. rewrite Z.leb_le, bool_decide_eq_true. lia.
  - intros Hnow.
    assert ((t0 + seconds 300 <=? now) = true) as -> by lia.
    repeat split.
Qed.

(** The theorem at five uses by user 7, inside and after the window. *)
Lemma download_window_witness :
  let f : store := mkFile (Parsed ∅) 0 in
  let data := stored (increment_at default_settings 7 "download"
                         [0; 10; 20; 30; 40] f) in
  is_rate_limited default_settings 50 50 7 "download" data = true
  /\ is_rate_limited default_settings 300000000 300000000 7 "download" data = false.
Proof.
  assert (Forall (fun t => t < 0 + seconds 300) [10; 20; 30; 40]) as Hall.
  { repeat constructor. }
  split.
  - apply (proj1 (download_window 7 0 [10; 20; 30; 40] (mkFile (Parsed ∅) 0) 50 50
                    (lookup_empty _) Hall)).
    reflexivity.
  - apply (proj2 (download_window 7 0 [10; 20; 30; 40] (mkFile (Parsed ∅) 0)
                    300000000 300000000 (lookup_empty _) Hall)).
    unfold seconds. lia.
Defined.

(** C2, the claim as stated, fails: the fifth use already makes
    [is_rate_limited] true. *)
Lemma fifth_use_is_limited :
  let f : store := mkFile (Parsed ∅) 0 in
  let after n := stored (increment_at default_settings 7 "download"
                            (firstn n [0; 10; 20; 30; 40; 50]) f) in
  is_rate_limited default_settings 60 60 7 "download" (after 4%nat) = false
  /\ is_rate_limited default_settings 60 60 7 "download" (after 5%nat) = true.
Proof. vm_compute. split; reflexivity. Qed.

(** C10.  [unblock_user] returns true for every user, and a second call
    changes nothing.  On a file that parses, calling it on a user without a
    block (or without an entry) leaves the file as it was, without writing.
    [reset_user_limits] returns true for every user and, on a file that
    parses, leaves the file as it was when the user has no entry. *)
Theorem unblock_user_idempotent (uid : Z) (f : store) :
  fst (unblock_user uid f) = true
  /\ snd (unblock_user uid (snd (unblock_user uid f))) = snd (unblock_user uid f)
  /\ fst (unblock_user uid (snd (unblock_user uid f))) = true
  /\ stored (snd (unblock_user uid f)) !! _get_user_key uid
     = (fun ud => {| actions := actions ud;
                     custom_limits := custom_limits ud;
                     blocked_until := None |})
       <$> stored f !! _get_user_key uid
  /\ (forall data, text f = Parsed data ->
        (data !! _get_user_key uid) ≫= blocked_until = None ->
        snd (unblock_user uid f) = f)
  /\ fst (reset_user_limits uid f) = true
  /\ (forall data, text f = Parsed data ->
        data !! _get_user_key uid = None ->
        reset_user_limits uid f = (true, f) /\ unblock_user uid f = (true, f)).
Proof.
  unfold unblock_user, reset_user_limits, stored, _read_data, read_data.
  destruct (text f) as [data|] eqn:Htext; cbn [fst snd].
  - destruct (data !! _get_user_key uid) as [ud|] eqn:Hud; cbn [fst snd].
    + destruct (blocked_until ud) as [b|] eqn:Hb; cbn.
      * rewrite !lookup_insert_eq. cbn.
        split; [reflexivity|]. split; [reflexivity|]. split; [reflexivity|].
        split; [reflexivity|].
        split; [intros data' Ht Hn; simplify_eq; rewrite Hud in Hn; cbn in Hn;
                congruence|].
        split; [reflexivity|].
        intros data' Ht Hn. simplify_eq.
      * rewrite Htext. cbn. rewrite Hud, Hb. cbn.
        split; [reflexivity|]. split; [reflexivity|]. split; [reflexivity|].
        split; [destruct ud; cbn in *; congruence|].
        split; [reflexivity|]. split; [reflexivity|].
        intros data' Ht Hn. simplify_eq.
    + rewrite Htext. cbn. rewrite Hud. repeat split.
  - cbn. rewrite !lookup_empty. cbn.
    split; [reflexivity|]. split; [reflexivity|]. split; [reflexivity|].
    split; [reflexivity|].
    split; [intros data' Ht; discriminate Ht|].
    split; [reflexivity|]. intros data' Ht; discriminate Ht.
Qed.

End RateLimiterProps.

(** ** The translation service *)

Module TranslationProps.

Import JsonTranslationService.

Section Fallback.

Variable format : string -> list (string * string) -> result string.

(** Loading a language changes no dictionary: it only moves one from its
    file into the cache. *)
Lemma dictionary_ensure_loaded (l l' : string) (st : service) :
  dictionary l (ensure_loaded l' st) = dictionary l st.
Proof.
  unfold ensure_loaded, _load_language.
  destruct (_translations st !! l') as [d|] eqn:Hc; [reflexivity|].
  destruct (locale_files st !! l') as [d|] eqn:Hf; [|reflexivity].
  unfold dictionary. cbn.
  destruct (decide (l' = l)) as [<-|Hne].
  - rewrite lookup_insert_eq, Hc, Hf. reflexivity.
  - rewrite lookup_insert_ne by exact Hne. reflexivity.
Qed.

Lemma cached_ensure_loaded (l key : string) (st : service) :
  cached l key (ensure_loaded l st) = dictionary l st !! key.
Proof.
  unfold cached, ensure_loaded, _load_language, dictionary.
  destruct (_translations st !! l) as [d|] eqn:Hc; [rewrite Hc; reflexivity|].
  destruct (locale_files st !! l) as [d|] eqn:Hf; cbn.
  - rewrite lookup_insert_eq. reflexivity.
  - rewrite Hc. reflexivity.
Qed.

Lemma loaded_ensure_loaded (l : string) (st : service) :
  default ∅ (_translations (ensure_loaded l st) !! l) = dictionary l st.
Proof.
  unfold ensure_loaded, _load_language, dictionary.
  destruct (_translations st !! l) as [d|] eqn:Hc; [rewrite Hc; reflexivity|].
  destruct (locale_files st !! l) as [d|] eqn:Hf; cbn.
  - rewrite lookup_insert_eq. reflexivity.
  - rewrite Hc. reflexivity.
Qed.

(** What [get_text] returns for a supported language, in terms of the
    dictionaries: the text it finds, formatted when the call passes format
    arguments and [str.format] accepts them. *)
Lemma get_text_supported_kwargs (key lang : string)
    (kwargs : list (string * string)) (st : service) :
  lang ∈ SUPPORTED_LANGUAGES default_settings ->
  fst (get_text default_settings format key lang kwargs st) =
  let text := match dictionary lang st !! key with
              | Some t => t
              | None =>
                  if String.eqb lang "en" then key
                  else default key (dictionary "en" st !! key)
              end in
  match kwargs with
  | [] => text
  | _ :: _ => try_except (format text kwargs) text
  end.
Proof.
  intros Hl. unfold get_text, supported.
  rewrite bool_decide_eq_true_2 by exact Hl.
  rewrite cached_ensure_loaded.
  destruct (dictionary lang st !! key) as [t|]; [reflexivity|].
  destruct (String.eqb lang "en"); cbn; [reflexivity|].
  rewrite cached_ensure_loaded, dictionary_ensure_loaded. reflexivity.
Qed.

Lemma get_text_supported (key lang : string) (st : service) :
  lang ∈ SUPPORTED_LANGUAGES default_settings ->
  fst (get_text default_settings format key lang [] st) =
  match dictionary lang st !! key with
  | Some t => t
  | None =>
      if String.eqb lang "en" then key
      else default key (dictionary "en" st !! key)
  end.
Proof. intros Hl. exact (get_text_supported_kwargs key lang [] st Hl). Qed.

(** One round of the loop of [get_missing_translations], in terms of the
    dictionaries. *)
Lemma missing_step_spec (ref : string) (keys : gset string)
    (missing : gmap string (list string)) (st : service) (lang : string) :
  lang <> ref ->
  missing_step ref keys (missing, st) lang =
  (if bool_decide (keys ∖ dom (dictionary lang st) = ∅) then missing
   else <[lang := elements (keys ∖ dom (dictionary lang st))]> missing,
   ensure_loaded lang st).
Proof.
  intros Hne. unfold missing_step.
  apply String.eqb_neq in Hne. rewrite Hne, loaded_ensure_loaded.
  destruct (bool_decide (keys ∖ dom (dictionary lang st) = ∅)); reflexivity.
Qed.

Lemma get_missing_translations_en (st : service) (lang : string) :
  lang ∈ ["ru"; "uz"] ->
  fst (get_missing_translations default_settings "en" st) !! lang =
  if bool_decide (dom (dictionary "en" st) ∖ dom (dictionary lang st) = ∅)
  then None
  else Some (elements (dom (dictionary "en" st) ∖ dom (dictionary lang st))).
Proof.
  intros Hl. unfold get_missing_translations.
  rewrite loaded_ensure_loaded. cbn [SUPPORTED_LANGUAGES default_settings fold_left].
  set (keys := dom (dictionary "en" st)).
  change (missing_step "en" keys (∅, ensure_loaded "en" st) "en")
    with (∅ : gmap string (list string), ensure_loaded "en" st).
  rewrite missing_step_spec by discriminate.
  rewrite missing_step_spec by discriminate.
  rewrite !dictionary_ensure_loaded. cbn [fst].
  apply elem_of_cons in Hl as [->|Hl];
    [|apply elem_of_cons in Hl as [->|Hl]; [|inversion Hl]].
  - destruct (bool_decide (keys ∖ dom (dictionary "uz" st) = ∅)),
      (bool_decide (keys ∖ dom (dictionary "ru" st) = ∅));
      now simplify_map_eq.
  - destruct (bool_decide (keys ∖ dom (dictionary "uz" st) = ∅)),
      (bool_decide (keys ∖ dom (dictionary "ru" st) = ∅));
      now simplify_map_eq.
Qed.

(** C7, as amended.  With the supported languages en, ru and uz: a key
    that only the English dictionary has is answered in ru and uz with the
    English text, and a key that no dictionary has is answered in every
    supported language with the key itself, in both cases as it is when the
    call passes no format arguments, and otherwise passed through
    [str.format] with those arguments (and left as it is when the formatting
    raises); and for a language that lacks exactly one key of the English
    dictionary, [get_missing_translations("en")] maps that language to the
    list holding just that key. *)
Theorem translation_fallback (st : service) (key : string)
    (kwargs : list (string * string)) :
  (forall lang text,
     lang ∈ ["ru"; "uz"] ->
     dictionary lang st !! key = None ->
     dictionary "en" st !! key = Some text ->
     fst (get_text default_settings format key lang kwargs st)
     = match kwargs with
       | [] => text
       | _ :: _ => try_except (format text kwargs) text
       end)
  /\ (forall lang,
        lang ∈ SUPPORTED_LANGUAGES default_settings ->
        (forall l, l ∈ SUPPORTED_LANGUAGES default_settings ->
                   dictionary l st !! key = None) ->
        fst (get_text default_settings format key lang kwargs st)
        = match kwargs with
          | [] => key
          | _ :: _ => try_except (format key kwargs) key
          end)
  /\ (forall lang,
        lang ∈ ["ru"; "uz"] ->
        dom (dictionary "en" st) ∖ dom (dictionary lang st) = {[key]} ->
        fst (get_missing_translations default_settings "en" st) !! lang
        = Some [key]).
Proof.
  split; [|split].
  - intros lang text Hl Hnone Hen.
    rewrite get_text_supported_kwargs by (right; exact Hl).
    rewrite Hnone, Hen.
    apply elem_of_cons in Hl as [->|Hl];
      [|apply elem_of_cons in Hl as [->|Hl]; [|inversion Hl]]; reflexivity.
  - intros lang Hl Hnone.
    rewrite get_text_supported_kwargs by exact Hl.
    rewrite (Hnone lang Hl).
    destruct (String.eqb lang "en"); [reflexivity|].
    rewrite (Hnone "en") by left. reflexivity.
  - intros lang Hl Hmissing.
    rewrite get_missing_translations_en by exact Hl.
    rewrite Hmissing, bool_decide_eq_false_2 by apply non_empty_singleton_L.
    rewrite elements_singleton. reflexivity.
Qed.

End Fallback.

(** A service whose Russian file lacks the key ["help"]. *)
Example fallback_on_sample_files :
  let st := {| _translations := ∅;
               locale_files :=
                 <["en" := <["start" := "Welcome"]> {["help" := "How to use"]}]>
                 {["ru" := {["start" := "Privet"]}]} |} in
  let format := fun (t : string) (_ : list (string * string)) => Ok t in
  fst (get_text default_settings format "help" "ru" [] st) = "How to use"
  /\ fst (get_text default_settings format "start" "ru" [] st) = "Privet"
  /\ fst (get_text default_settings format "bye" "uz" [] st) = "bye"
  /\ fst (get_missing_translations default_settings "en" st) !! "ru"
     = Some ["help"].
Proof. vm_compute. repeat split. Qed.

(** C7, the claim as stated, fails for calls that pass format arguments:
    the key ["{x}"], which no dictionary has, is answered with ["1"] when
    the call passes [x="1"], not with the key; and a key that only the
    English dictionary has, with the text ["Hello {name}"], is answered in
    Russian with ["Hello Ann"] when the call passes [name="Ann"], not with
    the English text. *)
Lemma formatted_answer_is_not_the_text :
  let nothing := {| _translations := ∅; locale_files := ∅ |} in
  let english := {| _translations := ∅;
                    locale_files := {["en" := {["hello" := "Hello {name}"]}]} |} in
  dictionary "en" nothing !! "{x}" = None
  /\ dictionary "ru" nothing !! "{x}" = None
  /\ dictionary "uz" nothing !! "{x}" = None
  /\ fst (get_text default_settings Format.format_names "{x}" "ru"
                   [("x", "1")] nothing) = "1"
  /\ "1" <> "{x}"
  /\ dictionary "ru" english !! "hello" = None
  /\ dictionary "uz" english !! "hello" = None
  /\ dictionary "en" english !! "hello" = Some "Hello {name}"
  /\ fst (get_text default_settings Format.format_names "hello" "ru"
                   [("name", "Ann")] english) = "Hello Ann"
  /\ "Hello Ann" <> "Hello {name}".
Proof. vm_compute. repeat split; discriminate. Qed.

End TranslationProps.

(** ** The download use case *)

Module UseCaseProps.

Import DownloadMediaUseCase.

(** [DownloadRequest] has no method [mark_as_processing]: the [try] block
    stops at its first statement, before any call is made. *)
Lemma attempt_raises (w : world) (start_time uid : Z) (url platform : string)
    (st : state) (r : Request.DownloadRequest) :
  request st = Some r ->
  attempt w start_time uid url platform st
  = (Raise (AttributeError
              "'DownloadRequest' object has no attribute 'mark_as_processing'"),
     st).
Proof.
  intros Hr. unfold attempt, call_request, and_then, the_request.
  rewrite Hr. reflexivity.
Qed.

(** Nor has it a method [mark_as_failed]: the [except] block stops at its
    first statement too, with an exception of its own. *)
Lemma on_failure_raises (w : world) (start_time uid : Z) (platform : string)
    (e : exception) (st : state) (r : Request.DownloadRequest) :
  request st = Some r ->
  on_failure w start_time uid platform e st
  = (Raise (AttributeError
              "'DownloadRequest' object has no attribute 'mark_as_failed'"),
     st).
Proof.
  intros Hr. unfold on_failure, call_request, and_then, the_request.
  rewrite Hr. reflexivity.
Qed.

(** [Analytics] has no field [action]: constructing the record raises. *)
Lemma new_analytics_raises (w : world) (uid : Z) (platform : string)
    (success : bool) (msg : option string) (pt : Z) (st : state) :
  exists e, fst (new_analytics w uid platform success msg pt st) = Raise e.
Proof.
  unfold new_analytics, and_then, perform.
  destruct (w (trace st) Uuid4); cbn; eauto.
Qed.

Ltac ask w :=
  match goal with
  | |- context [w ?h ?c] =>
      let E := fresh "E" in destruct (w h c) eqn:E; cbn
  end.

(** What every invocation has in common, whatever the collaborators do:
    it ends by raising, it creates no Analytics record, and it creates a
    DownloadRequest at most once and only after its three guards have
    passed. *)
Lemma execute_outcomes (w : world) (uid : Z) (url platform : string) :
  let run := execute w uid url platform initial in
  (exists e, fst run = Raise e)
  /\ analytics_created (snd run) = 0%nat
  /\ (requests_created (snd run) <= 1)%nat
  /\ (requests_created (snd run) = 1%nat -> guards_pass w uid url platform).
Proof.
  cbn zeta.
  assert (forall run : result Request.DownloadRequest * state,
            (exists e, fst run = Raise e)
            /\ ((requests_created (snd run) = 0%nat
                 /\ analytics_created (snd run) = 0%nat)
                \/ (requests_created (snd run) = 1%nat
                    /\ analytics_created (snd run) = 0%nat
                    /\ guards_pass w uid url platform)) ->
            (exists e, fst run = Raise e)
            /\ analytics_created (snd run) = 0%nat
            /\ (requests_created (snd run) <= 1)%nat
            /\ (requests_created (snd run) = 1%nat ->
                guards_pass w uid url platform))
    as Hsum.
  { intros run [Hraise [[Hr Ha]|(Hr & Ha & Hg)]];
      (split; [exact Hraise|]); rewrite Hr, Ha; repeat split; auto; lia. }
  apply Hsum. clear Hsum.
  unfold execute, and_then, perform, raise, set_user. cbn.
  ask w; [|split; [eexists; reflexivity|left; split; reflexivity]].
  ask w; [|split; [eexists; reflexivity|left; split; reflexivity]].
  match goal with |- context [match ?x with Some _ => _ | None => _ end] =>
    destruct x as [u|] eqn:Eu; cbn end;
    [|split; [eexists; reflexivity|left; split; reflexivity]].
  ask w; [|split; [eexists; reflexivity|left; split; reflexivity]].
  match goal with |- context [if ?b then _ else _] =>
    destruct b eqn:Eb; cbn end.
  { repeat (ask w; [|split; [eexists; reflexivity|left; split; reflexivity]]).
    split; [eexists; reflexivity|left; split; reflexivity]. }
  ask w; [|split; [eexists; reflexivity|left; split; reflexivity]].
  match goal with |- context [if negb ?b then _ else _] =>
    destruct b eqn:Ev; cbn end.
  2:{ repeat (ask w; [|split; [eexists; reflexivity|left; split; reflexivity]]).
      split; [eexists; reflexivity|left; split; reflexivity]. }
  ask w; [|split; [eexists; reflexivity|left; split; reflexivity]].
  ask w; [|split; [eexists; reflexivity|left; split; reflexivity]].
  ask w; (split; [eexists; reflexivity|]);
    right; (split; [reflexivity|split; [reflexivity|]]);
    eexists _, _; repeat split; eassumption.
Qed.

(** An invocation for an unknown user is stopped by the first guard: it
    raises and persists neither a DownloadRequest nor an Analytics record. *)
Lemma unknown_user_persists_nothing :
  let run := execute nobody 7 "https://www.instagram.com/p/abc/" "instagram"
                     initial in
  fst run = Raise (ValueError "User not found")
  /\ requests_created (snd run) = 0%nat
  /\ analytics_created (snd run) = 0%nat.
Proof. vm_compute. repeat split. Qed.

(** C1.  The code misses the claim on every invocation that gets past its
    guards.  When the user is found, is not rate limited, the URL validates
    and the repository stores the new request, [execute] creates that one
    DownloadRequest and then stops: the [try] block calls
    [request.mark_as_processing()] and the [except] block
    [request.mark_as_failed(...)], neither of which [DownloadRequest] has,
    so the invocation ends in the [AttributeError] of the [except] block.
    The seven calls up to the creation are all it has made: the stored
    request is never updated and stays as created, and no Analytics record
    is built or stored, where the claim wants exactly one, carrying the
    outcome. *)
Theorem execute_past_the_guards (w : world) (uid : Z) (url platform : string)
    (start_time : Z) (u : User.User) (uuid : string) (now : Z)
    (created : Request.DownloadRequest) :
  let new := Request.new_request now uuid uid url
               (Some (Request.PlatformStr platform)) in
  let guards := [Clock; UserRepository_get_by_id uid;
                 RateLimiter_is_rate_limited uid "download";
                 Downloader_validate_url url platform] in
  w [] Clock = Ok start_time ->
  w [Clock] (UserRepository_get_by_id uid) = Ok (Some u) ->
  w [Clock; UserRepository_get_by_id uid]
    (RateLimiter_is_rate_limited uid "download") = Ok false ->
  w [Clock; UserRepository_get_by_id uid;
     RateLimiter_is_rate_limited uid "download"]
    (Downloader_validate_url url platform) = Ok true ->
  w guards Uuid4 = Ok uuid ->
  w (guards ++ [Uuid4])%list Clock = Ok now ->
  w (guards ++ [Uuid4; Clock])%list (RequestRepository_create new) = Ok created ->
  let run := execute w uid url platform initial in
  fst run = Raise (AttributeError
                     "'DownloadRequest' object has no attribute 'mark_as_failed'")
  /\ trace (snd run)
     = (guards ++ [Uuid4; Clock; RequestRepository_create new])%list
  /\ requests_created (snd run) = 1%nat
  /\ analytics_created (snd run) = 0%nat
  /\ request (snd run) = Some created
  /\ Request.status new = Request.PENDING.
Proof.
  cbn zeta. cbn [app]. intros H0 H1 H2 H3 H4 H5 H6.
  unfold execute, and_then, perform, raise, set_user. cbn.
  rewrite H0. cbn. rewrite H1. cbn. rewrite H2. cbn. rewrite H3. cbn.
  rewrite H4. cbn. rewrite H5. cbn. rewrite H6. cbn.
  repeat split.
Qed.

(** The theorem at a user the repository knows, with every collaborator
    succeeding. *)
Lemma execute_past_the_guards_witness :
  let run := execute cooperative 7 "https://www.instagram.com/p/abc/"
                     "instagram" initial in
  fst run = Raise (AttributeError
                     "'DownloadRequest' object has no attribute 'mark_as_failed'")
  /\ requests_created (snd run) = 1%nat
  /\ analytics_created (snd run) = 0%nat
  /\ (Request.status <$> request (snd run)) = Some Request.PENDING.
Proof.
  destruct (execute_past_the_guards cooperative 7
              "https://www.instagram.com/p/abc/" "instagram" 0 (somebody 7)
              "00000000-0000-4000-8000-000000000000" 0
              (Request.new_request 0 "00000000-0000-4000-8000-000000000000" 7
                 "https://www.instagram.com/p/abc/"
                 (Some (Request.PlatformStr "instagram")))
              eq_refl eq_refl eq_refl eq_refl eq_refl eq_refl eq_refl)
    as (Hres & _ & Hreq & Han & Hcreated & _).
  split; [exact Hres|]. split; [exact Hreq|]. split; [exact Han|].
  rewrite Hcreated. reflexivity.
Defined.

End UseCaseProps.

(** ** More of the rate limiter *)

Module RateLimiterMore.

Import JsonRateLimiterService.

Lemma user_key_inj (u1 u2 : Z) : _get_user_key u1 = _get_user_key u2 -> u1 = u2.
Proof.
  unfold _get_user_key. intros H. apply (inj (String.app "user_")) in H.
  exact (inj pretty _ _ H).
Qed.

Lemma action_key_inj (a1 a2 : string) :
  _get_action_key a1 = _get_action_key a2 -> a1 = a2.
Proof.
  unfold _get_action_key. intros H. exact (inj (String.app "action_") _ _ H).
Qed.

Lemma action_key_prefix (a : string) : starts_with "action_" (_get_action_key a) = true.
Proof. reflexivity. Qed.

Lemma stored_written (data : gmap string user_data) (f : store) :
  stored (write_data data f) = data.
Proof. reflexivity. Qed.

Lemma stored_after_read (f : store) : stored (snd (_read_data f)) = stored f.
Proof.
  unfold stored, _read_data, read_data.
  destruct (text f) eqn:E; cbn; [rewrite E|]; reflexivity.
Qed.

Lemma entry_insert_eq (uid : Z) (ud : user_data) (data : gmap string user_data) :
  entry uid (<[_get_user_key uid := ud]> data) = ud.
Proof. unfold entry. rewrite lookup_insert_eq. reflexivity. Qed.

Lemma entry_insert_ne (uid uid' : Z) (ud : user_data)
    (data : gmap string user_data) :
  uid <> uid' ->
  entry uid' (<[_get_user_key uid := ud]> data) = entry uid' data.
Proof.
  intros Hne. unfold entry. rewrite lookup_insert_ne; [reflexivity|].
  intros H. apply user_key_inj in H. contradiction.
Qed.

Lemma is_user_blocked_entry now uid data :
  is_user_blocked now uid data =
  match blocked_until (entry uid data) with
  | None => false
  | Some Permanent => true
  | Some (Until block_time) => now <? block_time
  end.
Proof. reflexivity. Qed.

Lemma is_rate_limited_entry s nb now uid action data :
  is_rate_limited s nb now uid action data =
  if is_user_blocked nb uid data then true
  else match actions (entry uid data) !! _get_action_key action with
       | None => false
       | Some ad =>
           if reset_time ad <=? now then false
           else requests (get_limit_config s (entry uid data) action) <=? used ad
       end.
Proof. reflexivity. Qed.

(** The queries depend on the store only through the user's entry. *)
Lemma queries_of_entry s (uid : Z) (data1 data2 : gmap string user_data) :
  entry uid data1 = entry uid data2 ->
  forall t now action,
    is_user_blocked t uid data1 = is_user_blocked t uid data2
    /\ is_rate_limited s t now uid action data1
       = is_rate_limited s t now uid action data2
    /\ get_rate_limit_info s now uid action data1
       = get_rate_limit_info s now uid action data2.
Proof.
  intros He t now action.
  unfold get_rate_limit_info.
  rewrite !is_rate_limited_entry, !is_user_blocked_entry.
  fold (entry uid data1). fold (entry uid data2). rewrite He. repeat split.
Qed.

Lemma block_user_entry (now uid : Z) (duration : option Z) (f : store) (u : Z) :
  entry u (stored (snd (block_user now uid duration f))) =
  match block_end now duration with
  | Ok until =>
      if decide (uid = u)
      then {| actions := actions (entry uid (stored f));
              custom_limits := custom_limits (entry uid (stored f));
              blocked_until := Some until |}
      else entry u (stored f)
  | Raise _ => entry u (stored f)
  end.
Proof.
  unfold block_user. destruct (block_end now duration) as [b|e]; cbn [fst snd].
  - rewrite stored_written. fold (stored f).
    destruct (decide (uid = u)) as [<-|Hne].
    + rewrite entry_insert_eq. reflexivity.
    + apply entry_insert_ne, Hne.
  - rewrite stored_after_read. reflexivity.
Qed.

Lemma unblock_user_entry (uid : Z) (f : store) (u : Z) :
  entry u (stored (snd (unblock_user uid f))) =
  if decide (uid = u)
  then {| actions := actions (entry uid (stored f));
          custom_limits := custom_limits (entry uid (stored f));
          blocked_until := None |}
  else entry u (stored f).
Proof.
  unfold unblock_user. cbn [fst snd]. fold (stored f).
  destruct (stored f !! _get_user_key uid) as [ud|] eqn:Hud.
  - destruct (blocked_until ud) as [b|] eqn:Hb; cbn [snd].
    + rewrite stored_written. destruct (decide (uid = u)) as [<-|Hne].
      * rewrite entry_insert_eq. unfold entry. rewrite Hud. reflexivity.
      * apply entry_insert_ne, Hne.
    + destruct (decide (uid = u)) as [<-|Hne].
      * rewrite stored_after_read.
        unfold entry. rewrite Hud. cbn. destruct ud; cbn in *. congruence.
      * rewrite stored_after_read. reflexivity.
  - cbn [snd]. rewrite stored_after_read.
    destruct (decide (uid = u)) as [<-|Hne]; [|reflexivity].
    unfold entry. rewrite Hud. reflexivity.
Qed.

(** X1.  A block decides [is_user_blocked] and overrides every counter.
    [block_user] returns True for a permanent block and for a block whose
    end, the clock reading plus the given hours, is a datetime; the user is
    then blocked at a time [t] exactly when the block is permanent or [t] is
    before that end, and while blocked [is_rate_limited] is true for every
    action; the counters and custom limits of the user, and the entries of
    the other users, are as they were.  When the end of the block is no
    datetime it returns False and stores nothing. *)
Theorem block_user_blocks (s : Settings) (now uid : Z) (duration : option Z)
    (f : store) (t now' : Z) (action : string) :
  let res := fst (block_user now uid duration f) in
  let data := stored (snd (block_user now uid duration f)) in
  let stores :=
    res = true
    /\ is_user_blocked t uid data
       = match duration with
         | None => true
         | Some h => t <? now + hours h
         end
    /\ (is_user_blocked t uid data = true ->
        is_rate_limited s t now' uid action data = true)
    /\ actions (entry uid data) = actions (entry uid (stored f))
    /\ custom_limits (entry uid data) = custom_limits (entry uid (stored f))
    /\ (forall k, k <> _get_user_key uid -> data !! k = stored f !! k) in
  match duration with
  | None => stores
  | Some h =>
      if is_timedelta (hours h) && is_datetime (now + hours h) then stores
      else res = false
           /\ snd (block_user now uid duration f) = snd (_read_data f)
  end.
Proof.
  cbn zeta.
  assert (forall b,
            block_end now duration = Ok b ->
            b = match duration with
                    | None => Permanent
                    | Some h => Until (now + hours h)
                    end ->
            fst (block_user now uid duration f) = true
            /\ is_user_blocked t uid (stored (snd (block_user now uid duration f)))
               = match duration with
                 | None => true
                 | Some h => t <? now + hours h
                 end
            /\ (is_user_blocked t uid (stored (snd (block_user now uid duration f)))
                = true ->
                is_rate_limited s t now' uid action
                  (stored (snd (block_user now uid duration f))) = true)
            /\ actions (entry uid (stored (snd (block_user now uid duration f))))
               = actions (entry uid (stored f))
            /\ custom_limits
                 (entry uid (stored (snd (block_user now uid duration f))))
               = custom_limits (entry uid (stored f))
            /\ (forall k, k <> _get_user_key uid ->
                  stored (snd (block_user now uid duration f)) !! k
                  = stored f !! k)) as Hstores.
  { intros b Hend Huntil.
    split; [unfold block_user; rewrite Hend; reflexivity|].
    rewrite is_rate_limited_entry, is_user_blocked_entry.
    rewrite block_user_entry, Hend, decide_True by reflexivity.
    cbn [blocked_until actions custom_limits]. subst b.
    split; [destruct duration; reflexivity|].
    split; [intros ->; reflexivity|].
    split; [reflexivity|]. split; [reflexivity|].
    intros k Hk. unfold block_user. rewrite Hend. cbn [snd].
    rewrite stored_written. fold (stored f).
    apply lookup_insert_ne. congruence. }
  destruct duration as [h|]; [|apply (Hstores Permanent); reflexivity].
  destruct (is_timedelta (hours h) && is_datetime (now + hours h)) eqn:Hrange.
  - apply (Hstores (Until (now + hours h))); [|reflexivity].
    unfold block_end, datetime_add. rewrite Hrange. reflexivity.
  - unfold block_user, block_end, datetime_add. rewrite Hrange.
    split; reflexivity.
Qed.

(** X2.  Blocking a user who has no block and unblocking again changes no
    answer of the service: [is_user_blocked], [is_rate_limited] and
    [get_rate_limit_info] answer for every user as they did before. *)
Theorem block_then_unblock (s : Settings) (now uid : Z) (duration : option Z)
    (f : store) (uid' t now' : Z) (action : string) :
  blocked_until (entry uid (stored f)) = None ->
  let data := stored (snd (unblock_user uid (snd (block_user now uid duration f)))) in
  is_user_blocked t uid' data = is_user_blocked t uid' (stored f)
  /\ is_rate_limited s t now' uid' action data
     = is_rate_limited s t now' uid' action (stored f)
  /\ get_rate_limit_info s now' uid' action data
     = get_rate_limit_info s now' uid' action (stored f).
Proof.
  intros Hnone. cbn zeta. apply queries_of_entry.
  rewrite unblock_user_entry, !block_user_entry.
  destruct (block_end now duration) as [b|e].
  - destruct (decide (uid = uid')) as [<-|Hne]; [|reflexivity].
    rewrite decide_True by reflexivity. cbn.
    destruct (entry uid (stored f)); cbn in *. congruence.
  - destruct (decide (uid = uid')) as [<-|Hne]; [|reflexivity].
    destruct (entry uid (stored f)); cbn in *. congruence.
Qed.

(** The theorem at user 7, blocked for two hours and unblocked. *)
Lemma block_then_unblock_witness :
  let f : store := mkFile (Parsed ∅) 0 in
  blocked_until (entry 7 (stored f)) = None
  /\ is_user_blocked 5 7
       (stored (snd (unblock_user 7 (snd (block_user 0 7 (Some 2) f)))))
     = is_user_blocked 5 7 (stored f).
Proof.
  split; [reflexivity|].
  exact (proj1 (block_then_unblock default_settings 0 7 (Some 2)
                  (mkFile (Parsed ∅) 0) 7 5 5 "download" eq_refl)).
Defined.

Lemma set_custom_limit_entry (uid : Z) (action : string) (limit period : Z)
    (f : store) (u : Z) :
  entry u (stored (snd (set_custom_limit uid action limit period f))) =
  if decide (uid = u)
  then {| actions := actions (entry uid (stored f));
          custom_limits :=
            Some (<[action := {| requests := limit; period_seconds := period |}]>
                    (default ∅ (custom_limits (entry uid (stored f)))));
          blocked_until := blocked_until (entry uid (stored f)) |}
  else entry u (stored f).
Proof.
  unfold set_custom_limit. cbn [fst snd]. rewrite stored_written. fold (stored f).
  destruct (decide (uid = u)) as [<-|Hne].
  - rewrite entry_insert_eq. reflexivity.
  - apply entry_insert_ne, Hne.
Qed.

Lemma reset_user_limits_entry (uid : Z) (f : store) (u : Z) :
  entry u (stored (snd (reset_user_limits uid f))) =
  if decide (uid = u)
  then match stored f !! _get_user_key uid with
       | Some ud => {| actions := ∅;
                       custom_limits := Some (default ∅ (custom_limits ud));
                       blocked_until := blocked_until ud |}
       | None => no_data
       end
  else entry u (stored f).
Proof.
  unfold reset_user_limits. cbn [fst snd]. fold (stored f).
  destruct (stored f !! _get_user_key uid) as [ud|] eqn:Hud; cbn [snd].
  - rewrite stored_written. destruct (decide (uid = u)) as [<-|Hne].
    + apply entry_insert_eq.
    + apply entry_insert_ne, Hne.
  - rewrite stored_after_read. destruct (decide (uid = u)) as [<-|Hne];
      [|reflexivity].
    unfold entry. rewrite Hud. reflexivity.
Qed.

Lemma increment_usage_entry (s : Settings) (now uid : Z) (action : string)
    (f : store) (u : Z) :
  entry u (stored (snd (increment_usage s now uid action f))) =
  if decide (uid = u)
  then
    let ud := entry uid (stored f) in
    let limit := get_limit_config s ud action in
    let ad := default {| used := 0;
                         reset_time := now + seconds (period_seconds limit) |}
                      (actions ud !! _get_action_key action) in
    let ad := if reset_time ad <=? now
              then {| used := 0;
                      reset_time := now + seconds (period_seconds limit) |}
              else ad in
    {| actions := <[_get_action_key action :=
                      {| used := used ad + 1; reset_time := reset_time ad |}]>
                    (actions ud);
       custom_limits := custom_limits ud;
       blocked_until := blocked_until ud |}
  else entry u (stored f).
Proof.
  unfold increment_usage. cbn [fst snd]. rewrite stored_written. fold (stored f).
  fold (entry uid (stored f)).
  destruct (decide (uid = u)) as [<-|Hne].
  - rewrite entry_insert_eq. cbn zeta.
    destruct (actions (entry uid (stored f)) !! _get_action_key action);
      reflexivity.
  - apply entry_insert_ne, Hne.
Qed.

Lemma datetime_add_ok (t d e : Z) : datetime_add t d = Ok e -> e = t + d.
Proof.
  unfold datetime_add. destruct (is_timedelta d && is_datetime (t + d));
    [congruence|discriminate].
Qed.

(** X3.  A custom limit replaces the default for its user and action:
    after [set_custom_limit] the limit configuration of that action is the
    new limit and period, and [get_rate_limit_info] reports them whenever
    the action's window is open or a new window of that period ends at a
    datetime; the usage counted so far and the block stay, and
    [is_rate_limited] compares the usage with the new limit.  Other users
    are not affected. *)
Theorem set_custom_limit_applies (s : Settings) (uid : Z) (action : string)
    (limit period : Z) (f : store) (u t now : Z) (action' : string) :
  let data := stored (snd (set_custom_limit uid action limit period f)) in
  fst (set_custom_limit uid action limit period f) = true
  /\ get_limit_config s (entry uid data) action
     = {| requests := limit; period_seconds := period |}
  /\ ((exists ad, actions (entry uid data) !! _get_action_key action = Some ad
                  /\ now < reset_time ad)
      \/ (exists e, datetime_add now (seconds period) = Ok e) ->
      total_limit (get_rate_limit_info s now uid action data) = limit
      /\ info_period_seconds (get_rate_limit_info s now uid action data)
         = period)
  /\ actions (entry uid data) = actions (entry uid (stored f))
  /\ blocked_until (entry uid data) = blocked_until (entry uid (stored f))
  /\ (is_user_blocked t uid data = false ->
      forall ad, actions (entry uid data) !! _get_action_key action = Some ad ->
                 now < reset_time ad ->
                 is_rate_limited s t now uid action data = (limit <=? used ad))
  /\ (u <> uid ->
      is_rate_limited s t now u action' data
      = is_rate_limited s t now u action' (stored f)
      /\ get_rate_limit_info s now u action' data
         = get_rate_limit_info s now u action' (stored f)).
Proof.
  cbn zeta.
  assert (get_limit_config s
            (entry uid (stored (snd (set_custom_limit uid action limit period f))))
            action
          = {| requests := limit; period_seconds := period |}) as Hcfg.
  { rewrite set_custom_limit_entry, decide_True by reflexivity.
    unfold get_limit_config. cbn. rewrite lookup_insert_eq. reflexivity. }
  split; [reflexivity|]. split; [exact Hcfg|].
  split.
  { intros _. unfold get_rate_limit_info.
    fold (entry uid (stored (snd (set_custom_limit uid action limit period f)))).
    rewrite Hcfg. split; reflexivity. }
  split; [rewrite set_custom_limit_entry, decide_True by reflexivity; reflexivity|].
  split; [rewrite set_custom_limit_entry, decide_True by reflexivity; reflexivity|].
  split.
  - intros Hnb ad Had Hnow. rewrite is_rate_limited_entry, Hnb, Had, Hcfg. cbn.
    assert ((reset_time ad <=? now) = false) as -> by lia. reflexivity.
  - intros Hne.
    destruct (queries_of_entry s u
                (stored (snd (set_custom_limit uid action limit period f)))
                (stored f)) with (t := t) (now := now) (action := action')
      as (_ & H1 & H2); [|split; assumption].
    rewrite set_custom_limit_entry, decide_False by congruence. reflexivity.
Qed.

(** X4.  [reset_user_limits] clears the counters of one user and nothing
    else.  It returns True; afterwards the user has no counter left, every
    action of the user reports 0 used, the limit configuration of every
    action (custom or default) and the block are as before, and
    [is_rate_limited] answers exactly what [is_user_blocked] answers; the
    entry of every other user is untouched. *)
Theorem reset_user_limits_clears (s : Settings) (uid : Z) (f : store)
    (t now : Z) (action : string) :
  let data := stored (snd (reset_user_limits uid f)) in
  fst (reset_user_limits uid f) = true
  /\ actions (entry uid data) = ∅
  /\ info_used (get_rate_limit_info s now uid action data) = 0
  /\ get_limit_config s (entry uid data) action
     = get_limit_config s (entry uid (stored f)) action
  /\ blocked_until (entry uid data) = blocked_until (entry uid (stored f))
  /\ is_user_blocked t uid data = is_user_blocked t uid (stored f)
  /\ is_rate_limited s t now uid action data = is_user_blocked t uid (stored f)
  /\ (forall k, k <> _get_user_key uid -> data !! k = stored f !! k).
Proof.
  cbn zeta.
  assert (fst (reset_user_limits uid f) = true) as Hret.
  { unfold reset_user_limits. destruct (fst (_read_data f) !! _); reflexivity. }
  split; [exact Hret|].
  assert (forall k, k <> _get_user_key uid ->
            stored (snd (reset_user_limits uid f)) !! k = stored f !! k) as Hframe.
  { intros k Hk. unfold reset_user_limits. fold (stored f).
    destruct (stored f !! _get_user_key uid) as [ud|]; cbn [snd].
    - rewrite stored_written. apply lookup_insert_ne. congruence.
    - rewrite stored_after_read. reflexivity. }
  unfold get_rate_limit_info.
  rewrite is_rate_limited_entry, !is_user_blocked_entry.
  fold (entry uid (stored (snd (reset_user_limits uid f)))).
  fold (entry uid (stored f)).
  rewrite !reset_user_limits_entry, !decide_True by reflexivity.
  unfold entry, get_limit_config.
  destruct (stored f !! _get_user_key uid) as [ud|]; cbn.
  - rewrite lookup_empty. cbn. rewrite Z.leb_refl. cbn.
    repeat split; try reflexivity; try exact Hframe.
    destruct (blocked_until ud) as [[|block_time]|]; try reflexivity.
    destruct (t <? block_time); reflexivity.
  - rewrite lookup_empty. cbn. rewrite Z.leb_refl. cbn.
    repeat split; exact Hframe.
Qed.

(** X5.  [increment_usage] counts for one user and one action only: for any
    other user, and for any other action of the same user, [is_rate_limited]
    and [get_rate_limit_info] answer as before; and it never changes whether
    anybody is blocked. *)
Theorem increment_usage_frame (s : Settings) (now uid : Z) (action : string)
    (f : store) (uid' : Z) (action' : string) (t now' : Z) :
  uid' <> uid \/ action' <> action ->
  let data := stored (snd (increment_usage s now uid action f)) in
  is_user_blocked t uid' data = is_user_blocked t uid' (stored f)
  /\ is_rate_limited s t now' uid' action' data
     = is_rate_limited s t now' uid' action' (stored f)
  /\ get_rate_limit_info s now' uid' action' data
     = get_rate_limit_info s now' uid' action' (stored f).
Proof.
  intros Hne. cbn zeta.
  destruct (decide (uid = uid')) as [<-|Hu].
  - destruct Hne as [Hne|Hne]; [contradiction|].
    assert (_get_action_key action <> _get_action_key action') as Hk.
    { intros H. apply action_key_inj in H. congruence. }
    unfold get_rate_limit_info.
    rewrite !is_rate_limited_entry, !is_user_blocked_entry.
    fold (entry uid (stored (snd (increment_usage s now uid action f)))).
    fold (entry uid (stored f)).
    rewrite increment_usage_entry, decide_True by reflexivity.
    cbn zeta. cbn [actions custom_limits blocked_until].
    rewrite lookup_insert_ne by exact Hk.
    unfold get_limit_config. cbn [custom_limits]. repeat split.
  - apply queries_of_entry.
    rewrite increment_usage_entry, decide_False by exact Hu. reflexivity.
Qed.

(** The theorem at two users sharing one store. *)
Lemma increment_usage_frame_witness :
  let f : store := mkFile (Parsed ∅) 0 in
  (8 <> 7 \/ "download" <> "download")
  /\ is_rate_limited default_settings 1 1 8 "download"
       (stored (snd (increment_usage default_settings 0 7 "download" f)))
     = is_rate_limited default_settings 1 1 8 "download" (stored f).
Proof.
  assert (8 <> 7 \/ "download" <> "download") as H by (left; discriminate).
  split; [exact H|].
  destruct (increment_usage_frame default_settings 0 7 "download"
              (mkFile (Parsed ∅) 0) 8 "download" 1 1 H) as (_ & H1 & _).
  exact H1.
Defined.

(** X6.  The two views of a limit agree: for a user who is not blocked and
    an action whose limit is positive, [is_rate_limited] is true exactly
    when [get_rate_limit_info] reports no remaining request; the remaining
    count is never negative. *)
Theorem limited_iff_none_remaining (s : Settings) (t now uid : Z)
    (action : string) (data : gmap string user_data) :
  is_user_blocked t uid data = false ->
  0 < total_limit (get_rate_limit_info s now uid action data) ->
  (is_rate_limited s t now uid action data = true
   <-> remaining (get_rate_limit_info s now uid action data) = 0)
  /\ 0 <= remaining (get_rate_limit_info s now uid action data).
Proof.
  intros Hnb. rewrite is_rate_limited_entry, Hnb.
  unfold get_rate_limit_info. fold (entry uid data).
  cbn [total_limit remaining].
  set (limit := requests (get_limit_config s (entry uid data) action)).
  intros Hpos. clearbody limit.
  destruct (actions (entry uid data) !! _get_action_key action) as [ad|]; cbn.
  - destruct (reset_time ad <=? now) eqn:E.
    + split; [split; [discriminate|intros H; exfalso; lia]|lia].
    + rewrite Z.leb_le. split; [split|]; lia.
  - rewrite Z.leb_refl.
    split; [split; [discriminate|intros H; exfalso; lia]|lia].
Qed.

(** The theorem at a new user with the default download limit. *)
Lemma limited_iff_none_remaining_witness :
  is_user_blocked 0 7 ∅ = false
  /\ 0 < total_limit (get_rate_limit_info default_settings 0 7 "download" ∅)
  /\ 0 <= remaining (get_rate_limit_info default_settings 0 7 "download" ∅).
Proof.
  split; [reflexivity|]. split; [reflexivity|].
  exact (proj2 (limited_iff_none_remaining default_settings 0 0 7 "download" ∅
                  eq_refl eq_refl)).
Defined.

(** X7.  A use after the window has closed opens a new window.  When the
    new window's end, the clock reading plus the period, is a datetime,
    [increment_usage] returns True, the counter restarts at 1 and the window
    ends at that instant, so a user who is not blocked is not limited in the
    new window whenever the limit is above 1. *)
Theorem increment_usage_restarts (s : Settings) (now uid : Z) (action : string)
    (f : store) (ad : action_data) (reset t now' : Z) :
  actions (entry uid (stored f)) !! _get_action_key action = Some ad ->
  reset_time ad <= now ->
  datetime_add now (seconds (period_seconds
                     (get_limit_config s (entry uid (stored f)) action)))
  = Ok reset ->
  let data := stored (snd (increment_usage s now uid action f)) in
  let limit := get_limit_config s (entry uid (stored f)) action in
  fst (increment_usage s now uid action f) = true
  /\ actions (entry uid data) !! _get_action_key action
     = Some {| used := 1; reset_time := reset |}
  /\ (is_user_blocked t uid data = false -> 1 < requests limit ->
      is_rate_limited s t now' uid action data = false).
Proof.
  intros Had Hexp Hreset. cbn zeta.
  apply datetime_add_ok in Hreset.
  assert (actions (entry uid (stored (snd (increment_usage s now uid action f))))
            !! _get_action_key action
          = Some {| used := 1; reset_time := reset |})
    as Hnew.
  { rewrite increment_usage_entry, decide_True by reflexivity.
    cbn zeta. cbn [actions]. rewrite lookup_insert_eq, Had. cbn [default from_option id].
    assert ((reset_time ad <=? now) = true) as -> by lia.
    rewrite Hreset. reflexivity. }
  split; [reflexivity|].
  split; [exact Hnew|].
  intros Hnb Hlimit. rewrite is_rate_limited_entry, Hnb, Hnew.
  cbn [reset_time used].
  destruct (_ <=? now'); [reflexivity|].
  assert (get_limit_config s
            (entry uid (stored (snd (increment_usage s now uid action f)))) action
          = get_limit_config s (entry uid (stored f)) action) as ->.
  { rewrite increment_usage_entry, decide_True by reflexivity. reflexivity. }
  lia.
Qed.

(** The theorem at user 7, whose window closed at time 10. *)
Lemma increment_usage_restarts_witness :
  let f : store :=
    mkFile (Parsed {[ _get_user_key 7 :=
                        {| actions := {[ _get_action_key "download" :=
                                           {| used := 5; reset_time := 10 |} ]};
                           custom_limits := None;
                           blocked_until := None |} ]}) 0 in
  actions (entry 7 (stored f)) !! _get_action_key "download"
    = Some {| used := 5; reset_time := 10 |}
  /\ 10 <= 20
  /\ datetime_add 20 (seconds 300) = Ok 300000020
  /\ actions (entry 7 (stored (snd (increment_usage default_settings 20 7
                                      "download" f))))
       !! _get_action_key "download"
     = Some {| used := 1; reset_time := 300000020 |}.
Proof.
  cbn zeta.
  set (f := mkFile (Parsed {[ _get_user_key 7 :=
                    {| actions := {[ _get_action_key "download" :=
                                       {| used := 5; reset_time := 10 |} ]};
                       custom_limits := None;
                       blocked_until := None |} ]}) 0 : store).
  assert (10 <= 20) as Hle by lia.
  assert (actions (entry 7 (stored f)) !! _get_action_key "download"
          = Some {| used := 5; reset_time := 10 |}) as Had by reflexivity.
  assert (datetime_add 20 (seconds (period_seconds
            (get_limit_config default_settings (entry 7 (stored f)) "download")))
          = Ok 300000020) as Hreset by reflexivity.
  split; [exact Had|]. split; [exact Hle|]. split; [reflexivity|].
  destruct (increment_usage_restarts default_settings 20 7 "download" f
              {| used := 5; reset_time := 10 |} 300000020 0 0 Had Hle Hreset)
    as (_ & H & _).
  exact H.
Defined.

(** The queries read a counter only through [open_window]. *)
Lemma is_rate_limited_open s nb now uid action data :
  is_rate_limited s nb now uid action data =
  if is_user_blocked nb uid data then true
  else match actions (entry uid data) !! _get_action_key action
             ≫= open_window now with
       | None => false
       | Some ad => requests (get_limit_config s (entry uid data) action) <=? used ad
       end.
Proof.
  rewrite is_rate_limited_entry.
  destruct (is_user_blocked nb uid data); [reflexivity|].
  destruct (actions (entry uid data) !! _get_action_key action) as [ad|];
    [|reflexivity].
  cbn. unfold open_window. destruct (reset_time ad <=? now); reflexivity.
Qed.

Lemma get_rate_limit_info_open s now uid action data :
  get_rate_limit_info s now uid action data =
  let limit := get_limit_config s (entry uid data) action in
  let live := actions (entry uid data) !! _get_action_key action
              ≫= open_window now in
  let used_requests := default 0 (used <$> live) in
  {| remaining := Z.max 0 (requests limit - used_requests);
     info_reset_time :=
       default (now + seconds (period_seconds limit)) (reset_time <$> live);
     total_limit := requests limit;
     info_used := used_requests;
     info_period_seconds := period_seconds limit |}.
Proof.
  unfold get_rate_limit_info. fold (entry uid data). cbn zeta.
  destruct (actions (entry uid data) !! _get_action_key action) as [ad|]; cbn.
  - unfold open_window. destruct (reset_time ad <=? now); reflexivity.
  - rewrite Z.leb_refl. reflexivity.
Qed.

(** Entries that agree on the block at [t], on the open counter at [now]
    and on the limit give the same answers. *)
Lemma queries_of_similar_entries s (uid : Z) (action : string) (t now : Z)
    (data1 data2 : gmap string user_data) :
  is_user_blocked t uid data1 = is_user_blocked t uid data2 ->
  actions (entry uid data1) !! _get_action_key action ≫= open_window now
  = actions (entry uid data2) !! _get_action_key action ≫= open_window now ->
  get_limit_config s (entry uid data1) action
  = get_limit_config s (entry uid data2) action ->
  is_rate_limited s t now uid action data1
  = is_rate_limited s t now uid action data2
  /\ get_rate_limit_info s now uid action data1
     = get_rate_limit_info s now uid action data2.
Proof.
  intros Hb Ha Hc.
  rewrite !is_rate_limited_open, !get_rate_limit_info_open.
  cbn zeta. rewrite Hb, Ha, Hc. split; reflexivity.
Qed.

Lemma live_block_blocked (now t : Z) (b : option block) :
  now <= t ->
  match live_block now b with
  | None => false
  | Some Permanent => true
  | Some (Until block_time) => t <? block_time
  end
  = match b with
    | None => false
    | Some Permanent => true
    | Some (Until block_time) => t <? block_time
    end.
Proof.
  intros Hle. destruct b as [[|block_time]|]; cbn; try reflexivity.
  destruct (block_time <=? now) eqn:E; [|reflexivity].
  symmetry. lia.
Qed.

Lemma live_actions_lookup (now : Z) (acts : gmap string action_data)
    (action : string) :
  live_actions now acts !! _get_action_key action
  = acts !! _get_action_key action ≫= open_window now.
Proof.
  unfold live_actions. rewrite map_lookup_filter.
  destruct (acts !! _get_action_key action) as [ad|]; [|reflexivity].
  cbn. unfold action_expired, open_window. cbn [fst snd].
  rewrite action_key_prefix. cbn.
  destruct (reset_time ad <=? now).
  - rewrite option_guard_False by discriminate. reflexivity.
  - rewrite option_guard_True by reflexivity. reflexivity.
Qed.

Lemma open_window_later (now now' : Z) (o : option action_data) :
  now <= now' ->
  (o ≫= open_window now) ≫= open_window now' = o ≫= open_window now'.
Proof.
  intros Hle. destruct o as [ad|]; [|reflexivity]. cbn.
  unfold open_window at 2.
  destruct (reset_time ad <=? now) eqn:E; [|reflexivity].
  cbn. unfold open_window.
  assert ((reset_time ad <=? now') = true) as -> by lia. reflexivity.
Qed.

(** Cleaning one entry changes nothing the queries can see from the
    clean-up time on. *)
Lemma clean_user_answers s (now t now' : Z) (action : string) (ud : user_data) :
  now <= t -> now <= now' ->
  let ud' := default no_data (fst (clean_user now ud)) in
  match blocked_until ud' with
  | None => false
  | Some Permanent => true
  | Some (Until block_time) => t <? block_time
  end
  = match blocked_until ud with
    | None => false
    | Some Permanent => true
    | Some (Until block_time) => t <? block_time
    end
  /\ actions ud' !! _get_action_key action ≫= open_window now'
     = actions ud !! _get_action_key action ≫= open_window now'
  /\ get_limit_config s ud' action = get_limit_config s ud action.
Proof.
  intros Ht Hnow. cbn zeta. unfold clean_user.
  destruct (entry_is_empty _) eqn:Hempty; cbn [fst default from_option id].
  - unfold entry_is_empty in Hempty. cbn in Hempty.
    apply andb_true_iff in Hempty as [Hacts Hrest].
    apply bool_decide_eq_true in Hacts.
    pose proof (live_block_blocked now t (blocked_until ud) Ht) as Hb.
    pose proof (live_actions_lookup now (actions ud) action) as Ha.
    rewrite Hacts, lookup_empty in Ha.
    destruct (live_block now (blocked_until ud)); [discriminate|].
    split; [exact Hb|]. split.
    + cbn. rewrite lookup_empty. cbn.
      rewrite <- (open_window_later now now' _ Hnow), <- Ha. reflexivity.
    + unfold get_limit_config. cbn.
      destruct (custom_limits ud) as [custom|]; [|reflexivity].
      apply bool_decide_eq_true in Hrest. subst custom. reflexivity.
  - cbn. split; [apply live_block_blocked, Ht|]. split; [|reflexivity].
    rewrite live_actions_lookup. apply open_window_later, Hnow.
Qed.

Lemma cleanup_stored (now : Z) (f : store) :
  stored (snd (cleanup_expired_limits now f))
  = omap (fun ud => fst (clean_user now ud)) (stored f)
  \/ stored (snd (cleanup_expired_limits now f)) = stored f.
Proof.
  unfold cleanup_expired_limits. destruct (0 <? _)%nat; cbn [snd].
  - left. reflexivity.
  - right. apply stored_after_read.
Qed.

(** X8.  [cleanup_expired_limits] is invisible to the queries: from the
    clean-up time on, [is_user_blocked], [is_rate_limited] and
    [get_rate_limit_info] answer for every user and action exactly as they
    would have without it.  In particular a permanent block, a block that
    has not ended and a custom limit are never lost. *)
Theorem cleanup_keeps_answers (s : Settings) (now : Z) (f : store)
    (uid : Z) (action : string) (t now' : Z) :
  now <= t -> now <= now' ->
  let data := stored (snd (cleanup_expired_limits now f)) in
  is_user_blocked t uid data = is_user_blocked t uid (stored f)
  /\ is_rate_limited s t now' uid action data
     = is_rate_limited s t now' uid action (stored f)
  /\ get_rate_limit_info s now' uid action data
     = get_rate_limit_info s now' uid action (stored f).
Proof.
  intros Ht Hnow. cbn zeta.
  destruct (cleanup_stored now f) as [-> | ->]; [|repeat split].
  assert (entry uid (omap (fun ud => fst (clean_user now ud)) (stored f))
          = match stored f !! _get_user_key uid with
            | Some ud => default no_data (fst (clean_user now ud))
            | None => no_data
            end) as He.
  { unfold entry. rewrite lookup_omap.
    destruct (stored f !! _get_user_key uid); reflexivity. }
  assert (is_user_blocked t uid (omap (fun ud => fst (clean_user now ud)) (stored f))
          = is_user_blocked t uid (stored f)) as Hb.
  { rewrite !is_user_blocked_entry, He. unfold entry.
    destruct (stored f !! _get_user_key uid) as [ud|]; [|reflexivity].
    exact (proj1 (clean_user_answers s now t now' action ud Ht Hnow)). }
  split; [exact Hb|].
  apply queries_of_similar_entries; [exact Hb| |]; rewrite He; unfold entry;
    destruct (stored f !! _get_user_key uid) as [ud|]; try reflexivity.
  - exact (proj1 (proj2 (clean_user_answers s now t now' action ud Ht Hnow))).
  - exact (proj2 (proj2 (clean_user_answers s now t now' action ud Ht Hnow))).
Qed.

(** The theorem at a store with a closed window and an ended block. *)
Lemma cleanup_keeps_answers_witness :
  let f : store :=
    mkFile (Parsed {[ _get_user_key 7 :=
                        {| actions := {[ _get_action_key "download" :=
                                           {| used := 5; reset_time := 10 |} ]};
                           custom_limits := None;
                           blocked_until := Some (Until 15) |} ]}) 0 in
  20 <= 30
  /\ fst (cleanup_expired_limits 20 f) = 3%nat
  /\ is_rate_limited default_settings 30 30 7 "download"
       (stored (snd (cleanup_expired_limits 20 f)))
     = is_rate_limited default_settings 30 30 7 "download" (stored f).
Proof.
  cbn zeta.
  assert (20 <= 30) as Hle by lia.
  split; [exact Hle|]. split; [vm_compute; reflexivity|].
  exact (proj1 (proj2 (cleanup_keeps_answers default_settings 20 _ 7 "download"
                         30 30 Hle Hle))).
Defined.

Lemma read_data_twice (f : store) :
  _read_data (snd (_read_data f)) = (fst (_read_data f), snd (_read_data f)).
Proof.
  unfold _read_data, read_data.
  destruct (text f) eqn:E; cbn; [rewrite E|]; reflexivity.
Qed.

Lemma live_actions_twice (now : Z) (acts : gmap string action_data) :
  live_actions now (live_actions now acts) = live_actions now acts.
Proof.
  unfold live_actions at 1. apply map_filter_id.
  intros k ad H. unfold live_actions in H.
  apply map_lookup_filter_Some in H as [_ H]. exact H.
Qed.

Lemma live_block_twice (now : Z) (b : option block) :
  live_block now (live_block now b) = live_block now b.
Proof.
  destruct b as [[|block_time]|]; cbn; try reflexivity.
  destruct (block_time <=? now) eqn:E; cbn; [reflexivity|].
  rewrite E. reflexivity.
Qed.

(** An entry that survived the clean-up has nothing left to clean. *)
Lemma clean_user_fixed (now : Z) (ud ud' : user_data) :
  fst (clean_user now ud) = Some ud' -> clean_user now ud' = (Some ud', 0%nat).
Proof.
  unfold clean_user at 1.
  destruct (entry_is_empty _) eqn:Hempty; cbn [fst]; [discriminate|].
  intros [= <-]. unfold clean_user. cbn [actions custom_limits blocked_until].
  rewrite live_actions_twice, live_block_twice, Hempty, Nat.sub_diag.
  destruct (live_block now (blocked_until ud)); cbn; destruct ud; reflexivity.
Qed.

Lemma nothing_to_clean (now : Z) (data : gmap string user_data) :
  (forall k ud, data !! k = Some ud -> snd (clean_user now ud) = 0%nat) ->
  map_fold (fun _ ud n => (n + snd (clean_user now ud))%nat) 0%nat data = 0%nat.
Proof.
  apply (map_fold_weak_ind
           (fun (r : nat) (m : gmap string user_data) =>
              (forall k ud, m !! k = Some ud -> snd (clean_user now ud) = 0%nat)
              -> r = 0%nat)); [reflexivity|].
  intros i x m r Hnone IH Hall.
  assert (snd (clean_user now x) = 0%nat) as Hx
    by (apply (Hall i), lookup_insert_eq).
  assert (r = 0%nat) as Hr.
  { apply IH. intros k ud Hk. apply (Hall k).
    rewrite lookup_insert_ne; [exact Hk|]. intros <-. congruence. }
  lia.
Qed.

(** X9.  [cleanup_expired_limits] is idempotent: a second clean-up at the
    same time finds nothing to delete, returns 0 and does not write. *)
Theorem cleanup_twice (now : Z) (f : store) :
  cleanup_expired_limits now (snd (cleanup_expired_limits now f))
  = (0%nat, snd (cleanup_expired_limits now f)).
Proof.
  unfold cleanup_expired_limits at 2 3.
  destruct (0 <? _)%nat eqn:Hcount; cbn [snd].
  - unfold cleanup_expired_limits. cbn [_read_data read_data text write_data fst snd].
    rewrite (nothing_to_clean now
               (omap (fun ud => fst (clean_user now ud)) (fst (_read_data f))));
      [reflexivity|].
    intros k ud' Hk. apply lookup_omap_Some in Hk as (ud & Hud & _).
    rewrite (clean_user_fixed now ud ud' Hud). reflexivity.
  - unfold cleanup_expired_limits. rewrite read_data_twice. cbn [fst snd].
    rewrite Hcount. apply Nat.ltb_ge in Hcount.
    f_equal. lia.
Qed.

(** X24.  Waiting lifts the limit.  [get_time_until_reset] always answers,
    with a wait that is never negative; for a user who is not blocked, the
    action is not limited any more once that wait has passed, and a user who
    is limited now is told a wait that is positive. *)
Theorem waiting_lifts_the_limit (s : Settings) (now_info now : Z) (uid : Z)
    (action : string) (data : gmap string user_data) :
  now_info <= now ->
  exists w,
    get_time_until_reset s now_info now uid action data = Some w
    /\ 0 <= w
    /\ (forall t later,
          is_user_blocked t uid data = false ->
          now + w <= later ->
          is_rate_limited s t later uid action data = false)
    /\ (forall t,
          is_user_blocked t uid data = false ->
          is_rate_limited s t now uid action data = true ->
          0 < w).
Proof.
  intros Hclock. unfold get_time_until_reset.
  rewrite get_rate_limit_info_open. cbn zeta. cbn [info_reset_time].
  set (limit := get_limit_config s (entry uid data) action).
  set (reset := default (now_info + seconds (period_seconds limit)) _).
  assert (forall ad,
            actions (entry uid data) !! _get_action_key action = Some ad ->
            reset_time ad <= now_info \/ reset = reset_time ad) as Hkey.
  { intros ad Had. unfold reset. rewrite Had. cbn [mbind option_bind].
    unfold open_window.
    destruct (Z.leb_spec (reset_time ad) now_info); [left; lia|right; reflexivity]. }
  assert (forall t later,
            is_user_blocked t uid data = false ->
            is_rate_limited s t later uid action data = true ->
            exists ad,
              actions (entry uid data) !! _get_action_key action = Some ad
              /\ later < reset_time ad) as Hlim.
  { intros t later Hb. rewrite is_rate_limited_entry, Hb.
    destruct (actions (entry uid data) !! _get_action_key action) as [ad|];
      [|discriminate].
    destruct (Z.leb_spec (reset_time ad) later); [discriminate|].
    intros _. exists ad. split; [reflexivity|lia]. }
  clearbody reset.
  exists (if now <? reset then reset - now else 0).
  split; [destruct (now <? reset); reflexivity|].
  destruct (Z.ltb_spec now reset) as [Hlt|Hge].
  - split; [lia|]. split; [|intros; lia].
    intros t later Hb Hl.
    destruct (is_rate_limited s t later uid action data) eqn:E; [|reflexivity].
    exfalso. destruct (Hlim t later Hb E) as (ad & Had & Hlater).
    destruct (Hkey ad Had); lia.
  - split; [lia|]. split.
    + intros t later Hb Hl.
      destruct (is_rate_limited s t later uid action data) eqn:E; [|reflexivity].
      exfalso. destruct (Hlim t later Hb E) as (ad & Had & Hlater).
      destruct (Hkey ad Had); lia.
    + intros t Hb E. exfalso. destruct (Hlim t now Hb E) as (ad & Had & Hlater).
      destruct (Hkey ad Had); lia.
Qed.

(** The theorem at a user who has used up the five downloads of a window
    that closes at 300 s, asked at 100 s. *)
Lemma waiting_lifts_the_limit_witness :
  let ad := {| used := 5; reset_time := 300000000 |} in
  let ud := {| actions := {[ _get_action_key "download" := ad ]};
               custom_limits := None; blocked_until := None |} in
  let data : gmap string user_data := {[ _get_user_key 7 := ud ]} in
  100000000 <= 100000000
  /\ exists w, get_time_until_reset default_settings 100000000 100000000 7
                 "download" data = Some w
               /\ 0 <= w.
Proof.
  cbn zeta.
  assert (100000000 <= 100000000) as H by lia.
  split; [exact H|].
  destruct (waiting_lifts_the_limit default_settings 100000000 100000000 7
              "download"
              {[ _get_user_key 7 :=
                   {| actions := {[ _get_action_key "download" :=
                                      {| used := 5; reset_time := 300000000 |} ]};
                      custom_limits := None; blocked_until := None |} ]} H)
    as (w & Hw & Hpos & _).
  exists w. split; [exact Hw|exact Hpos].
Defined.

End RateLimiterMore.

(** ** More of the adapters and the dispatcher *)

Module DispatchMore.

Import Re Downloader ReProps.

Lemma matches_seq_lit w rs s k :
  matches (seq (lit w :: rs)) s k = true ->
  exists s', s = w +:+ s' /\ matches (seq rs) s' k = true.
Proof. cbn [seq matches]. apply matches_lit. Qed.

Lemma matches_seq_chr c rs s k :
  matches (seq (Chr c :: rs)) s k = true ->
  exists s', s = String c s' /\ matches (seq rs) s' k = true.
Proof.
  cbn [seq matches]. destruct s as [|a s]; [discriminate|].
  intros [Ha H]%andb_true_iff. apply Ascii.eqb_eq in Ha as ->. eauto.
Qed.

Lemma matches_seq_opt r rs s k :
  matches (seq (Opt r :: rs)) s k = true ->
  matches (seq (r :: rs)) s k = true \/ matches (seq rs) s k = true.
Proof. cbn [seq matches]. apply orb_true_iff. Qed.

Lemma matches_seq_alt r1 r2 rs s k :
  matches (seq (Alt r1 r2 :: rs)) s k = true ->
  matches (seq (r1 :: rs)) s k = true \/ matches (seq (r2 :: rs)) s k = true.
Proof. cbn [seq matches]. apply orb_true_iff. Qed.

Ltac dig H :=
  unfold scheme, www in H; cbn [app] in H;
  repeat first
    [ apply matches_seq_lit in H as (? & -> & H)
    | apply matches_seq_chr in H as (? & -> & H)
    | apply matches_seq_opt in H as [H|H]
    | apply matches_seq_alt in H as [H|H] ].

Lemma instagram_begins (u : string) :
  any_match instagram_patterns u = true ->
  starts_with_any instagram_prefixes u = true.
Proof.
  unfold any_match, instagram_patterns. cbn [existsb].
  rewrite !orb_true_iff. unfold re_match.
  intros [H|[H|[H|[H|[H|H]]]]]; [| | | | |discriminate H];
    dig H; vm_compute; reflexivity.
Qed.

Lemma tiktok_begins (u : string) :
  any_match tiktok_patterns u = true ->
  starts_with_any tiktok_prefixes u = true.
Proof.
  unfold any_match, tiktok_patterns. cbn [existsb].
  rewrite !orb_true_iff. unfold re_match.
  intros [H|[H|[H|[H|H]]]]; [| | | |discriminate H];
    dig H; vm_compute; reflexivity.
Qed.

Lemma starts_with_comparable (p : string) : forall q u,
  starts_with p u = true -> starts_with q u = true ->
  starts_with p q = true \/ starts_with q p = true.
Proof.
  induction p as [|a p IH]; intros q u Hp Hq; [left; reflexivity|].
  destruct q as [|b q]; [right; reflexivity|].
  destruct u as [|c u]; [discriminate|]. cbn in *.
  apply andb_true_iff in Hp as [Ha Hp]. apply andb_true_iff in Hq as [Hb Hq].
  apply Ascii.eqb_eq in Ha as ->. apply Ascii.eqb_eq in Hb as ->.
  rewrite Ascii.eqb_refl. cbn. exact (IH q u Hp Hq).
Qed.

Lemma prefixes_comparable (ps qs : list string) (u : string) :
  starts_with_any ps u = true -> starts_with_any qs u = true ->
  existsb (fun p => existsb (fun q => starts_with p q || starts_with q p) qs) ps
  = true.
Proof.
  unfold starts_with_any. rewrite !existsb_exists.
  intros (p & Hp & Hpu) (q & Hq & Hqu). exists p. split; [exact Hp|].
  apply existsb_exists. exists q. split; [exact Hq|].
  apply orb_true_iff. exact (starts_with_comparable p q u Hpu Hqu).
Qed.

Lemma never_both (u : string) :
  any_match instagram_patterns u && any_match tiktok_patterns u = false.
Proof.
  destruct (any_match instagram_patterns u) eqn:Hi; [|reflexivity].
  destruct (any_match tiktok_patterns u) eqn:Ht; [|reflexivity].
  pose proof (prefixes_comparable _ _ u (instagram_begins u Hi) (tiktok_begins u Ht))
    as H.
  vm_compute in H. discriminate H.
Qed.

(** X10.  Dispatch between the two adapters is unambiguous: no URL is
    recognised by both, so the handler the dispatcher resolves does not
    depend on the order in which they are registered, and
    [get_platform_for_url] names instagram exactly for the URLs the
    Instagram patterns match and tiktok exactly for those the TikTok
    patterns match. *)
Theorem dispatch_unambiguous (net : network) (u : string) :
  any_match instagram_patterns u && any_match tiktok_patterns u = false
  /\ CompositeDownloaderService.resolved_class
       [TikTokDownloaderService net; InstagramDownloaderService net] u
     = CompositeDownloaderService.resolved_class
         (CompositeDownloaderService.registered net) u
  /\ CompositeDownloaderService.get_platform_for_url
       (CompositeDownloaderService.registered net) u
     = (if any_match instagram_patterns u then Some "instagram"
        else if any_match tiktok_patterns u then Some "tiktok"
        else None)
  /\ CompositeDownloaderService.get_platform_for_url
       [TikTokDownloaderService net; InstagramDownloaderService net] u
     = CompositeDownloaderService.get_platform_for_url
         (CompositeDownloaderService.registered net) u.
Proof.
  pose proof (never_both u) as Hnb. split; [exact Hnb|].
  unfold CompositeDownloaderService.resolved_class,
    CompositeDownloaderService.get_platform_for_url,
    CompositeDownloaderService.registered.
  cbn [CompositeDownloaderService._get_handler].
  change (can_handle (InstagramDownloaderService net) u)
    with (any_match instagram_patterns u).
  change (can_handle (TikTokDownloaderService net) u)
    with (any_match tiktok_patterns u).
  destruct (any_match instagram_patterns u), (any_match tiktok_patterns u);
    try discriminate Hnb; repeat split.
Qed.

(** X11.  The handler is the first registered adapter that recognises the
    URL: [can_handle] is true exactly when [_get_handler] finds one, every
    adapter registered before the handler rejects the URL, and the
    delegating operations return what the handler's operations return. *)
Theorem handler_is_first_match (downloaders : list DownloaderService)
    (u : string) :
  (CompositeDownloaderService.can_handle downloaders u = true
   <-> is_Some (CompositeDownloaderService._get_handler downloaders u))
  /\ (forall handler,
        CompositeDownloaderService._get_handler downloaders u = Some handler ->
        can_handle handler u = true
        /\ (exists before after,
              downloaders = (before ++ handler :: after)%list
              /\ Forall (fun d => can_handle d u = false) before)
        /\ CompositeDownloaderService.extract_media_info downloaders u
           = extract_media_info handler u
        /\ CompositeDownloaderService.get_media_metadata downloaders u
           = get_media_metadata handler u
        /\ CompositeDownloaderService.validate_url downloaders u
           = validate_url handler u
        /\ (forall request, Request.url request = u ->
              CompositeDownloaderService.download_media downloaders request
              = download_media handler request)).
Proof.
  split.
  - induction downloaders as [|d ds IH]; cbn.
    + split; [discriminate|intros [? [=]]].
    + destruct (can_handle d u); [split; eauto|exact IH].
  - intros handler Hh.
    unfold CompositeDownloaderService.extract_media_info,
      CompositeDownloaderService.get_media_metadata,
      CompositeDownloaderService.validate_url,
      CompositeDownloaderService.download_media.
    rewrite Hh.
    assert (can_handle handler u = true
            /\ exists before after,
                 downloaders = (before ++ handler :: after)%list
                 /\ Forall (fun d => can_handle d u = false) before) as [Hc Hex].
    { clear -Hh. induction downloaders as [|d ds IH]; cbn in Hh; [discriminate|].
      destruct (can_handle d u) eqn:Hd.
      - injection Hh as <-. split; [exact Hd|]. exists [], ds. split; [reflexivity|constructor].
      - destruct (IH Hh) as (Hc & before & after & -> & Hall).
        split; [exact Hc|]. exists (d :: before), after.
        split; [reflexivity|constructor; assumption]. }
    repeat split; try assumption.
    intros request ->. rewrite Hh. reflexivity.
Qed.

(** X12.  A downloader added later is consulted last: [add_downloader]
    leaves the handler of every URL that already had one, becomes the
    handler of exactly the other URLs it recognises, and the count of
    registered downloaders grows by one. *)
Theorem add_downloader_is_last (downloaders : list DownloaderService)
    (d : DownloaderService) (u : string) :
  CompositeDownloaderService._get_handler
    (CompositeDownloaderService.add_downloader downloaders d) u
  = match CompositeDownloaderService._get_handler downloaders u with
    | Some handler => Some handler
    | None => if can_handle d u then Some d else None
    end
  /\ CompositeDownloaderService.can_handle
       (CompositeDownloaderService.add_downloader downloaders d) u
     = CompositeDownloaderService.can_handle downloaders u || can_handle d u
  /\ CompositeDownloaderService.get_downloader_count
       (CompositeDownloaderService.add_downloader downloaders d)
     = S (CompositeDownloaderService.get_downloader_count downloaders).
Proof.
  unfold CompositeDownloaderService.add_downloader,
    CompositeDownloaderService.get_downloader_count.
  split; [|split].
  - induction downloaders as [|d0 ds IH]; cbn; [reflexivity|].
    destruct (can_handle d0 u); [reflexivity|exact IH].
  - induction downloaders as [|d0 ds IH]; cbn.
    + destruct (can_handle d u); reflexivity.
    + destruct (can_handle d0 u); [reflexivity|exact IH].
  - rewrite length_app. cbn. lia.
Qed.

End DispatchMore.

(** ** More of the download request entity *)

Module RequestMore.

Import Request.

Lemma run_ops_cons (r : DownloadRequest) (o : request_op) (ops : list request_op) :
  run_ops r (o :: ops) = run_ops (apply_op r o) ops.
Proof. reflexivity. Qed.

(** No operation touches the fields that identify the request. *)
Lemma apply_op_identity (r : DownloadRequest) (o : request_op) :
  id (apply_op r o) = id r /\ user_id (apply_op r o) = user_id r
  /\ url (apply_op r o) = url r /\ platform (apply_op r o) = platform r
  /\ created_at (apply_op r o) = created_at r
  /\ max_retries (apply_op r o) = max_retries r.
Proof.
  destruct o; cbn; try (repeat split; reflexivity).
  unfold increment_retry. destruct (can_retry r); repeat split; reflexivity.
Qed.

Lemma run_ops_identity (ops : list request_op) : forall r,
  id (run_ops r ops) = id r /\ user_id (run_ops r ops) = user_id r
  /\ url (run_ops r ops) = url r /\ platform (run_ops r ops) = platform r
  /\ created_at (run_ops r ops) = created_at r
  /\ max_retries (run_ops r ops) = max_retries r.
Proof.
  induction ops as [|o ops IH]; intros r; [repeat split; reflexivity|].
  rewrite run_ops_cons.
  destruct (IH (apply_op r o)) as (-> & -> & -> & -> & -> & ->).
  apply apply_op_identity.
Qed.

(** X13.  The operations of a request never change what identifies it: its
    id, user, URL, platform and creation time are those it was constructed
    with, whatever sequence of operations is applied, and [max_retries]
    stays 3. *)
Theorem operations_keep_identity (now : Z) (rid : string) (uid : Z)
    (u : string) (p : option platform_attr) (ops : list request_op) :
  let r := run_ops (new_request now rid uid u p) ops in
  id r = rid /\ user_id r = uid /\ url r = u
  /\ platform r = platform (new_request now rid uid u p)
  /\ created_at r = Some now
  /\ max_retries r = 3.
Proof.
  cbn zeta.
  destruct (run_ops_identity ops (new_request now rid uid u p))
    as (-> & -> & -> & -> & -> & ->).
  repeat split.
Qed.

Lemma apply_op_retry_count (r : DownloadRequest) (o : request_op) :
  retry_count r <= max_retries r ->
  retry_count r <= retry_count (apply_op r o) <= max_retries (apply_op r o)
  /\ retry_count (apply_op r o)
     <= retry_count r + retries [o].
Proof.
  intros Hle. unfold retries.
  destruct o; cbn; try lia.
  unfold increment_retry, can_retry.
  destruct (Z.ltb_spec (retry_count r) (max_retries r)); cbn; [|lia].
  destruct (bool_decide (status r = FAILED)); cbn; lia.
Qed.

Lemma run_ops_retry_count (ops : list request_op) : forall r,
  retry_count r <= max_retries r ->
  retry_count r <= retry_count (run_ops r ops) <= max_retries (run_ops r ops)
  /\ retry_count (run_ops r ops) <= retry_count r + retries ops.
Proof.
  induction ops as [|o ops IH]; intros r Hle.
  - cbn. unfold retries. cbn. lia.
  - rewrite run_ops_cons.
    destruct (apply_op_retry_count r o Hle) as [[H1 H2] H3].
    destruct (IH (apply_op r o) ltac:(lia)) as [[H4 H5] H6].
    assert (retries (o :: ops) = retries [o] + retries ops) as ->.
    { unfold retries. destruct o; cbn [List.filter List.length]; lia. }
    lia.
Qed.

(** X14.  Retries are bounded: on a request reachable from a newly
    constructed one, [retry_count] is between 0 and [max_retries] (3), never
    decreases, and is at most the number of [increment_retry] calls made. *)
Theorem retry_count_bounded (now : Z) (rid : string) (uid : Z) (u : string)
    (p : option platform_attr) (ops more : list request_op) :
  let r := run_ops (new_request now rid uid u p) ops in
  0 <= retry_count r <= 3
  /\ retry_count r <= retries ops
  /\ retry_count r <= retry_count (run_ops r more).
Proof.
  cbn zeta.
  destruct (run_ops_retry_count ops (new_request now rid uid u p))
    as [[H1 H2] H3]; [cbn; lia|].
  destruct (run_ops_identity ops (new_request now rid uid u p))
    as (_ & _ & _ & _ & _ & Hmax).
  rewrite Hmax in H2. cbn in H1, H2, H3.
  destruct (run_ops_retry_count more
              (run_ops (new_request now rid uid u p) ops))
    as [[H4 _] _]; [rewrite Hmax; cbn; lia|].
  lia.
Qed.

Lemma apply_op_status_consistent (r : DownloadRequest) (o : request_op) :
  status_consistent r -> status_consistent (apply_op r o).
Proof.
  unfold status_consistent. intros Hr.
  destruct o; cbn; eauto.
  unfold increment_retry, can_retry.
  destruct (retry_count r <? max_retries r); cbn; [|exact Hr].
  destruct (bool_decide (status r = FAILED)); cbn; [repeat split|exact Hr].
Qed.

Lemma run_ops_status_consistent (ops : list request_op) : forall r,
  status_consistent r -> status_consistent (run_ops r ops).
Proof.
  induction ops as [|o ops IH]; intros r Hr; [exact Hr|].
  rewrite run_ops_cons. apply IH, apply_op_status_consistent, Hr.
Qed.

(** X15.  The status of a reachable request tells which fields are set: a
    pending request has no start time, no completion time and no error
    message; a processing one has a start time; a completed, failed or
    cancelled one has a completion time, and a failed one an error message. *)
Theorem status_tells_fields (now : Z) (rid : string) (uid : Z) (u : string)
    (p : option platform_attr) (ops : list request_op) :
  status_consistent (run_ops (new_request now rid uid u p) ops).
Proof.
  apply run_ops_status_consistent. cbn. repeat split.
Qed.

End RequestMore.

(** ** More of the translation service *)

Module TranslationMore.

Import JsonTranslationService.

(** The loop of [reload_translations], from any cache. *)
Lemma load_all_cache (langs : list string) : forall (st : service) (lang : string),
  let st' := fold_left (fun st language => snd (_load_language language st))
                       langs st in
  locale_files st' = locale_files st
  /\ _translations st' !! lang =
     if bool_decide (lang ∈ langs) then
       match locale_files st !! lang with
       | Some d => Some d
       | None => _translations st !! lang
       end
     else _translations st !! lang.
Proof.
  induction langs as [|l langs IH]; intros st lang; cbn zeta.
  - split; reflexivity.
  - cbn [fold_left].
    destruct (IH (snd (_load_language l st)) lang) as [Hf Hc].
    rewrite Hf, Hc. clear IH Hf Hc.
    assert (locale_files (snd (_load_language l st)) = locale_files st) as Hfiles.
    { unfold _load_language. destruct (locale_files st !! l); reflexivity. }
    rewrite Hfiles. split; [reflexivity|].
    destruct (decide (lang = l)) as [->|Hne].
    + rewrite (bool_decide_eq_true_2 (l ∈ l :: langs)) by left.
      unfold _load_language.
      destruct (locale_files st !! l) as [d|] eqn:Hl; cbn.
      * rewrite lookup_insert_eq. destruct (bool_decide (l ∈ langs)); reflexivity.
      * destruct (bool_decide (l ∈ langs)); reflexivity.
    + assert (_translations (snd (_load_language l st)) !! lang
              = _translations st !! lang) as ->.
      { unfold _load_language. destruct (locale_files st !! l); cbn;
          [rewrite lookup_insert_ne by congruence|]; reflexivity. }
      assert (bool_decide (lang ∈ l :: langs) = bool_decide (lang ∈ langs)) as ->.
      { apply bool_decide_ext. rewrite elem_of_cons. tauto. }
      reflexivity.
Qed.

Lemma dictionary_reload (settings : Settings) (st : service) (lang : string) :
  dictionary lang (snd (reload_translations settings st))
  = default ∅ (locale_files st !! lang).
Proof.
  unfold reload_translations, dictionary. cbn [snd].
  match goal with
  | |- context [fold_left ?f ?l ?s] =>
      destruct (load_all_cache l s lang) as [Hf Hc]
  end.
  cbn zeta in Hf, Hc. rewrite Hc, Hf. cbn [locale_files _translations].
  rewrite lookup_empty.
  destruct (bool_decide (lang ∈ SUPPORTED_LANGUAGES settings)),
    (locale_files st !! lang); reflexivity.
Qed.

Lemma add_translation_supported (settings : Settings) (key lang text' : string)
    (st : service) :
  lang ∈ SUPPORTED_LANGUAGES settings ->
  add_translation settings key lang text' st =
  (true,
   {| _translations :=
        <[lang := <[key := text']> (dictionary lang st)]>
          (_translations (ensure_loaded lang st));
      locale_files :=
        <[lang := <[key := text']> (dictionary lang st)]> (locale_files st) |}).
Proof.
  intros Hl. unfold add_translation, supported.
  rewrite bool_decide_eq_true_2 by exact Hl. cbn [negb].
  rewrite TranslationProps.loaded_ensure_loaded.
  assert (locale_files (ensure_loaded lang st) = locale_files st) as ->; [|reflexivity].
  unfold ensure_loaded, _load_language.
  destruct (_translations st !! lang); [reflexivity|].
  destruct (locale_files st !! lang); reflexivity.
Qed.

Section Format.

Variable format : string -> list (string * string) -> result string.

(** X16.  [add_translation] writes through.  For a supported language it
    returns True; [get_text] of the key in that language then answers the
    added text; the language's dictionary is the old one with the key set,
    and its file holds exactly that dictionary; the dictionaries of the
    other languages are unchanged; and the text is still answered after
    [reload_translations].  For an unsupported language it returns False
    and changes neither cache nor files. *)
Theorem add_translation_writes_through (key lang text' : string) (st : service) :
  (lang ∈ SUPPORTED_LANGUAGES default_settings ->
   let st' := snd (add_translation default_settings key lang text' st) in
   fst (add_translation default_settings key lang text' st) = true
   /\ fst (get_text default_settings format key lang [] st') = text'
   /\ dictionary lang st' = <[key := text']> (dictionary lang st)
   /\ locale_files st' !! lang = Some (dictionary lang st')
   /\ (forall l, l <> lang -> dictionary l st' = dictionary l st)
   /\ fst (get_text default_settings format key lang []
             (snd (reload_translations default_settings st'))) = text')
  /\ (lang ∉ SUPPORTED_LANGUAGES default_settings ->
      add_translation default_settings key lang text' st = (false, st)).
Proof.
  split.
  - intros Hl. cbn zeta.
    rewrite (add_translation_supported default_settings) by exact Hl.
    cbn [fst snd].
    set (d := <[key := text']> (dictionary lang st)).
    set (st' := {| _translations := _; locale_files := _ |}).
    assert (dictionary lang st' = d) as Hd.
    { unfold dictionary, st'. cbn [_translations]. rewrite lookup_insert_eq.
      reflexivity. }
    split; [reflexivity|].
    split.
    { rewrite (TranslationProps.get_text_supported format) by exact Hl.
      rewrite Hd. unfold d. rewrite lookup_insert_eq. reflexivity. }
    split; [exact Hd|].
    split.
    { rewrite Hd. unfold st'. cbn [locale_files]. apply lookup_insert_eq. }
    split.
    { intros l Hne.
      rewrite <- (TranslationProps.dictionary_ensure_loaded l lang st).
      unfold dictionary, st'. cbn [_translations locale_files].
      rewrite !lookup_insert_ne by congruence.
      assert (locale_files (ensure_loaded lang st) = locale_files st) as ->;
        [|reflexivity].
      unfold ensure_loaded, _load_language.
      destruct (_translations st !! lang); [reflexivity|].
      destruct (locale_files st !! lang); reflexivity. }
    rewrite (TranslationProps.get_text_supported format) by exact Hl.
    rewrite dictionary_reload. unfold st' at 1. cbn [locale_files].
    rewrite lookup_insert_eq. cbn [default from_option id]. unfold d.
    rewrite lookup_insert_eq. reflexivity.
  - intros Hl. unfold add_translation, supported.
    rewrite bool_decide_eq_false_2 by exact Hl. reflexivity.
Qed.

(** X17.  [reload_translations] drops what the cache held and answers from
    the files: it returns True and changes no file; afterwards the cache
    holds, for each supported language whose file can be loaded, exactly
    that file, and nothing else; so [get_all_translations] returns the
    file's dictionary (empty without a file), whatever was cached before. *)
Theorem reload_answers_from_files (st : service) (lang : string) :
  let st' := snd (reload_translations default_settings st) in
  fst (reload_translations default_settings st) = true
  /\ locale_files st' = locale_files st
  /\ _translations st' !! lang =
     (if bool_decide (lang ∈ SUPPORTED_LANGUAGES default_settings)
      then locale_files st !! lang else None)
  /\ fst (get_all_translations lang st') = default ∅ (locale_files st !! lang).
Proof.
  cbn zeta. split; [reflexivity|].
  unfold reload_translations at 1 2. cbn [snd].
  match goal with
  | |- context [fold_left ?f ?l ?s] =>
      destruct (load_all_cache l s lang) as [Hf Hc]
  end.
  cbn zeta in Hf, Hc.
  split; [exact Hf|].
  split.
  { rewrite Hc. cbn [locale_files _translations]. rewrite lookup_empty.
    destruct (bool_decide (lang ∈ SUPPORTED_LANGUAGES default_settings)),
      (locale_files st !! lang); reflexivity. }
  unfold get_all_translations. cbn [fst].
  rewrite TranslationProps.loaded_ensure_loaded.
  apply dictionary_reload.
Qed.

End Format.

End TranslationMore.

Module RepositoryMore.

Import JsonDownloadRequestRepository.

Lemma as_str_list_strings (l : list string) : as_str_list (JStr <$> l) = Ok l.
Proof.
  induction l as [|s l IH]; [reflexivity|].
  cbn [fmap list_fmap as_str_list as_str]. 
  change (list_fmap string json JStr l) with (JStr <$> l).
  rewrite IH. reflexivity.
Qed.

Lemma status_of_value_status_value (s : Request.DownloadStatus) :
  status_of_value (JStr (status_value s)) = Ok s.
Proof. destruct s; reflexivity. Qed.

Lemma if_truthy_time (d : gmap string json) (key : string) (o : option Z) :
  d !! key = Some (json_option JTime o) ->
  if_truthy fromisoformat d key = Ok o.
Proof. intros H. unfold if_truthy. rewrite H. destruct o; reflexivity. Qed.

Lemma as_optional_option {A} (inj : A -> json) (conv : json -> result A)
    (o : option A) :
  (forall a, conv (inj a) = Ok a) ->
  (forall a, inj a <> JNull) ->
  as_optional conv (Some (json_option inj o)) = Ok o.
Proof.
  intros Hconv Hnull. destruct o as [a|]; [|reflexivity]. cbn.
  specialize (Hconv a). specialize (Hnull a).
  destruct (inj a); try congruence; rewrite Hconv; reflexivity.
Qed.

(** Reading back the object written for a request whose platform is absent
    or an enum member gives the request, after [__post_init__]. *)
Lemma dict_to_request_of_request (now : Z) (r : Request.DownloadRequest)
    (d : gmap string json) (p : option Request.Platform) :
  Request.platform r = Request.PlatformEnum <$> p ->
  _request_to_dict r = Ok d ->
  _dict_to_request now d = Ok (Request.post_init now r).
Proof.
  destruct r as [i uid u plat st cr sa co err rc mr files meta size pt].
  cbn [Request.platform]. intros -> Hd.
  assert (exists pv, platform_value (Request.PlatformEnum <$> p) = Ok pv
             /\ forall d : gmap string json, d !! "platform" = Some pv ->
                  if_truthy platform_of_value d "platform" = Ok p)
    as (pv & Hpv & Hplat).
  { destruct p as [[|]|]; eexists; (split; [reflexivity|]);
      intros d' Hd'; unfold if_truthy; rewrite Hd'; reflexivity. }
  unfold _request_to_dict in Hd. cbn [Request.platform] in Hd.
  rewrite Hpv in Hd. injection Hd as <-.
  cbn [Request.id Request.user_id Request.url Request.status Request.created_at
       Request.started_at Request.completed_at Request.error_message
       Request.retry_count Request.max_retries Request.media_files
       Request.metadata Request.total_size Request.processing_time].
  unfold _dict_to_request.
  match goal with |- context [getitem ?d "id"] => set (dict := d) end.
  assert (dict !! "id" = Some (JStr i)) as H1 by reflexivity.
  assert (dict !! "user_id" = Some (JInt uid)) as H2 by reflexivity.
  assert (dict !! "url" = Some (JStr u)) as H3 by reflexivity.
  assert (dict !! "platform" = Some pv) as H4 by reflexivity.
  assert (dict !! "status" = Some (JStr (status_value st))) as H5 by reflexivity.
  assert (dict !! "created_at" = Some (json_option JTime cr)) as H6 by reflexivity.
  assert (dict !! "started_at" = Some (json_option JTime sa)) as H7 by reflexivity.
  assert (dict !! "completed_at" = Some (json_option JTime co)) as H8
    by reflexivity.
  assert (dict !! "error_message" = Some (json_option JStr err)) as H9
    by reflexivity.
  assert (dict !! "retry_count" = Some (JInt rc)) as H10 by reflexivity.
  assert (dict !! "max_retries" = Some (JInt mr)) as H11 by reflexivity.
  assert (dict !! "media_files" = Some (JArr (JStr <$> files))) as H12
    by reflexivity.
  assert (dict !! "metadata" = Some (JObj meta)) as H13 by reflexivity.
  assert (dict !! "total_size" = Some (json_option JInt size)) as H14
    by reflexivity.
  assert (dict !! "processing_time" = Some (json_option JFloat pt)) as H15
    by reflexivity.
  clearbody dict.
  unfold getitem, get_or.
  rewrite H1, H2, H3, H5, H9, H10, H11, H12, H13, H14, H15.
  rewrite (Hplat dict H4).
  rewrite (if_truthy_time dict _ _ H6), (if_truthy_time dict _ _ H7),
    (if_truthy_time dict _ _ H8).
  rewrite !as_optional_option by (intros; (reflexivity || discriminate)).
  cbn [mbind result_bind as_str as_int as_files as_dict].
  rewrite status_of_value_status_value, as_str_list_strings.
  reflexivity.
Qed.

(** A request built by the constructor from an absent or enum platform, and
    changed by its operations, is one [__post_init__] leaves alone. *)
Lemma reachable_fixed (now0 : Z) (rid : string) (uid : Z) (u : string)
    (p : option Request.Platform) (ops : list Request.request_op) (now : Z) :
  let r := Request.run_ops
             (Request.new_request now0 rid uid u (Request.PlatformEnum <$> p))
             ops in
  Request.post_init now r = r
  /\ exists q, Request.platform r = Request.PlatformEnum <$> q.
Proof.
  cbn zeta.
  destruct (RequestMore.run_ops_identity ops
              (Request.new_request now0 rid uid u (Request.PlatformEnum <$> p)))
    as (_ & _ & Hu & Hp & Hc & _).
  destruct (Request.run_ops _ ops)
    as [i uid' u' plat st cr sa co err rc mr files meta size pt].
  cbn [Request.url Request.platform Request.created_at] in Hu, Hp, Hc.
  subst u' plat cr. unfold Request.new_request, Request.post_init.
  cbn [Request.url Request.platform Request.created_at Request.id
       Request.user_id Request.status Request.started_at Request.completed_at
       Request.error_message Request.retry_count Request.max_retries
       Request.media_files Request.metadata Request.total_size
       Request.processing_time].
  destruct p as [p|]; cbn [fmap option_fmap option_map].
  - split; [reflexivity|]. exists (Some p). reflexivity.
  - destruct (negb (String.eqb u "")); cbn [negb].
    + destruct (str_in "instagram.com" u || str_in "instagr.am" u) eqn:E1.
      * split; [reflexivity|]. exists (Some Request.INSTAGRAM). reflexivity.
      * destruct (str_in "tiktok.com" u || str_in "vm.tiktok.com" u) eqn:E2.
        -- split; [reflexivity|]. exists (Some Request.TIKTOK). reflexivity.
        -- split; [reflexivity|]. exists None. reflexivity.
    + split; [reflexivity|]. exists None. reflexivity.
Qed.

Lemma request_to_dict_enum (r : Request.DownloadRequest)
    (q : option Request.Platform) :
  Request.platform r = Request.PlatformEnum <$> q ->
  exists d, _request_to_dict r = Ok d.
Proof.
  intros Hq. unfold _request_to_dict. rewrite Hq.
  destruct q as [[|]|]; eexists; reflexivity.
Qed.

Lemma request_to_dict_id (r : Request.DownloadRequest) (d : gmap string json) :
  _request_to_dict r = Ok d -> d !! "id" = Some (JStr (Request.id r)).
Proof.
  unfold _request_to_dict.
  destruct (platform_value (Request.platform r)); [|discriminate].
  intros [= <-]. apply lookup_insert_eq.
Qed.

(** X18.  Round trip of the stored form.  A request built by the
    constructor with an absent or enum platform, whatever operations were
    applied to it since, is converted by [_request_to_dict] to an object
    that [_dict_to_request] converts back to the same request, whatever the
    clock shows at that moment. *)
Theorem request_round_trip (now0 : Z) (rid : string) (uid : Z) (u : string)
    (p : option Request.Platform) (ops : list Request.request_op) :
  let r := Request.run_ops
             (Request.new_request now0 rid uid u (Request.PlatformEnum <$> p))
             ops in
  exists d, _request_to_dict r = Ok d
            /\ forall now, _dict_to_request now d = Ok r.
Proof.
  cbn zeta.
  destruct (reachable_fixed now0 rid uid u p ops 0) as [_ [q Hq]].
  destruct (request_to_dict_enum _ q Hq) as [d Hd].
  exists d. split; [exact Hd|]. intros now.
  rewrite (dict_to_request_of_request now _ d q Hq Hd).
  f_equal. apply (reachable_fixed now0 rid uid u p ops now).
Qed.

Lemma json_eq_str_other (v : json) (a b : string) :
  json_eq_str v a = true -> b <> a -> json_eq_str v b = false.
Proof.
  destruct v; cbn; try discriminate.
  intros Ha%String.eqb_eq Hne. subst. apply String.eqb_neq. congruence.
Qed.

Lemma json_eq_str_true (v : json) (a : string) :
  json_eq_str v a = true -> v = JStr a.
Proof.
  destruct v; cbn; try discriminate. intros ->%String.eqb_eq. reflexivity.
Qed.

(** The loop of [save]: where the object lands. *)
Lemma upsert_spec (rid : string) (d : gmap string json)
    (data : list (gmap string json)) :
  Forall has_id_key data ->
  (Forall (fun d0 => has_id rid d0 = false) data
   /\ upsert rid d data = Ok (data ++ [d])%list)
  \/ (exists (i : nat) d0,
        data !! i = Some d0 /\ has_id rid d0 = true
        /\ (forall (j : nat) d', (j < i)%nat -> data !! j = Some d' ->
                                 has_id rid d' = false)
        /\ upsert rid d data = Ok (<[i := d]> data)).
Proof.
  induction 1 as [|d0 data [v Hv] _ IH]; [left; split; [constructor|reflexivity]|].
  cbn [upsert]. rewrite Hv.
  destruct (json_eq_str v rid) eqn:Ev.
  - right. exists 0%nat, d0. repeat split.
    + unfold has_id. rewrite Hv. exact Ev.
    + intros j d' Hj. lia.
  - assert (has_id rid d0 = false) as Hd0 by (unfold has_id; rewrite Hv; exact Ev).
    destruct IH as [[Hall ->]|(i & d1 & Hi & Hid & Hbefore & ->)].
    + left. split; [constructor; assumption|reflexivity].
    + right. exists (S i), d1. repeat split; [exact Hi|exact Hid|].
      intros [|j] d' Hj Hl; cbn in Hl.
      * congruence.
      * apply (Hbefore j d'); [lia|exact Hl].
Qed.

(** The loop of [get_by_id] on what the loop of [save] left. *)
Lemma find_request_upsert (now : Z) (rid : string) (d : gmap string json) :
  has_id rid d = true ->
  forall data data',
    upsert rid d data = Ok data' ->
    find_request now rid data'
    = match _dict_to_request now d with
      | Ok r => Ok (Some r)
      | Raise e => Raise e
      end
    /\ forall rid', rid' <> rid ->
         find_request now rid' data' = find_request now rid' data.
Proof.
  intros Hd.
  assert (exists w, d !! "id" = Some w /\ json_eq_str w rid = true)
    as (w & Hw & Ew).
  { unfold has_id in Hd. destruct (d !! "id") as [w|]; [|discriminate].
    exists w. split; [reflexivity|exact Hd]. }
  induction data as [|d0 data IH]; intros data' Hup.
  - injection Hup as <-. cbn [find_request]. rewrite Hw, Ew.
    split; [reflexivity|].
    intros rid' Hne. rewrite (json_eq_str_other w rid rid' Ew Hne). reflexivity.
  - cbn [upsert] in Hup.
    destruct (d0 !! "id") as [v|] eqn:Hv; [|discriminate].
    destruct (json_eq_str v rid) eqn:Ev.
    + injection Hup as <-. cbn [find_request]. rewrite Hw, Ew, Hv.
      split; [reflexivity|].
      intros rid' Hne.
      rewrite (json_eq_str_other w rid rid' Ew Hne),
        (json_eq_str_other v rid rid' Ev Hne). reflexivity.
    + destruct (upsert rid d data) as [rest'|e] eqn:Hrest; [|discriminate].
      injection Hup as <-. destruct (IH rest' eq_refl) as [IH1 IH2].
      cbn [find_request]. rewrite Hv, Ev. split; [exact IH1|].
      intros rid' Hne. destruct (json_eq_str v rid'); [reflexivity|].
      apply IH2, Hne.
Qed.

Lemma request_stored_after_read (f : store) :
  stored (snd (_read_data f)) = stored f.
Proof. destruct f as [[data|] n]; reflexivity. Qed.

Lemma request_read_after_read (f : store) :
  _read_data (snd (_read_data f)) = (stored f, snd (_read_data f)).
Proof. destruct f as [[data|] n]; reflexivity. Qed.

Lemma request_read_after_write (data : list (gmap string json)) (f : store) :
  _read_data (write_data data f) = (data, write_data data f).
Proof. reflexivity. Qed.

Lemma save_ok (r : Request.DownloadRequest) (d : gmap string json) (f : store) :
  Forall has_id_key (stored f) ->
  _request_to_dict r = Ok d ->
  exists data',
    upsert (Request.id r) d (stored f) = Ok data'
    /\ save r f = (Ok r, write_data data' (snd (_read_data f))).
Proof.
  intros Hwf Hd. unfold save. fold (stored f). rewrite Hd.
  cbn [mbind result_bind].
  destruct (upsert_spec (Request.id r) d (stored f) Hwf)
    as [[_ Hup]|(i & d0 & _ & _ & _ & Hup)];
    rewrite Hup; eexists; (split; reflexivity).
Qed.

(** X19.  A saved request is found again.  On a store whose objects all
    carry an id, saving a request built by the constructor (absent or enum
    platform, any operations since) returns it and writes the file;
    [get_by_id] of its id then returns that same request without writing,
    and [get_by_id] of any other id answers as it did before the save. *)
Theorem save_then_get_by_id (now0 : Z) (rid : string) (uid : Z) (u : string)
    (p : option Request.Platform) (ops : list Request.request_op)
    (f : store) (now : Z) :
  Forall has_id_key (stored f) ->
  let r := Request.run_ops
             (Request.new_request now0 rid uid u (Request.PlatformEnum <$> p))
             ops in
  let f' := snd (save r f) in
  fst (save r f) = Ok r
  /\ (writes f < writes f')%nat
  /\ get_by_id now rid f' = (Ok (Some r), f')
  /\ (forall rid', rid' <> rid ->
        fst (get_by_id now rid' f') = fst (get_by_id now rid' f)).
Proof.
  intros Hwf. cbn zeta.
  set (r := Request.run_ops _ ops).
  destruct (reachable_fixed now0 rid uid u p ops now) as [Hfix [q Hq]].
  fold r in Hfix, Hq.
  destruct (request_to_dict_enum r q Hq) as [d Hd].
  assert (Request.id r = rid) as Hid.
  { apply (RequestMore.run_ops_identity ops
             (Request.new_request now0 rid uid u (Request.PlatformEnum <$> p))). }
  destruct (save_ok r d f Hwf Hd) as (data' & Hup & Hsave).
  rewrite Hid in Hup. rewrite Hsave. cbn [fst snd].
  assert (has_id rid d = true) as Hhas.
  { unfold has_id. rewrite (request_to_dict_id r d Hd), Hid. cbn.
    apply String.eqb_refl. }
  destruct (find_request_upsert now rid d Hhas _ _ Hup) as [Hfind Hother].
  rewrite (dict_to_request_of_request now r d q Hq Hd), Hfix in Hfind.
  split; [reflexivity|].
  split.
  { unfold _read_data, read_data. destruct (text f); cbn; lia. }
  split.
  { unfold get_by_id. rewrite request_read_after_write. cbn [fst snd].
    rewrite Hfind. reflexivity. }
  intros rid' Hne.
  unfold get_by_id. rewrite request_read_after_write. cbn [fst snd].
  fold (stored f). rewrite (Hother rid' Hne).
  destruct (find_request now rid' (stored f)); reflexivity.
Qed.

(** The theorem at an empty store and a request that was started. *)
Lemma save_then_get_by_id_witness :
  let f : store := mkFile (Parsed []) 0 in
  let r := Request.run_ops
             (Request.new_request 10 "r1" 7 "https://www.tiktok.com/@a/video/1"
                                  None)
             [Request.OpStart 20] in
  Forall has_id_key (stored f)
  /\ get_by_id 30 "r1" (snd (save r f)) = (Ok (Some r), snd (save r f)).
Proof.
  assert (Forall has_id_key (stored (mkFile (Parsed []) 0 : store))) as H
    by constructor.
  split; [exact H|].
  destruct (save_then_get_by_id 10 "r1" 7 "https://www.tiktok.com/@a/video/1"
              None [Request.OpStart 20] (mkFile (Parsed []) 0) 30 H)
    as (_ & _ & Hget & _).
  exact Hget.
Defined.

(** X20.  [save] is an upsert.  On a store whose objects all carry an id,
    saving a request that converts to an object either finds no object with
    its id and appends the new one, or replaces the first object with its
    id and leaves every other position as it was; so the sequence of stored
    ids only ever grows by the new id, at the end, and ids that were unique
    stay unique. *)
Theorem save_is_upsert (r : Request.DownloadRequest) (d : gmap string json)
    (f : store) :
  Forall has_id_key (stored f) ->
  _request_to_dict r = Ok d ->
  let f' := snd (save r f) in
  fst (save r f) = Ok r
  /\ ((Forall (fun d0 => has_id (Request.id r) d0 = false) (stored f)
       /\ stored f' = (stored f ++ [d])%list)
      \/ (exists (i : nat) d0,
            stored f !! i = Some d0
            /\ has_id (Request.id r) d0 = true
            /\ (forall (j : nat) d', (j < i)%nat -> stored f !! j = Some d' ->
                                     has_id (Request.id r) d' = false)
            /\ stored f' = <[i := d]> (stored f)
            /\ (.!! "id") <$> stored f' = (.!! "id") <$> stored f))
  /\ (NoDup ((.!! "id") <$> stored f) -> NoDup ((.!! "id") <$> stored f')).
Proof.
  intros Hwf Hd. cbn zeta.
  destruct (save_ok r d f Hwf Hd) as (data' & Hup & Hsave).
  rewrite Hsave. cbn [fst snd].
  change (stored (write_data data' (snd (_read_data f)))) with data'.
  pose proof (request_to_dict_id r d Hd) as Hdid.
  split; [reflexivity|].
  destruct (upsert_spec (Request.id r) d (stored f) Hwf)
    as [[Hall Hup']|(i & d0 & Hi & Hid & Hbefore & Hup')];
    rewrite Hup' in Hup; injection Hup as <-.
  - split; [left; split; [exact Hall|reflexivity]|].
    intros Hnd. rewrite fmap_app. apply NoDup_app.
    split; [exact Hnd|]. split; [|apply NoDup_singleton].
    intros x Hx Hin. apply list_elem_of_fmap in Hx as (d1 & -> & Hd1).
    cbn in Hin. apply list_elem_of_singleton in Hin. rewrite Hdid in Hin.
    rewrite Forall_forall in Hall. specialize (Hall d1 Hd1).
    unfold has_id in Hall. rewrite Hin in Hall. cbn in Hall.
    rewrite String.eqb_refl in Hall. discriminate.
  - assert ((.!! "id") <$> <[i := d]> (stored f) = (.!! "id") <$> stored f)
      as Hids.
    { rewrite list_fmap_insert. apply list_insert_id.
      rewrite list_lookup_fmap, Hi. cbn. f_equal. rewrite Hdid.
      unfold has_id in Hid. destruct (d0 !! "id") as [v|]; [|discriminate].
      f_equal. apply json_eq_str_true, Hid. }
    split.
    + right. exists i, d0. repeat split; assumption.
    + rewrite Hids. tauto.
Qed.

(** The theorem at a store that holds the request already. *)
Lemma save_is_upsert_witness :
  let r := Request.new_request 10 "r1" 7 "https://www.tiktok.com/@a/video/1" None in
  let f : store := mkFile (Parsed [sample_request]) 0 in
  Forall has_id_key (stored f)
  /\ (exists d, _request_to_dict r = Ok d)
  /\ fst (save r f) = Ok r.
Proof.
  assert (Forall has_id_key (stored (mkFile (Parsed [sample_request]) 0 : store)))
    as H.
  { repeat constructor. exists (JStr "r1"). reflexivity. }
  split; [exact H|]. split; [eexists; reflexivity|].
  apply (save_is_upsert
           (Request.new_request 10 "r1" 7 "https://www.tiktok.com/@a/video/1" None)
           _ (mkFile (Parsed [sample_request]) 0) H eq_refl).
Defined.

(** X21.  When [save] fails it fails with a [RepositoryError] and stores
    nothing: the array the repository reads afterwards is the one it read
    before.  It fails in particular for every request whose [platform]
    attribute is a non-empty [str], which has no [value]. *)
Theorem save_failure_stores_nothing (r : Request.DownloadRequest) (f : store) :
  (forall e, fst (save r f) = Raise e ->
             (exists m, e = RepositoryError m)
             /\ stored (snd (save r f)) = stored f)
  /\ (forall s, Request.platform r = Some (Request.PlatformStr s) ->
                s <> "" ->
                fst (save r f)
                = Raise (RepositoryError
                           ("Failed to save download request: "
                            +:+ "'str' object has no attribute 'value'"))).
Proof.
  split.
  - intros e. unfold save.
    destruct (_request_to_dict r ≫= _) as [data'|e']; cbn [fst snd];
      [discriminate|].
    intros [= <-]. split; [eexists; reflexivity|].
    apply request_stored_after_read.
  - intros s Hp Hs. unfold save, _request_to_dict. rewrite Hp.
    cbn [platform_value]. apply String.eqb_neq in Hs. rewrite Hs.
    reflexivity.
Qed.

Lemma sublist_same_length {A} (l1 l2 : list A) :
  l1 `sublist_of` l2 -> List.length l1 = List.length l2 -> l1 = l2.
Proof.
  induction 1 as [|x l1 l2 _ IH|x l1 l2 Hsub _]; cbn; intros Hlen.
  - reflexivity.
  - f_equal. apply IH. lia.
  - apply sublist_length in Hsub. lia.
Qed.

(** The filtering loop of [delete_old_requests]: what it keeps. *)
Lemma keep_recent_spec (cutoff : Z) (clock : nat -> Z) :
  forall (data : list (gmap string json)) (i : nat) kept,
    keep_recent cutoff clock i data = Ok kept ->
    kept `sublist_of` data
    /\ (forall d, d ∈ data -> in_progress d = true -> d ∈ kept)
    /\ (forall d t, d ∈ data -> d !! "created_at" = Some (JTime t) ->
                    cutoff <= t -> d ∈ kept)
    /\ ((forall j, cutoff <= clock j) ->
        forall d, d ∈ data ->
                  if_truthy fromisoformat d "created_at" = Ok None -> d ∈ kept)
    /\ (forall d t, d ∈ kept -> d !! "created_at" = Some (JTime t) ->
                    in_progress d = false -> cutoff <= t).
Proof.
  induction data as [|d0 data IH]; intros i kept Hk.
  - injection Hk as <-. repeat split.
    + constructor.
    + intros d Hd. inversion Hd.
    + intros d t Hd. inversion Hd.
    + intros _ d Hd. inversion Hd.
    + intros d t Hd. inversion Hd.
  - cbn [keep_recent] in Hk.
    destruct (if_truthy fromisoformat d0 "created_at") as [created|e] eqn:Hc;
      [|discriminate].
    destruct (keep_recent cutoff clock (S i) data) as [rest'|e] eqn:Hrest;
      [|discriminate].
    destruct (IH (S i) rest' Hrest) as (IH1 & IH2 & IH3 & IH4 & IH5).
    assert (forall t, d0 !! "created_at" = Some (JTime t) -> created = Some t)
      as Htime.
    { intros t Ht. unfold if_truthy in Hc. rewrite Ht in Hc. cbn in Hc.
      congruence. }
    destruct ((cutoff <=? default (clock i) created) || in_progress d0) eqn:Hcond;
      injection Hk as <-.
    + split; [apply sublist_skip, IH1|].
      split.
      { intros d [->|Hd]%elem_of_cons Hp; [left|right; apply IH2; assumption]. }
      split.
      { intros d t [->|Hd]%elem_of_cons Ht Hle;
          [left|right; apply (IH3 d t); assumption]. }
      split.
      { intros Hclock d [->|Hd]%elem_of_cons Hn;
          [left|right; apply IH4; assumption]. }
      intros d t [->|Hd]%elem_of_cons Ht Hp; [|apply (IH5 d t); assumption].
      rewrite (Htime t Ht), Hp in Hcond. cbn in Hcond. lia.
    + apply orb_false_iff in Hcond as [Hold Hp0].
      split; [apply sublist_cons, IH1|].
      split.
      { intros d [->|Hd]%elem_of_cons Hp; [congruence|apply IH2; assumption]. }
      split.
      { intros d t [->|Hd]%elem_of_cons Ht Hle; [|apply (IH3 d t); assumption].
        rewrite (Htime t Ht) in Hold. cbn in Hold. lia. }
      split.
      { intros Hclock d [->|Hd]%elem_of_cons Hn; [|apply IH4; assumption].
        rewrite Hn in Hc. injection Hc as <-. cbn in Hold.
        specialize (Hclock i). lia. }
      exact IH5.
Qed.

(** X22.  What [delete_old_requests] removes.  It either fails with a
    [RepositoryError], storing nothing, or returns the number of objects it
    removed: the stored array becomes a subsequence of the old one, shorter
    by that number, and the file is not written when the number is 0.  An
    object whose status is pending or processing is never removed, nor one
    created at or after the cutoff ([now] minus the days), nor, while the
    clock does not fall behind the cutoff, one without a creation time;
    every object that stays with a creation time before the cutoff is
    pending or processing. *)
Theorem delete_old_requests_keeps (now : Z) (clock : nat -> Z) (days : Z)
    (f : store) :
  let cutoff := now - days_delta days in
  let f' := snd (delete_old_requests now clock days f) in
  match fst (delete_old_requests now clock days f) with
  | Raise e => (exists m, e = RepositoryError m) /\ stored f' = stored f
  | Ok n =>
      stored f' `sublist_of` stored f
      /\ List.length (stored f) = (n + List.length (stored f'))%nat
      /\ (n = 0%nat -> f' = snd (_read_data f))
      /\ (forall d, d ∈ stored f -> in_progress d = true -> d ∈ stored f')
      /\ (forall d t, d ∈ stored f -> d !! "created_at" = Some (JTime t) ->
                      cutoff <= t -> d ∈ stored f')
      /\ ((forall j, cutoff <= clock j) ->
          forall d, d ∈ stored f ->
                    if_truthy fromisoformat d "created_at" = Ok None ->
                    d ∈ stored f')
      /\ (forall d t, d ∈ stored f' -> d !! "created_at" = Some (JTime t) ->
                      in_progress d = false -> cutoff <= t)
  end.
Proof.
  cbn zeta. unfold delete_old_requests. fold (stored f).
  destruct (keep_recent (now - days_delta days) clock 0 (stored f))
    as [kept|e] eqn:Hk; cbn [fst snd].
  - pose proof (keep_recent_spec _ _ _ _ _ Hk) as (H1 & H2 & H3 & H4 & H5).
    pose proof (sublist_length _ _ H1) as Hlen.
    destruct (0 <? List.length (stored f) - List.length kept)%nat eqn:Hpos;
      cbn [fst snd].
    + change (stored (write_data kept (snd (_read_data f)))) with kept.
      apply Nat.ltb_lt in Hpos.
      split; [exact H1|]. split; [lia|]. split; [lia|].
      split; [exact H2|]. split; [exact H3|]. split; [exact H4|exact H5].
    + apply Nat.ltb_ge in Hpos.
      assert (kept = stored f) as ->
        by (apply sublist_same_length; [exact H1|lia]).
      rewrite request_stored_after_read.
      split; [reflexivity|]. split; [lia|]. split; [reflexivity|].
      split; [exact H2|]. split; [exact H3|]. split; [exact H4|exact H5].
  - split; [eexists; reflexivity|]. apply request_stored_after_read.
Qed.

(** X23.  Every saved download event is counted once.  After [save] of an
    analytics record, [get_total_downloads] answers one more than before
    when the record's event type is download_success or download_failed,
    and the same as before for every other event type. *)
Theorem save_counts_downloads (a : Analytics.Analytics)
    (f : JsonAnalyticsRepository.store) :
  exists n : nat,
    fst (JsonAnalyticsRepository.get_total_downloads f) = Ok n
    /\ fst (JsonAnalyticsRepository.get_total_downloads
              (snd (JsonAnalyticsRepository.save a f)))
       = Ok (n + match Analytics.event_type a with
                 | Analytics.DOWNLOAD_SUCCESS | Analytics.DOWNLOAD_FAILED => 1
                 | _ => 0
                 end)%nat.
Proof.
  eexists. split; [reflexivity|].
  unfold JsonAnalyticsRepository.get_total_downloads,
    JsonAnalyticsRepository.save.
  cbn [fst snd JsonAnalyticsRepository._read_data read_data write_data text].
  rewrite List.filter_app, length_app. do 2 f_equal.
  destruct a as [i uid ev pl mt u fs pt su err meta cr].
  destruct ev; reflexivity.
Qed.

End RepositoryMore.
